(** * Singing voice transcription: training callbacks and block-local 2-D attention

    A shallow embedding of [vocal_contour/callbacks.py] (early stopping and
    model checkpointing), of [models/t2t.py] (heads, padding, gather
    indices, gather / scatter of blocks, padding mask, local attention) and
    of helpers of [utils.py] (loggers, F0 aggregation, case conversion,
    dataset types), followed by the properties established about them. *)

From Stdlib Require Import ZArith QArith Qabs Lqa String Ascii.
From stdpp Require Import gmap strings list.

Local Open Scope string_scope.
Local Open Scope list_scope.
Local Open Scope Z_scope.

(** ** Python exceptions and the result monad *)

Inductive exn : Type :=
| AttributeError (attr : string)
| AssertionError
| KeyError (key : string)
| IndexError
| UnboundLocalError (var : string)
| ZeroDivisionError
| InvalidArgumentError (op : string)
| FileNotFoundError (path : string)
| NotADirectoryError (path : string)
| IsADirectoryError (path : string)
| FileExistsError (path : string).

Inductive Result (A : Type) : Type :=
| Ok (a : A)
| Raise (e : exn).
Arguments Ok {A} a.
Arguments Raise {A} e.

#[global] Instance Result_ret : MRet Result := fun _ a => Ok a.
#[global] Instance Result_bind : MBind Result := fun _ _ f m =>
  match m with
  | Ok a => f a
  | Raise e => Raise e
  end.

(** Reading an attribute that may not have been assigned yet. *)
Definition getattr {A : Type} (name : string) (o : option A) : Result A :=
  match o with
  | Some a => Ok a
  | None => Raise (AttributeError name)
  end.

(** Exceptions of the interpreter besides those above, for the functions
    that raise them. *)
Inductive py_exn : Type :=
| Std (e : exn)
| ValueError (msg : string).

Inductive PyResult (A : Type) : Type :=
| PyOk (a : A)
| PyRaise (e : py_exn).
Arguments PyOk {A} a.
Arguments PyRaise {A} e.

Definition of_result {A : Type} (r : Result A) : PyResult A :=
  match r with
  | Ok a => PyOk a
  | Raise e => PyRaise (Std e)
  end.

(** ** Metric scalars

    A metric is a Python float.  The callbacks only compare metrics, so a
    float is represented by its value: a rational, an infinity, or NaN. *)

Inductive scalar : Type :=
| Fin (q : Q)
| PInf
| NInf
| NaN.

Definition Qltb (a b : Q) : bool := negb (Qle_bool b a).

Module np.

Definition Inf : scalar := PInf.

Definition neg (a : scalar) : scalar :=
  match a with
  | Fin q => Fin (Qopp q)
  | PInf => NInf
  | NInf => PInf
  | NaN => NaN
  end.

(** [np.less]: IEEE comparison, false as soon as one side is NaN. *)
Definition less (a b : scalar) : bool :=
  match a, b with
  | NaN, _ | _, NaN => false
  | Fin x, Fin y => Qltb x y
  | Fin _, PInf => true
  | Fin _, NInf => false
  | PInf, _ => false
  | NInf, NInf => false
  | NInf, _ => true
  end.

Definition greater (a b : scalar) : bool := less b a.

(** The two comparators a callback may hold in [monitor_op]. *)
Inductive ufunc : Type := np_greater | np_less.

Definition call (op : ufunc) (a b : scalar) : bool :=
  match op with
  | np_greater => greater a b
  | np_less => less a b
  end.

Definition is_less (op : ufunc) : bool :=
  match op with
  | np_less => true
  | np_greater => false
  end.

End np.

(** ** String helpers used by the callbacks *)

(** [sub in s] *)
Fixpoint contains (sub s : string) : bool :=
  String.prefix sub s ||
  match s with
  | EmptyString => false
  | String _ s' => contains sub s'
  end.

(** [s.startswith(p)] *)
Definition startswith (s p : string) : bool := String.prefix p s.

(** [s.split(sep)] for a one-character separator. *)
Fixpoint str_split (sep : ascii) (s : string) : list string :=
  match s with
  | EmptyString => [EmptyString]
  | String c s' =>
      if Ascii.eqb c sep then EmptyString :: str_split sep s'
      else match str_split sep s' with
           | [] => [String c EmptyString]
           | w :: ws => String c w :: ws
           end
  end.

Definition endswith_slash (s : string) : bool :=
  match last (list_ascii_of_string s) with
  | Some c => Ascii.eqb c "/"
  | None => false
  end.

(** [os.path.join(a, b)] for a relative second component. *)
Definition path_join (a b : string) : string :=
  if String.eqb a "" then b
  else if endswith_slash a then a +:+ b
  else a +:+ "/" +:+ b.

(** ** The world outside a callback: the model, the file system, the log *)

(** The model object a trainer hands to its callbacks.  [stop_training] is
    the attribute the trainer polls; [to_yaml] and [weights] stand for what
    [model.to_yaml()] returns and what [model.save_weights] persists. *)
Record Model : Type := {
  stop_training : bool;
  to_yaml : string;
  weights : string;
}.

Inductive io_event : Type :=
| MakeDirs (path : string)
| WriteFile (path content : string).

(** A [logger.warning] call of [_get_monitor_value]. *)
Record warning : Type := {
  warn_callback : string;
  warn_monitor : string;
  warn_available : gset string;
}.

Record World : Type := {
  model : Model;
  files : gmap string string;
  dirs : gset string;
  io : list io_event;       (* most recent first *)
  log : list warning;       (* most recent first *)
}.

(** Stateful, fallible computations over the world. *)
Definition M (A : Type) : Type := World → Result (A * World).

Definition pure {A : Type} (a : A) : M A := fun w => Ok (a, w).
Definition throw {A : Type} (e : exn) : M A := fun _ => Raise e.
Definition lift {A : Type} (r : Result A) : M A :=
  fun w => match r with Ok a => Ok (a, w) | Raise e => Raise e end.
Definition bindM {A B : Type} (m : M A) (f : A → M B) : M B :=
  fun w => match m w with
           | Ok (a, w') => f a w'
           | Raise e => Raise e
           end.

Notation "'let*' x ':=' c 'in' k" := (bindM c (fun x => k))
  (at level 10, x pattern, c at level 100, k at level 200).
Notation "c ';;;' k" := (bindM c (fun _ => k))
  (at level 100, k at level 200, right associativity).

Definition add_warning (wn : warning) (w : World) : World :=
  {| model := model w; files := files w; dirs := dirs w;
     io := io w; log := wn :: log w |}.

Definition logger_warning (wn : warning) : M unit :=
  fun w => Ok (tt, add_warning wn w).

(** [model.stop_training = b] *)
Definition assign_stop_training (b : bool) (w : World) : World :=
  {| model := {| stop_training := b;
                 to_yaml := to_yaml (model w);
                 weights := weights (model w) |};
     files := files w; dirs := dirs w; io := io w; log := log w |}.

Definition set_stop_training (b : bool) : M unit :=
  fun w => Ok (tt, assign_stop_training b w).

(** ** The file system

    The file system is the set of directories and the map of regular files
    of the world.  Paths are taken as they are written, up to trailing
    slashes: a directory is known under its name without them, the root
    under the empty name. *)

(** A path without its trailing slashes. *)
Fixpoint strip_slashes (path : string) : string :=
  match path with
  | EmptyString => EmptyString
  | String c rest =>
      match strip_slashes rest with
      | EmptyString => if Ascii.eqb c "/" then EmptyString else String c EmptyString
      | r => String c r
      end
  end.

(** A path up to its last slash, the slash included: the directory the
    path names an entry of.  It is empty for a path without a slash, which
    names an entry of the current directory. *)
Fixpoint dir_part (path : string) : string :=
  match path with
  | EmptyString => EmptyString
  | String c rest =>
      match dir_part rest with
      | EmptyString => if Ascii.eqb c "/" then String c EmptyString else EmptyString
      | d => String c d
      end
  end.

(** The prefixes of [s] that a slash follows, each after [pre]. *)
Fixpoint prefixes_before_slash (pre s : string) : list string :=
  match s with
  | EmptyString => []
  | String c s' =>
      (if Ascii.eqb c "/" then [pre] else []) ++
      prefixes_before_slash (pre +:+ String c EmptyString) s'
  end.

(** The directories a path leads through, outermost first. *)
Definition ancestors (path : string) : list string :=
  strip_slashes <$> prefixes_before_slash "" path.

(** [os.path.isdir], [os.path.isfile], [os.path.exists]; none holds of the
    empty path. *)
Definition known_dir (p : string) (w : World) : bool :=
  String.eqb p "" || bool_decide (p ∈ dirs w).

Definition isdir (path : string) (w : World) : bool :=
  negb (String.eqb path "") && known_dir (strip_slashes path) w.

Definition isfile (path : string) (w : World) : bool :=
  negb (String.eqb path "") && bool_decide (is_Some (files w !! path)).

Definition path_exists (path : string) (w : World) : bool :=
  isdir path w || isfile path w.

(** A component the path leads through is a regular file. *)
Definition blocked (path : string) (w : World) : bool :=
  existsb (fun a => isfile a w) (ancestors path).

(** The directory the path names an entry of exists. *)
Definition in_directory (path : string) (w : World) : bool :=
  String.eqb (dir_part path) "" || isdir (dir_part path) w.

(** [os.makedirs(path)]: the error it raises, if any. *)
Definition makedirs_error (path : string) (w : World) : option exn :=
  if String.eqb path "" then Some (FileNotFoundError path)
  else if blocked (strip_slashes path) w then Some (NotADirectoryError path)
  else if isdir path w || isfile (strip_slashes path) w then Some (FileExistsError path)
  else None.

(** [os.makedirs(path)]: the directory is made, and the missing ones it
    lies in. *)
Definition makedirs (path : string) : M unit :=
  fun w =>
    match makedirs_error path w with
    | Some e => Raise e
    | None =>
        Ok (tt, {| model := model w; files := files w;
                   dirs := {[strip_slashes path]} ∪
                           list_to_set (ancestors (strip_slashes path)) ∪ dirs w;
                   io := MakeDirs path :: io w; log := log w |})
    end.

(** [utils.ensure_path_exists] *)
Definition ensure_path_exists (path : string) : M unit :=
  fun w => if path_exists path w then Ok (tt, w) else makedirs path w.

(** [open(path, "w")]: the error it raises, if any.  The file is made in
    an existing directory, and is not a directory itself; a path with a
    trailing slash names a directory. *)
Definition open_error (path : string) (w : World) : option exn :=
  if String.eqb path "" then Some (FileNotFoundError path)
  else if in_directory path w then
    if endswith_slash path || isdir path w then Some (IsADirectoryError path)
    else None
  else if blocked path w then Some (NotADirectoryError path)
  else if endswith_slash path && in_directory (strip_slashes path) w
  then Some (IsADirectoryError path)
  else Some (FileNotFoundError path).

(** [open(path, "w").write(content)] *)
Definition write_file (path content : string) : M unit :=
  fun w =>
    match open_error path w with
    | Some e => Raise e
    | None =>
        Ok (tt, {| model := model w; files := <[path := content]> (files w);
                   dirs := dirs w; io := WriteFile path content :: io w;
                   log := log w |})
    end.

(** [utils.write_yaml(json_obj, output_path, dump=False)]: the object is a
    YAML string already and is written as it is. *)
Definition write_yaml (out_str output_path : string) : M unit :=
  write_file output_path out_str.

(** [model.save_weights(path)]: the weights file is opened for writing. *)
Definition save_weights (path : string) : M unit :=
  fun w => write_file path (weights (model w)) w.

(** ** Metric history *)

(** One epoch record: metric name to scalar. *)
Abbreviation record := (gmap string scalar).
(** [{"train": [...], "validate": [...]}], or [None]. *)
Abbreviation History := (option (gmap string (list (gmap string scalar)))).

Definition empty_history : gmap string (list record) :=
  <["train" := []]> (<["validate" := []]> ∅).

(** [history or {"train": [], "validate": []}]: [None] and the empty dict
    are falsy. *)
Definition history_or_default (history : History) : gmap string (list record) :=
  match history with
  | None => empty_history
  | Some h => if bool_decide (h = ∅) then empty_history else h
  end.

Definition getitem (h : gmap string (list record)) (k : string) : Result (list record) :=
  match h !! k with
  | Some l => Ok l
  | None => Raise (KeyError k)
  end.

(** ** Callback *)

Module Callback.

(** Attributes of the base class.  [monitor] and [monitor_op] exist only
    when the callback was constructed with a monitor; [has_model] says
    whether [_set_model] bound the trainer's model to [self.model]. *)
Record t : Type := {
  monitor : option string;
  monitor_op : option np.ufunc;
  has_model : bool;
}.

Definition __init__ (monitor : option string) : t :=
  match monitor with
  | Some m =>
      {| monitor := Some m;
         monitor_op := Some (if contains "acc" m then np.np_greater else np.np_less);
         has_model := false |}
  | None => {| monitor := None; monitor_op := None; has_model := false |}
  end.

Definition _set_model (self : t) : t :=
  {| monitor := monitor self; monitor_op := monitor_op self; has_model := true |}.

(** The stream [_get_monitor_value] reads. *)
Definition stream (monitor : string) : string :=
  if startswith monitor "val" then "validate" else "train".

(** The key looked up in the latest record. *)
Definition metric_name (monitor : string) : string :=
  let metric := List.last (str_split "_" monitor) "" in
  if String.eqb metric "acc" then "accuracy" else metric.

Definition _get_monitor_value (self : t) (history : History)
    (callback_name : string) : M (option scalar) :=
  let history := history_or_default history in
  let* monitor := lift (getattr "monitor" (monitor self)) in
  let* hist := lift (getitem history (stream monitor)) in
  (* [current] is bound only when the stream is not empty *)
  let current := last hist in
  let metric := metric_name monitor in
  let* current := lift (match current with
                         | Some c => Ok c
                         | None => Raise (UnboundLocalError "current")
                         end) in
  let score := current !! metric in
  match score with
  | None =>
      logger_warning {| warn_callback := callback_name;
                        warn_monitor := monitor;
                        warn_available := dom current |} ;;;
      pure score
  | Some _ => pure score
  end.

End Callback.

(** ** EarlyStopping *)

Module EarlyStopping.

Record t : Type := {
  base : Callback.t;
  patience : Z;
  stopped_epoch : Z;
  wait : option Z;
  best : option scalar;
}.

Definition __init__ (patience : Z) (monitor : option string) : t :=
  {| base := Callback.__init__ monitor;
     patience := patience;
     stopped_epoch := 0;
     wait := None;
     best := None |}.

Definition _set_model (self : t) : t :=
  {| base := Callback._set_model (base self);
     patience := patience self; stopped_epoch := stopped_epoch self;
     wait := wait self; best := best self |}.

Definition on_train_begin (self : t) : Result t :=
  op ← getattr "monitor_op" (Callback.monitor_op (base self));
  mret {| base := base self;
          patience := patience self; stopped_epoch := stopped_epoch self;
          wait := Some 0;
          best := Some (if np.is_less op then np.Inf else np.neg np.Inf) |}.

Definition on_epoch_end (self : t) (epoch : Z) (history : History) : M t :=
  if negb (Callback.has_model (base self)) then throw AssertionError else
  let* score := Callback._get_monitor_value (base self) history "Early stopping" in
  match score with
  | None => pure self
  | Some score =>
      let* op := lift (getattr "monitor_op" (Callback.monitor_op (base self))) in
      let* best0 := lift (getattr "best" (best self)) in
      let* self1 :=
        if np.call op score best0 then
          pure {| base := base self; patience := patience self;
                  stopped_epoch := stopped_epoch self;
                  wait := Some 0; best := Some score |}
        else
          let* w := lift (getattr "wait" (wait self)) in
          pure {| base := base self; patience := patience self;
                  stopped_epoch := stopped_epoch self;
                  wait := Some (w + 1); best := best self |} in
      let* w1 := lift (getattr "wait" (wait self1)) in
      if patience self1 <=? w1 then
        set_stop_training true ;;;
        pure {| base := base self1; patience := patience self1;
                stopped_epoch := epoch;
                wait := wait self1; best := best self1 |}
      else pure self1
  end.

(** [on_train_end]: the lines it prints. *)
Definition on_train_end (self : t) : list string :=
  if 0 <? stopped_epoch self then ["Early stopped training"] else [].

End EarlyStopping.

(** ** ModelCheckpoint *)

Module ModelCheckpoint.

Record t : Type := {
  base : Callback.t;
  filepath : string;
  save_best_only : bool;
  save_weights_only : bool;
  best : option scalar;
  _path_checked : bool;
}.

Definition __init__ (filepath : string) (monitor : option string)
    (save_best_only save_weights_only : bool) : t :=
  {| base := Callback.__init__ monitor;
     filepath := filepath;
     save_best_only := save_best_only;
     save_weights_only := save_weights_only;
     best := None;
     _path_checked := false |}.

Definition _set_model (self : t) : t :=
  {| base := Callback._set_model (base self);
     filepath := filepath self; save_best_only := save_best_only self;
     save_weights_only := save_weights_only self;
     best := best self; _path_checked := _path_checked self |}.

Definition on_train_begin (self : t) : Result t :=
  op ← getattr "monitor_op" (Callback.monitor_op (base self));
  mret {| base := base self;
          filepath := filepath self; save_best_only := save_best_only self;
          save_weights_only := save_weights_only self;
          best := Some (if np.is_less op then np.Inf else np.neg np.Inf);
          _path_checked := _path_checked self |}.

Definition set_best (self : t) (score : scalar) : t :=
  {| base := base self;
     filepath := filepath self; save_best_only := save_best_only self;
     save_weights_only := save_weights_only self;
     best := Some score; _path_checked := _path_checked self |}.

Definition _ensure_path_exists (self : t) : M t :=
  if _path_checked self then pure self else
  ensure_path_exists (filepath self) ;;;
  pure {| base := base self;
          filepath := filepath self; save_best_only := save_best_only self;
          save_weights_only := save_weights_only self;
          best := best self; _path_checked := true |}.

Definition _save_model (self : t) : M t :=
  let* self := _ensure_path_exists self in
  (if negb (save_weights_only self) then
     (if Callback.has_model (base self) then pure tt
      else throw (AttributeError "model")) ;;;
     fun w => write_yaml (to_yaml (model w)) (path_join (filepath self) "arch.yaml") w
   else pure tt) ;;;
  (if Callback.has_model (base self) then pure tt
   else throw (AttributeError "model")) ;;;
  save_weights (path_join (filepath self) "weights.h5") ;;;
  pure self.

Definition on_epoch_end (self : t) (epoch : Z) (history : History) : M t :=
  if save_best_only self then
    let* score := Callback._get_monitor_value (base self) history "Model checkpoint" in
    match score with
    | None => pure self
    | Some score =>
        let* op := lift (getattr "monitor_op" (Callback.monitor_op (base self))) in
        let* best0 := lift (getattr "best" (best self)) in
        if np.call op score best0 then
          _save_model (set_best self score)
        else pure self
    end
  else _save_model self.

End ModelCheckpoint.

(** ** Consecutive epochs

    The trainer calls [on_epoch_end] once per epoch, with consecutive epoch
    numbers and the history as it stands at the end of that epoch. *)

Fixpoint run_epochs (self : EarlyStopping.t) (epoch : Z) (hs : list History)
    : M EarlyStopping.t :=
  match hs with
  | [] => pure self
  | h :: hs' =>
      let* self' := EarlyStopping.on_epoch_end self epoch h in
      run_epochs self' (epoch + 1) hs'
  end.

(** The latest record of the stream a monitor selects, and the monitored
    metric in it. *)
Definition latest_record (monitor : string) (h : History) : option record :=
  hist ← history_or_default h !! Callback.stream monitor; last hist.

Definition latest_metric (monitor : string) (h : History) : option scalar :=
  r ← latest_record monitor h; r !! Callback.metric_name monitor.

(** The attributes a callback has after [on_train_begin]. *)
Definition trained (es : EarlyStopping.t) : Prop :=
  ∃ w b, EarlyStopping.wait es = Some w ∧ 0 ≤ w ∧ EarlyStopping.best es = Some b.

(** Each score is strictly worse, for the comparator, than the one before. *)
Fixpoint worsening (op : np.ufunc) (prev : scalar) (ss : list scalar) : Prop :=
  match ss with
  | [] => True
  | s :: ss' => np.call op prev s = true ∧ worsening op s ss'
  end.

(** ** Tensors

    A tensor with a static shape is its shape and the value at each index;
    only the values at indices within the shape are meaningful. *)

Record Tensor (V : Type) : Type := {
  shape : list Z;
  get : list Z → V;
}.
Arguments shape {V} _.
Arguments get {V} _ _.

Definition in_bounds (sh idx : list Z) : Prop :=
  Forall2 (fun d i => 0 ≤ i < d) sh idx.

(** Same shape and same values within it. *)
Definition tensor_eq {V : Type} (a b : Tensor V) : Prop :=
  shape a = shape b ∧ ∀ idx, in_bounds (shape a) idx → get a idx = get b idx.

(** Number of elements of a shape. *)
Definition size (sh : list Z) : Z := foldr Z.mul 1 sh.

(** Row-major offset of an index, and the index at an offset. *)
Fixpoint ravel (sh idx : list Z) : Z :=
  match sh, idx with
  | _ :: ds, i :: idx' => i * size ds + ravel ds idx'
  | _, _ => 0
  end.

Fixpoint unravel (sh : list Z) (off : Z) : list Z :=
  match sh with
  | [] => []
  | _ :: ds => off / size ds :: unravel ds (off mod size ds)
  end.

(** All indices within a shape, in row-major order. *)
Fixpoint all_indices (sh : list Z) : list (list Z) :=
  match sh with
  | [] => [[]]
  | d :: ds => i ← seqZ 0 d; cons i <$> all_indices ds
  end.

(** [l[i]] on a Python list *)
Definition index {A : Type} (l : list A) (i : nat) : Result A :=
  match l !! i with
  | Some a => Ok a
  | None => Raise IndexError
  end.

(** [l[-1]] *)
Definition index_last {A : Type} (l : list A) : Result A :=
  match last l with
  | Some a => Ok a
  | None => Raise IndexError
  end.

(** [a % b] on Python integers: the result has the sign of [b]. *)
Definition py_mod (a b : Z) : Result Z :=
  if b =? 0 then Raise ZeroDivisionError else Ok (a mod b).

(** ** Element types *)

Class Dtype (V : Type) : Type := {
  zero : V;
  one : V;
  add : V → V → V;
  mul : V → V → V;
  vabs : V → V;
  veqb : V → V → bool;
  of_Z : Z → V;
}.

(** Real-valued tensors, with exact arithmetic. *)
#[global] Instance Dtype_Q : Dtype Q := {
  zero := 0%Q;
  one := 1%Q;
  add := Qplus;
  mul := Qmult;
  vabs := Qabs;
  veqb := Qeq_bool;
  of_Z := inject_Z;
}.

(** Rounding of an integer to the nearest binary32 value, ties to even:
    a binary32 significand has 24 bits. *)
Definition f32_round (z : Z) : Z :=
  let a := Z.abs z in
  if a <? 2 ^ 24 then z else
  let e := Z.log2 a - 23 in
  let q := a / 2 ^ e in
  let r := a mod 2 ^ e in
  let half := 2 ^ (e - 1) in
  let q' := if r <? half then q
            else if half <? r then q + 1
            else if Z.even q then q else q + 1 in
  Z.sgn z * (q' * 2 ^ e).

(** The binary32 values that are integers.  They are closed under the
    correctly rounded sum and product. *)
Record float32 : Type := F32 { f32_val : Z }.

#[global] Instance Dtype_float32 : Dtype float32 := {
  zero := F32 0;
  one := F32 1;
  add a b := F32 (f32_round (f32_val a + f32_val b));
  mul a b := F32 (f32_round (f32_val a * f32_val b));
  vabs a := F32 (Z.abs (f32_val a));
  veqb a b := f32_val a =? f32_val b;
  of_Z z := F32 (f32_round z);
}.

(** Sum of a list of values, from [zero]. *)
Definition vsum {V : Type} `{Dtype V} (l : list V) : V := foldl add zero l.

(** ** TensorFlow operations *)

Module tf.

Section Ops.
Context {V : Type} `{Dtype V}.

Definition map_tensor {W : Type} (f : V → W) (t : Tensor V) : Tensor W :=
  {| shape := shape t; get := fun idx => f (get t idx) |}.

(** [tf.eye(n)] *)
Definition eye (n : Z) : Tensor V :=
  {| shape := [n; n];
     get := fun idx => match idx with
                       | [i; j] => if i =? j then one else zero
                       | _ => zero
                       end |}.

(** The dimension a [-1] entry of a requested shape stands for. *)
Definition infer_shape (in_shape new_shape : list Z) : Result (list Z) :=
  let unknown := length (filter (fun d => d = -1) new_shape) in
  match unknown with
  | O => Ok new_shape
  | S O =>
      if existsb (Z.eqb 0) new_shape && existsb (Z.eqb 0) in_shape then
        (* an empty tensor: the sizes that are zero are left out of both
           products, and nothing has to divide *)
        let known := size (filter (fun d => d ≠ 0) (filter (fun d => d ≠ -1) new_shape)) in
        let total := size (filter (fun d => d ≠ 0) in_shape) in
        if 0 <? known
        then Ok ((fun d => if d =? -1 then total / known else d) <$> new_shape)
        else Raise (InvalidArgumentError "reshape")
      else
        let known := size (filter (fun d => d ≠ -1) new_shape) in
        let total := size in_shape in
        if (0 <? known) && (total mod known =? 0)
        then Ok ((fun d => if d =? -1 then total / known else d) <$> new_shape)
        else Raise (InvalidArgumentError "reshape")
  | _ => Raise (InvalidArgumentError "reshape")
  end.

(** [tf.reshape(t, new_shape)]: same elements in row-major order. *)
Definition reshape (t : Tensor V) (new_shape : list Z) : Result (Tensor V) :=
  sh ← infer_shape (shape t) new_shape;
  if forallb (fun d => 0 <=? d) sh && (size sh =? size (shape t)) then
    Ok {| shape := sh;
          get := fun idx => get t (unravel (shape t) (ravel sh idx)) |}
  else Raise (InvalidArgumentError "reshape").

(** Position of axis [a] in [perm]. *)
Fixpoint index_of (a : nat) (perm : list nat) : nat :=
  match perm with
  | [] => O
  | p :: perm' => if Nat.eqb p a then O else S (index_of a perm')
  end.

Definition is_perm (perm : list nat) (rank : nat) : bool :=
  Nat.eqb (length perm) rank &&
  forallb (fun a => existsb (Nat.eqb a) perm) (seq 0 rank).

(** [tf.transpose(t, perm)]: axis [k] of the result is axis [perm[k]]
    of [t]. *)
Definition transpose (t : Tensor V) (perm : list nat) : Result (Tensor V) :=
  let rank := length (shape t) in
  if is_perm perm rank then
    Ok {| shape := (fun p => nth p (shape t) 0) <$> perm;
          get := fun idx =>
            get t ((fun a => nth (index_of a perm) idx 0) <$> seq 0 rank) |}
  else Raise (InvalidArgumentError "transpose").

(** [tf.pad(t, paddings)] with constant zero. *)
Definition pad (t : Tensor V) (paddings : list (Z * Z)) : Result (Tensor V) :=
  if Nat.eqb (length paddings) (length (shape t)) &&
     forallb (fun p => (0 <=? fst p) && (0 <=? snd p)) paddings then
    Ok {| shape := zip_with (fun d p => fst p + d + snd p) (shape t) paddings;
          get := fun idx =>
            let src := zip_with (fun i p => i - fst p) idx paddings in
            if forallb (fun di => (0 <=? snd di) && (snd di <? fst di))
                 (zip (shape t) src)
            then get t src else zero |}
  else Raise (InvalidArgumentError "pad").

(** [tf.slice(t, begin, size)]; a size of [-1] takes all that remains. *)
Definition slice (t : Tensor V) (begin sz : list Z) : Result (Tensor V) :=
  let rank := length (shape t) in
  let sz' := zip_with (fun ds b => if snd ds =? -1 then fst ds - b else snd ds)
               (zip (shape t) sz) begin in
  if Nat.eqb (length begin) rank && Nat.eqb (length sz) rank &&
     forallb (fun b => 0 <=? b) begin &&
     forallb (fun s => 0 <=? s) sz' &&
     forallb (fun x => fst x <=? snd x)
       (zip (zip_with Z.add begin sz') (shape t)) then
    Ok {| shape := sz'; get := fun idx => get t (zip_with Z.add begin idx) |}
  else Raise (InvalidArgumentError "slice").

(** [tf.expand_dims(t, axis=-2)] *)
Definition expand_dims_m2 (t : Tensor V) : Result (Tensor V) :=
  let rank := length (shape t) in
  match rank with
  | O => Raise (InvalidArgumentError "expand_dims")
  | S r =>
      Ok {| shape := take r (shape t) ++ [1] ++ drop r (shape t);
            get := fun idx => get t (take r idx ++ drop (S r) idx) |}
  end.

(** [tf.gather(params, indices)] along axis 0; an index out of range is
    an error. *)
Definition gather (params : Tensor V) (indices : Tensor Z) : Result (Tensor V) :=
  match shape params with
  | [] => Raise (InvalidArgumentError "gather")
  | n :: rest =>
      if forallb (fun idx => (0 <=? get indices idx) && (get indices idx <? n))
           (all_indices (shape indices)) then
        let r := length (shape indices) in
        Ok {| shape := shape indices ++ rest;
              get := fun idx => get params (get indices (take r idx) :: drop r idx) |}
      else Raise (InvalidArgumentError "gather")
  end.

(** [tf.scatter_nd(indices, updates, shape)] for indices of depth one:
    the result is zero everywhere, plus every update slice added at its
    index. *)
Definition scatter_nd (indices : Tensor Z) (updates : Tensor V) (sh : list Z)
    : Result (Tensor V) :=
  match shape indices, shape updates, sh with
  | [m; 1], m' :: rest, n :: rest' =>
      if (m =? m') && bool_decide (rest = rest') &&
         forallb (fun j => (0 <=? get indices [j; 0]) && (get indices [j; 0] <? n))
           (seqZ 0 m) then
        Ok {| shape := sh;
              get := fun idx =>
                match idx with
                | l :: idx' =>
                    vsum ((fun j => get updates (j :: idx')) <$>
                          filter (fun j => get indices [j; 0] = l) (seqZ 0 m))
                | [] => zero
                end |}
      else Raise (InvalidArgumentError "scatter_nd")
  | _, _, _ => Raise (InvalidArgumentError "scatter_nd")
  end.

(** Output length of a strided window with [padding="VALID"], as the
    convolution kernel computes it: the input size less the filter size
    plus the stride, divided by the stride with the quotient truncated
    towards zero; the length must not come out negative. *)
Definition valid_out_size (n f s : Z) : Result Z :=
  if (s <=? 0) || (f <=? 0) || ((n - f + s) ÷ s <? 0)
  then Raise (InvalidArgumentError "conv2d")
  else Ok ((n - f + s) ÷ s).

(** [tf.nn.conv2d(input, kernel, strides, padding="VALID")], input in
    NHWC and kernel in HWIO layout. *)
Definition conv2d (input kernel : Tensor V) (strides : list Z) : Result (Tensor V) :=
  match shape input, shape kernel, strides with
  | [n; h; w; c], [kh; kw; ci; co], [1; sh; sw; 1] =>
      if c =? ci then
        oh ← valid_out_size h kh sh;
        ow ← valid_out_size w kw sw;
        Ok {| shape := [n; oh; ow; co];
              get := fun idx =>
                match idx with
                | [b; oy; ox; o] =>
                    vsum ((fun i =>
                      vsum ((fun j =>
                        vsum ((fun q =>
                          mul (get input [b; oy * sh + i; ox * sw + j; q])
                              (get kernel [i; j; q; o])) <$> seqZ 0 ci))
                        <$> seqZ 0 kw))
                      <$> seqZ 0 kh)
                | _ => zero
                end |}
      else Raise (InvalidArgumentError "conv2d")
  | _, _, _ => Raise (InvalidArgumentError "conv2d")
  end.

(** [tf.reduce_sum(t, axis=-1)] *)
Definition reduce_sum_last (t : Tensor V) : Result (Tensor V) :=
  d ← index_last (shape t);
  Ok {| shape := removelast (shape t);
        get := fun idx => vsum ((fun j => get t (idx ++ [j])) <$> seqZ 0 d) |}.

(** [tf.abs] *)
Definition abs (t : Tensor V) : Tensor V := map_tensor vabs t.

(** [tf.equal(t, c)] against a scalar *)
Definition equal (t : Tensor V) (c : V) : Tensor bool :=
  map_tensor (fun v => veqb v c) t.

(** [tf.compat.v1.to_float] of a boolean tensor *)
Definition to_float (t : Tensor bool) : Tensor V :=
  {| shape := shape t; get := fun idx => if get t idx then one else zero |}.

(** [t * c] for a scalar [c] *)
Definition scale (t : Tensor V) (c : V) : Tensor V :=
  map_tensor (fun v => mul v c) t.

(** [a + b] with broadcasting of dimensions of size one, for operands
    of the same rank. *)
Definition broadcast_index (sh idx : list Z) : list Z :=
  zip_with (fun d i => if d =? 1 then 0 else i) sh idx.

Definition add_broadcast (a b : Tensor V) : Result (Tensor V) :=
  if Nat.eqb (length (shape a)) (length (shape b)) &&
     forallb (fun p => (fst p =? snd p) || (fst p =? 1) || (snd p =? 1))
       (zip (shape a) (shape b)) then
    Ok {| shape := zip_with (fun x y => if x =? 1 then y else x) (shape a) (shape b);
          get := fun idx => add (get a (broadcast_index (shape a) idx))
                                (get b (broadcast_index (shape b) idx)) |}
  else Raise (InvalidArgumentError "add").

(** Batch axes of two operands, innermost first, broadcast against each
    other: sizes agree or one of them is one; the shorter list is
    extended by the other. *)
Fixpoint broadcast_batch (a b : list Z) : option (list Z) :=
  match a, b with
  | [], _ => Some b
  | _, [] => Some a
  | x :: a', y :: b' =>
      if (x =? y) || (y =? 1) then cons x <$> broadcast_batch a' b'
      else if x =? 1 then cons y <$> broadcast_batch a' b'
      else None
  end.

(** The index into an operand with batch axes [sh] for the batch index
    [idx] of the product. *)
Definition batch_index (sh idx : list Z) : list Z :=
  broadcast_index sh (drop (length idx - length sh) idx).

(** [tf.matmul(a, b)] and [tf.matmul(a, b, transpose_b=True)] over the
    last two axes, the leading axes being batch axes, which broadcast. *)
Definition matmul (a b : Tensor V) (transpose_b : bool) : Result (Tensor V) :=
  match reverse (shape a), reverse (shape b) with
  | k :: m :: batch_a, y :: x :: batch_b =>
      let n := if transpose_b then x else y in
      let k' := if transpose_b then y else x in
      match broadcast_batch batch_a batch_b with
      | Some batch =>
          if k =? k' then
            let r := length batch in
            Ok {| shape := reverse batch ++ [m; n];
                  get := fun idx =>
                    let bidx := take r idx in
                    let i := nth r idx 0 in
                    let j := nth (S r) idx 0 in
                    vsum ((fun p =>
                      mul (get a (batch_index (reverse batch_a) bidx ++ [i; p]))
                          (get b (batch_index (reverse batch_b) bidx ++
                                  (if transpose_b then [j; p] else [p; j]))))
                      <$> seqZ 0 k) |}
          else Raise (InvalidArgumentError "matmul")
      | None => Raise (InvalidArgumentError "matmul")
      end
  | _, _ => Raise (InvalidArgumentError "matmul")
  end.

End Ops.

(** [tf.range(n)] *)
Definition range (n : Z) : Tensor Z :=
  {| shape := [Z.max 0 n]; get := fun idx => nth 0 idx 0 |}.

(** [tf.cast(t, tf.float32)] of an integer tensor, and
    [tf.cast(t, tf.int32)] of a float tensor holding integers. *)
Definition cast_float32 (t : Tensor Z) : Tensor float32 :=
  map_tensor (fun z => F32 (f32_round z)) t.

Definition cast_int32 (t : Tensor float32) : Tensor Z :=
  map_tensor f32_val t.

End tf.

(** ** models/t2t.py *)

Module t2t.

Section Functions.
Context {V : Type} `{Dtype V}.

(** All shapes are static here, so [shape_list] is the shape. *)
Definition shape_list {W : Type} (t : Tensor W) : list Z := shape t.

Definition reshape_range (tensor : Tensor V) (i j : nat) (sh : list Z)
    : Result (Tensor V) :=
  let t_shape := shape_list tensor in
  let target_shape := take i t_shape ++ sh ++ drop j t_shape in
  tf.reshape tensor target_shape.

Definition pad_to_multiple_2d (x : Tensor V) (block_shape : Z * Z)
    : Result (Tensor V) :=
  let old_shape := shape x in
  last_dim ← index_last old_shape;
  paddings ←
    (if Nat.eqb (length old_shape) 4 then
       h ← index (shape_list x) 1;
       height_padding ← py_mod (- h) (fst block_shape);
       w ← index (shape_list x) 2;
       width_padding ← py_mod (- w) (snd block_shape);
       Ok [(0, 0); (0, height_padding); (0, width_padding); (0, 0)]
     else if Nat.eqb (length old_shape) 5 then
       h ← index (shape_list x) 2;
       height_padding ← py_mod (- h) (fst block_shape);
       w ← index (shape_list x) 3;
       width_padding ← py_mod (- w) (snd block_shape);
       Ok [(0, 0); (0, 0); (0, height_padding); (0, width_padding); (0, 0)]
     else Raise (UnboundLocalError "paddings"));
  padded_x ← tf.pad x paddings;
  let padded_shape := removelast (shape padded_x) ++ [last_dim] in
  Ok {| shape := padded_shape; get := get padded_x |}.

Definition gather_blocks_2d (x : Tensor V) (indices : Tensor Z)
    : Result (Tensor V) :=
  let x_shape := shape_list x in
  x ← reshape_range x 2 4 [size (take 2 (drop 2 x_shape))];
  x_t ← tf.transpose x [2; 0; 1; 3]%nat;
  x_new ← tf.gather x_t indices;
  tf.transpose x_new [2; 3; 0; 1; 4]%nat.

Definition scatter_blocks_2d (x : Tensor V) (indices : Tensor Z) (sh : list Z)
    : Result (Tensor V) :=
  let x_shape := shape_list x in
  d0 ← index x_shape 0;
  d1 ← index x_shape 1;
  dl ← index_last x_shape;
  x_r ← tf.reshape x [d0; d1; -1; dl];
  x_t ← tf.transpose x_r [2; 0; 1; 3]%nat;
  let x_t_shape := shape_list x_t in
  indices ← tf.reshape indices [-1; 1];
  scattered_x ← tf.scatter_nd indices x_t x_t_shape;
  scattered_x ← tf.transpose scattered_x [1; 2; 0; 3]%nat;
  tf.reshape scattered_x sh.

Definition embedding_to_padding (emb : Tensor V) : Result (Tensor V) :=
  emb_sum ← tf.reduce_sum_last (tf.abs emb);
  Ok (tf.to_float (tf.equal emb_sum zero)).

(** The logits of [dot_product_attention], bias added. *)
Definition attention_logits (q k : Tensor V) (bias : option (Tensor V))
    : Result (Tensor V) :=
  logits ← tf.matmul q k true;
  match bias with
  | Some bias => tf.add_broadcast logits bias
  | None => Ok logits
  end.

(** [dot_product_attention] with its defaults: no dropout (the keep
    probability is one), no precision change, no weights recorded.
    [softmax] is [tf.nn.softmax] over the last axis. *)
Definition dot_product_attention (softmax : Tensor V → Tensor V)
    (q k v : Tensor V) (bias : option (Tensor V)) : Result (Tensor V) :=
  logits ← attention_logits q k bias;
  let weights := softmax logits in
  tf.matmul weights v false.

Definition split_last_dimension (x : Tensor V) (n : Z) : Result (Tensor V) :=
  let x_shape := shape_list x in
  m ← index_last x_shape;
  r ← py_mod m n;
  if negb (r =? 0) then Raise AssertionError else
  tf.reshape x (removelast x_shape ++ [n; m / n]).

Definition split_heads_2d (x : Tensor V) (num_heads : Z) : Result (Tensor V) :=
  x ← split_last_dimension x num_heads;
  tf.transpose x [0; 3; 1; 2; 4]%nat.

Definition combine_last_two_dimensions (x : Tensor V) : PyResult (Tensor V) :=
  let x_shape := shape_list x in
  match reverse x_shape with
  | b :: a :: _ =>
      of_result (tf.reshape x (take (length x_shape - 2) x_shape ++ [a * b]))
  | _ => PyRaise (ValueError "not enough values to unpack")
  end.

Definition combine_heads_2d (x : Tensor V) : PyResult (Tensor V) :=
  match tf.transpose x [0; 2; 3; 1; 4]%nat with
  | Ok x_t => combine_last_two_dimensions x_t
  | Raise e => PyRaise (Std e)
  end.

End Functions.

Definition gather_indices_2d {W : Type} (x : Tensor W)
    (block_shape block_stride : Z * Z) : Result (Tensor Z) :=
  (* an identity matrix kernel *)
  let kernel : Tensor float32 := tf.eye (fst block_shape * snd block_shape) in
  kernel ← reshape_range kernel 0 1 [fst block_shape; snd block_shape; 1];
  (* indices [1, h, w, 1] to apply convs *)
  let x_shape := shape_list x in
  h ← index x_shape 2;
  w ← index x_shape 3;
  let indices := tf.range (h * w) in
  indices ← tf.reshape indices [1; h; w; 1];
  indices ← tf.conv2d (tf.cast_float32 indices) kernel
              [1; fst block_stride; snd block_stride; 1];
  (* indices [num_blocks, dim] to gather *)
  let dims := take 3 (shape_list indices) in
  let num_blocks := foldl Z.mul 1 dims in
  indices ← tf.reshape indices [num_blocks; -1];
  Ok (tf.cast_int32 indices).

Section Attention.
Context {V : Type} `{Dtype V}.

(** The tensors [local_attention_2d] hands to [dot_product_attention],
    with the query indices and the padded query. *)
Record attention_blocks : Type := {
  padded_q : Tensor V;
  q_indices : Tensor Z;
  q_new : Tensor V;
  k_new : Tensor V;
  v_new : Tensor V;
  attention_bias : Tensor V;
}.

Definition local_attention_2d_blocks (q k v : Tensor V)
    (query_shape memory_flange : Z * Z) : Result attention_blocks :=
  (* Pad query, key, value to ensure multiple of corresponding lengths. *)
  q ← pad_to_multiple_2d q query_shape;
  k ← pad_to_multiple_2d k query_shape;
  v ← pad_to_multiple_2d v query_shape;
  let paddings := [(0, 0); (0, 0);
                   (fst memory_flange, snd memory_flange);
                   (fst memory_flange, snd memory_flange); (0, 0)] in
  k ← tf.pad k paddings;
  v ← tf.pad v paddings;
  (* Set up query blocks. *)
  q_indices ← gather_indices_2d q query_shape query_shape;
  q_new ← gather_blocks_2d q q_indices;
  (* Set up key and value blocks. *)
  let memory_shape := (fst query_shape + 2 * fst memory_flange,
                       snd query_shape + 2 * snd memory_flange) in
  k_and_v_indices ← gather_indices_2d k memory_shape query_shape;
  k_new ← gather_blocks_2d k k_and_v_indices;
  v_new ← gather_blocks_2d v k_and_v_indices;
  mask ← embedding_to_padding k_new;
  attention_bias ← tf.expand_dims_m2 (tf.scale mask (of_Z (-1000000000)));
  Ok {| padded_q := q; q_indices := q_indices; q_new := q_new;
        k_new := k_new; v_new := v_new; attention_bias := attention_bias |}.

Definition local_attention_2d (softmax : Tensor V → Tensor V)
    (q k v : Tensor V) (query_shape memory_flange : Z * Z)
    : Result (Tensor V) :=
  let v_shape := shape_list v in
  b ← local_attention_2d_blocks q k v query_shape memory_flange;
  output ← dot_product_attention softmax (q_new b) (k_new b) (v_new b)
             (Some (attention_bias b));
  (* Put representations back into original shapes. *)
  let padded_q_shape := shape_list (padded_q b) in
  output ← scatter_blocks_2d output (q_indices b) padded_q_shape;
  (* Remove the padding if introduced. *)
  vh ← index v_shape 2;
  vw ← index v_shape 3;
  tf.slice output [0; 0; 0; 0; 0] [-1; -1; vh; vw; -1].

End Attention.

End t2t.

(** * [utils.py] *)

(** ** Characters and strings *)

Definition is_upper (c : ascii) : bool :=
  let n := nat_of_ascii c in (65 <=? n)%nat && (n <=? 90)%nat.

Definition is_lower (c : ascii) : bool :=
  let n := nat_of_ascii c in (97 <=? n)%nat && (n <=? 122)%nat.

Definition lower_ascii (c : ascii) : ascii :=
  if is_upper c then ascii_of_nat (nat_of_ascii c + 32) else c.

Definition upper_ascii (c : ascii) : ascii :=
  if is_lower c then ascii_of_nat (nat_of_ascii c - 32) else c.

(** [s.lower()], on the letters of ASCII. *)
Fixpoint lower (s : string) : string :=
  match s with
  | EmptyString => EmptyString
  | String c s' => String (lower_ascii c) (lower s')
  end.

(** [d[k]] on a dict with string keys. *)
Definition dict_get {A : Type} (d : gmap string A) (k : string) : Result A :=
  match d !! k with
  | Some a => Ok a
  | None => Raise (KeyError k)
  end.

(** [del l[i]] on a Python list. *)
Definition del_item {A : Type} (l : list A) (i : nat) : Result (list A) :=
  if (i <? length l)%nat then Ok (delete i l) else Raise IndexError.

(** ** Loggers *)

Module logging.

Definition NOTSET : Z := 0.
Definition DEBUG : Z := 10.
Definition INFO : Z := 20.
Definition WARNING : Z := 30.
Definition ERROR : Z := 40.
Definition CRITICAL : Z := 50.

(** A handler is a [StreamHandler] (or an instance of a subclass), with
    the formatter set on it if any, as [(fmt, datefmt)], or a handler of
    another class. *)
Inductive Handler : Type :=
| StreamHandler (formatter : option (string * string))
| OtherHandler (label : string).

Definition is_stream_handler (h : Handler) : bool :=
  match h with
  | StreamHandler _ => true
  | OtherHandler _ => false
  end.

Record Logger : Type := {
  handlers : list Handler;
  level : Z;
}.

(** The loggers created so far, by name. *)
Definition Manager : Type := gmap string Logger.

(** [logging.getLogger(name)]: the logger of that name, created without
    handlers and with no level on first use. *)
Definition getLogger (name : string) (m : Manager) : Logger :=
  default {| handlers := []; level := NOTSET |} (m !! name).

End logging.

Definition msg_formats : gmap string string :=
  list_to_map [
    ("debug", "%(asctime)s [%(levelname)s] %(message)s  [at %(filename)s:%(lineno)d]");
    ("info", "%(asctime)s %(message)s  [at %(filename)s:%(lineno)d]");
    ("warn", "%(asctime)s %(message)s");
    ("warning", "%(asctime)s %(message)s");
    ("error", "%(asctime)s [%(levelname)s] %(message)s  [at %(filename)s:%(lineno)d]");
    ("critical", "%(asctime)s [%(levelname)s] %(message)s  [at %(filename)s:%(lineno)d]")
  ].

Definition level_mapping : gmap string Z :=
  list_to_map [
    ("debug", logging.DEBUG);
    ("info", logging.INFO);
    ("warn", logging.INFO);
    ("warning", logging.WARNING);
    ("error", logging.ERROR);
    ("critical", logging.CRITICAL)
  ].

Definition date_format : string := "%Y-%m-%d %H:%M:%S".

(** The indices of the stream handlers, in increasing order. *)
Fixpoint stream_indices (hs : list logging.Handler) (idx : nat) : list nat :=
  match hs with
  | [] => []
  | h :: hs' =>
      if logging.is_stream_handler h then idx :: stream_indices hs' (S idx)
      else stream_indices hs' (S idx)
  end.

(** [for idx in rm_idx: del handlers[idx]] *)
Fixpoint del_each (hs : list logging.Handler) (rm_idx : list nat)
    : Result (list logging.Handler) :=
  match rm_idx with
  | [] => Ok hs
  | idx :: rest => hs' ← del_item hs idx; del_each hs' rest
  end.

(** [get_logger(name, level)].  [environ] is [os.environ], [uuid8] the
    first eight characters of the UUID drawn when there is no name, and the
    manager holds the loggers of the process; the result is the name of the
    logger returned and the manager after the call. *)
Definition get_logger (environ : gmap string string) (uuid8 : string)
    (name : option string) (level : string) (m : logging.Manager)
    : Result (string * logging.Manager) :=
  let logger_name := match name with None => uuid8 | Some n => n end in
  let logger := logging.getLogger logger_name m in
  let level := default level (environ !! "LOG_LEVEL") in
  fmt ← dict_get msg_formats (lower level);
  let handler := logging.StreamHandler (Some (fmt, date_format)) in
  hs ← (if (0 <? length (logging.handlers logger))%nat then
          let rm_idx := stream_indices (logging.handlers logger) 0 in
          del_each (logging.handlers logger) rm_idx
        else Ok (logging.handlers logger));
  let hs := hs ++ [handler] in
  lvl ← dict_get level_mapping (lower level);
  Ok (logger_name,
      <[logger_name := {| logging.handlers := hs; logging.level := lvl |}]> m).

(** ** Aggregation of an F0 contour *)

(** The float operations [aggregate_f0_info] uses.  [f_eps] is the literal
    [1e-6], [f_of_Z] the conversion of a Python integer, [f_round6] is
    [round(x, 6)]. *)
Class Float (F : Type) : Type := {
  f_of_Z : Z → F;
  f_sub : F → F → F;
  f_mul : F → F → F;
  f_abs : F → F;
  f_ltb : F → F → bool;
  f_eps : F;
  f_round6 : F → F;
}.

(** Rounding of a rational to the nearest integer, ties to even. *)
Definition Qround_half_even (q : Q) : Z :=
  let n := Qnum q in
  let d := Z.pos (Qden q) in
  let fl := n / d in
  let r := n mod d in
  if 2 * r <? d then fl
  else if d <? 2 * r then fl + 1
  else if Z.even fl then fl else fl + 1.

(** Exact arithmetic on rationals. *)
#[global] Instance Float_Q : Float Q := {
  f_of_Z := inject_Z;
  f_sub := Qminus;
  f_mul := Qmult;
  f_abs := Qabs;
  f_ltb := Qltb;
  f_eps := 1 # 1000000;
  f_round6 q := Qround_half_even (q * inject_Z 1000000) # 1000000;
}.

(** A Python dict with string keys, in insertion order. *)
Abbreviation pydict A := (list (string * A)).

(** [list(d.keys())] *)
Definition keys {A : Type} (d : pydict A) : list string := fst <$> d.

(** [d.get(k)] *)
Fixpoint dict_lookup {A : Type} (d : pydict A) (k : string) : option A :=
  match d with
  | [] => None
  | (k', v) :: d' => if String.eqb k' k then Some v else dict_lookup d' k
  end.

Section AggregateF0.
Context {F : Type} `{Float F}.

(** The row appended for the segment from [start_idx] to [cur_idx].
    [hz_to_note_number] is [pretty_midi.hz_to_note_number]. *)
Definition f0_row (hz_to_note_number : F → F) (t_unit : F)
    (start_idx cur_idx : Z) (last_hz : F) : pydict F :=
  [("start_time", f_round6 (f_mul (f_of_Z start_idx) t_unit));
   ("end_time", f_round6 (f_mul (f_of_Z cur_idx) t_unit));
   ("frequency", last_hz);
   ("pitch", hz_to_note_number last_hz)].

(** The [while] loop of [aggregate_f0_info]: [rest] is [pred[cur_idx:]],
    the contour with its additional ending zero. *)
Fixpoint f0_loop (hz_to_note_number : F → F) (t_unit : F) (rest : list F)
    (cur_idx start_idx : Z) (last_hz : F) (results : list (pydict F))
    : list (pydict F) :=
  match rest with
  | [] => results
  | cur_hz :: rest' =>
      if f_ltb (f_abs (f_sub cur_hz last_hz)) f_eps then
        (* skip to the next index with different frequency *)
        f0_loop hz_to_note_number t_unit rest' (cur_idx + 1) start_idx cur_hz results
      else if f_ltb last_hz f_eps then
        (* almost equals to zero: ignored *)
        f0_loop hz_to_note_number t_unit rest' (cur_idx + 1) cur_idx cur_hz results
      else
        f0_loop hz_to_note_number t_unit rest' (cur_idx + 1) cur_idx cur_hz
          (results ++ [f0_row hz_to_note_number t_unit start_idx cur_idx last_hz])
  end.

Definition aggregate_f0_info (hz_to_note_number : F → F) (pred : list F)
    (t_unit : F) : Result (list (pydict F)) :=
  last_hz ← index pred 0;
  let pred := pred ++ [f_of_Z 0] in
  Ok (f0_loop hz_to_note_number t_unit pred 0 0 last_hz []).

End AggregateF0.

(** ** Writing the aggregated contour *)

Definition fieldnames : list string :=
  ["start_time"; "end_time"; "frequency"; "pitch"].

(** What [write_agg_f0_results] leaves in the file at [path]: the header
    and one record per row, each the cells of the row under the field
    names, a missing cell being empty. *)
Record csv_file (A : Type) : Type := {
  csv_path : string;
  csv_header : list string;
  csv_records : list (list (option A));
}.
Arguments csv_path {A} _.
Arguments csv_header {A} _.
Arguments csv_records {A} _.

Definition write_agg_f0_results {A : Type} (agg_f0 : list (pydict A))
    (output_path : string) (w : World) : PyResult (csv_file A) :=
  (* check the format is correct *)
  if existsb (fun row => negb (bool_decide (keys row = fieldnames))) agg_f0 then
    PyRaise (ValueError
      "Fields inconsistent! Expected: ['start_time', 'end_time', 'frequency', 'pitch']")
  else
    (* with open(output_path, "w") as out *)
    match open_error output_path w with
    | Some e => PyRaise (Std e)
    | None =>
        PyOk {| csv_path := output_path;
                csv_header := fieldnames;
                csv_records := (fun row => dict_lookup row <$> fieldnames) <$> agg_f0 |}
    end.

(** ** Camel case and snake case *)

(** [re.sub(r"(?<!^)(?=[A-Z])", "_", s)]: an underscore goes in before
    every capital letter that is not at the start of the string. *)
Fixpoint underscore_capitals (s : string) : string :=
  match s with
  | EmptyString => EmptyString
  | String c s' =>
      if is_upper c then String "_" (String c (underscore_capitals s'))
      else String c (underscore_capitals s')
  end.

Definition re_sub_capitals (s : string) : string :=
  match s with
  | EmptyString => EmptyString
  | String c s' => String c (underscore_capitals s')
  end.

(** [s.replace("__", "_")]: occurrences are replaced from the left and do
    not overlap. *)
Fixpoint replace_double_underscore (s : string) : string :=
  match s with
  | EmptyString => EmptyString
  | String c s1 =>
      match s1 with
      | EmptyString => String c EmptyString
      | String c2 s2 =>
          if Ascii.eqb c "_" && Ascii.eqb c2 "_"
          then String "_" (replace_double_underscore s2)
          else String c (replace_double_underscore s1)
      end
  end.

Definition camel_to_snake (s : string) : string :=
  replace_double_underscore (lower (re_sub_capitals s)).

(** [s.title()] on ASCII: a letter is capitalised when it does not follow a
    letter and put in lower case when it does. *)
Fixpoint title_from (previous_is_cased : bool) (s : string) : string :=
  match s with
  | EmptyString => EmptyString
  | String c s' =>
      if is_upper c || is_lower c then
        String (if previous_is_cased then lower_ascii c else upper_ascii c)
               (title_from true s')
      else String c (title_from false s')
  end.

Definition title (s : string) : string := title_from false s.

Definition snake_to_camel (s : string) : string :=
  String.concat "" (title <$> str_split "_" s).

(** ** Dataset types *)

(** [resolve_dataset_type(dataset_path, keywords)], from the base name of
    the absolute path, [os.path.basename(os.path.abspath(dataset_path))],
    on. *)
Definition resolve_dataset_type {A : Type} `{EqDecision A}
    (basename : string) (keywords : pydict A) : Result (option A) :=
  let low_path := lower basename in
  let d_type := snd <$> filter (fun kv => contains kv.1 low_path = true) keywords in
  match d_type with
  | [] => Ok None
  | v :: _ =>
      if bool_decide (length (remove_dups d_type) = 1%nat) then Ok (Some v)
      else Raise AssertionError
  end.

(** ** Notions used to state the properties *)

(** All values of a tensor, in row-major order. *)
Definition flatten {V : Type} (t : Tensor V) : list V :=
  get t <$> all_indices (shape t).

(** The rows of a tensor of rank two. *)
Definition rows {V : Type} (t : Tensor V) : list (list V) :=
  match shape t with
  | [n; k] => (fun r => (fun c => get t [r; c]) <$> seqZ 0 k) <$> seqZ 0 n
  | _ => []
  end.

(** [ceil(a / b)] *)
Definition ceil_div (a b : Z) : Z := - ((- a) / b).

(** Offset, in a grid of width [w], of entry [c] of the block of shape
    [(_, bw)] at position [r] among the [ow] blocks per row laid out with
    stride [(sh, sw)]. *)
Definition block_entry (w bw sh sw ow r c : Z) : Z :=
  (r / ow * sh + c / bw) * w + (r mod ow * sw + c mod bw).

(** The tensors [gather_indices_2d] builds on its way: the identity kernel
    of shape [bh, bw, 1, bh * bw] and the grid of shape [1, h, w, 1] of the
    offsets, as binary32 values. *)
Definition identity_kernel (bh bw : Z) : Tensor float32 :=
  {| shape := [bh; bw; 1; bh * bw];
     get := fun idx =>
       get (tf.eye (bh * bw))
         (unravel [bh * bw; bh * bw] (ravel [bh; bw; 1; bh * bw] idx)) |}.

Definition index_grid (h w : Z) : Tensor Z :=
  {| shape := [1; h; w; 1];
     get := fun idx =>
       get (tf.range (h * w)) (unravel [Z.max 0 (h * w)] (ravel [1; h; w; 1] idx)) |}.

Definition offset_grid (h w : Z) : Tensor float32 :=
  tf.cast_float32 (index_grid h w).

(** ** A checkpoint directory that can be saved to *)


(** ** Further notions used to state properties *)

(** [b'] is [b] or strictly better than it for the comparator. *)
Definition no_worse (op : np.ufunc) (b b' : scalar) : Prop :=
  b' = b ∨ np.call op b' b = true.

(** Consecutive [on_epoch_end] calls of a checkpoint. *)
Fixpoint run_checkpoint_epochs (self : ModelCheckpoint.t) (epoch : Z)
    (hs : list History) : M ModelCheckpoint.t :=
  match hs with
  | [] => pure self
  | h :: hs' =>
      let* self' := ModelCheckpoint.on_epoch_end self epoch h in
      run_checkpoint_epochs self' (epoch + 1) hs'
  end.

Definition is_makedirs (ev : io_event) : bool :=
  match ev with
  | MakeDirs _ => true
  | WriteFile _ _ => false
  end.

(** The events a checkpoint at [fp] may produce. *)
Definition checkpoint_event (fp : string) (ev : io_event) : Prop :=
  match ev with
  | MakeDirs p => p = fp
  | WriteFile p _ => p = path_join fp "arch.yaml" ∨ p = path_join fp "weights.h5"
  end.

(** Consecutive calls for one name, with the given levels. *)
Fixpoint get_logger_calls (environ : gmap string string) (name : string)
    (levels : list string) (m : logging.Manager) : Result logging.Manager :=
  match levels with
  | [] => Ok m
  | level :: rest =>
      '(_, m') ← get_logger environ "" (Some name) level m;
      get_logger_calls environ name rest m'
  end.

(** The segments of an F0 contour, as [(start_idx, end_idx, frequency)],
    the way the loop of [aggregate_f0_info] cuts them. *)
Fixpoint f0_segments {F : Type} `{Float F} (rest : list F)
    (cur_idx start_idx : Z) (last_hz : F) : list (Z * Z * F) :=
  match rest with
  | [] => []
  | cur_hz :: rest' =>
      if f_ltb (f_abs (f_sub cur_hz last_hz)) f_eps then
        f0_segments rest' (cur_idx + 1) start_idx cur_hz
      else if f_ltb last_hz f_eps then
        f0_segments rest' (cur_idx + 1) cur_idx cur_hz
      else
        (start_idx, cur_idx, last_hz) :: f0_segments rest' (cur_idx + 1) cur_idx cur_hz
  end.

Definition segment_row {F : Type} `{Float F} (hz_to_note_number : F → F)
    (t_unit : F) (seg : Z * Z * F) : pydict F :=
  f0_row hz_to_note_number t_unit seg.1.1 seg.1.2 seg.2.

(** Segments that follow each other from [lo] on: each is not empty and
    starts no earlier than the one before it ends. *)
Fixpoint chain {F : Type} (lo : Z) (segs : list (Z * Z * F)) : Prop :=
  match segs with
  | [] => True
  | (s, e, _) :: segs' => lo ≤ s ∧ s < e ∧ chain e segs'
  end.

(** Two values are taken for the same frequency. *)
Definition f_close {F : Type} `{Float F} (a b : F) : bool :=
  f_ltb (f_abs (f_sub a b)) f_eps.

(** A segment of the contour [L]: it ends within [L], its frequency is the
    last value before its end and is not below the threshold, and any two
    consecutive values in it are taken for the same frequency. *)
Definition segment_of {F : Type} `{Float F} (L : list F) (seg : Z * Z * F) : Prop :=
  seg.1.2 < Z.of_nat (length L) ∧
  L !! Z.to_nat (seg.1.2 - 1) = Some seg.2 ∧
  f_ltb seg.2 f_eps = false ∧
  ∀ (i : nat) a b, seg.1.1 ≤ Z.of_nat i → Z.of_nat i + 1 < seg.1.2 →
                   L !! i = Some a → L !! S i = Some b → f_close b a = true.

(** Strings of small letters, and words of camel case: a capital followed
    by small letters. *)
Fixpoint all_lower (s : string) : bool :=
  match s with
  | EmptyString => true
  | String c s' => is_lower c && all_lower s'
  end.

Definition camel_word (w : string) : bool :=
  match w with
  | EmptyString => false
  | String c t => is_upper c && all_lower t
  end.

Definition snake_word (w : string) : bool :=
  match w with
  | EmptyString => false
  | String c t => is_lower c && all_lower t
  end.

(** [w.capitalize()] of a word. *)
Definition capitalize (w : string) : string :=
  match w with
  | EmptyString => EmptyString
  | String c t => String (upper_ascii c) t
  end.

(** A string that holds a capital letter. *)
Fixpoint has_upper (s : string) : bool :=
  match s with
  | EmptyString => false
  | String c s' => is_upper c || has_upper s'
  end.

(** ** Example data *)

Module Examples.

Definition world0 : World :=
  {| model := {| stop_training := false; to_yaml := "arch"; weights := "w0" |};
     files := ∅; dirs := ∅; io := []; log := [] |}.

(** A history whose validate stream holds the given losses, oldest first. *)
Definition val_losses (ls : list Q) : History :=
  Some (<["train" := []]>
        (<["validate" := (fun l => {[ "loss" := Fin l ]}) <$> ls]> ∅)).

(** Early stopping on [val_loss] with patience one, attached to a model,
    after [on_train_begin]. *)
Definition es_patience1 : EarlyStopping.t :=
  {| EarlyStopping.base := Callback._set_model (Callback.__init__ (Some "val_loss"));
     EarlyStopping.patience := 1;
     EarlyStopping.stopped_epoch := 0;
     EarlyStopping.wait := Some 0;
     EarlyStopping.best := Some np.Inf |}.

(** The same with patience zero: before [on_train_begin], after it, and
    after a first epoch with validation loss 3. *)
Definition es_patience0 : EarlyStopping.t :=
  EarlyStopping._set_model (EarlyStopping.__init__ 0 (Some "val_loss")).

Definition es_patience0_begun : EarlyStopping.t :=
  {| EarlyStopping.base := EarlyStopping.base es_patience0;
     EarlyStopping.patience := 0;
     EarlyStopping.stopped_epoch := 0;
     EarlyStopping.wait := Some 0;
     EarlyStopping.best := Some np.Inf |}.

Definition es_patience0_epoch0 : EarlyStopping.t :=
  {| EarlyStopping.base := EarlyStopping.base es_patience0;
     EarlyStopping.patience := 0;
     EarlyStopping.stopped_epoch := 0;
     EarlyStopping.wait := Some 0;
     EarlyStopping.best := Some (Fin 3) |}.

(** A checkpoint that saves at every epoch, and one that saves the best
    only; both monitor [val_acc]. *)
Definition mc_always : ModelCheckpoint.t :=
  ModelCheckpoint._set_model (ModelCheckpoint.__init__ "ckpt" (Some "val_acc") false false).

Definition mc_best : ModelCheckpoint.t :=
  {| ModelCheckpoint.base := Callback._set_model (Callback.__init__ (Some "val_acc"));
     ModelCheckpoint.filepath := "ckpt";
     ModelCheckpoint.save_best_only := true;
     ModelCheckpoint.save_weights_only := false;
     ModelCheckpoint.best := Some (Fin (1 # 2));
     ModelCheckpoint._path_checked := false |}.

Definition val_accuracy (a : Q) : History :=
  Some (<["train" := []]> (<["validate" := [ {[ "accuracy" := Fin a ]} ]]> ∅)).

(** A feature map of shape [batch 1, heads 1, 3, 5, channels 2] whose
    entries are their own row-major offsets plus one, and a 4 x 6 image
    of rank four. *)
Definition fmap_3x5 : Tensor Q :=
  {| shape := [1; 1; 3; 5; 2];
     get := fun idx => inject_Z (ravel [1; 1; 3; 5; 2] idx + 1) |}.

(** A feature map of shape [batch 1, heads 1, 2, 4, channels 1]. *)
Definition fmap_2x4 : Tensor Q :=
  {| shape := [1; 1; 2; 4; 1];
     get := fun idx => inject_Z (ravel [1; 1; 2; 4; 1] idx + 1) |}.

Definition image_4x6 : Tensor Q :=
  {| shape := [2; 4; 6; 3];
     get := fun idx => inject_Z (ravel [2; 4; 6; 3] idx) |}.

(** The 3 x 5 feature map padded to blocks of 2 x 3, and the gather
    indices of its blocks. *)
Definition padded_4x6 : Tensor Q :=
  match t2t.pad_to_multiple_2d fmap_3x5 (2, 3) with
  | Ok t => t
  | Raise _ => fmap_3x5
  end.

Definition indices_4x6 : Tensor Z :=
  match t2t.gather_indices_2d padded_4x6 (2, 3) (2, 3) with
  | Ok t => t
  | Raise _ => tf.range 0
  end.


(** The key grid of a 4 x 4 query with blocks of 2 x 2 and a flange of
    one: 6 x 6. *)
Definition key_6x6 : Tensor Q :=
  {| shape := [1; 1; 6; 6; 2];
     get := fun idx => inject_Z (ravel [1; 1; 6; 6; 2] idx) |}.

(** A grid of 4104 x 4096 positions. *)
Definition grid_4104x4096 : Tensor Q :=
  {| shape := [1; 1; 4104; 4096; 1]; get := fun _ => 0%Q |}.

(** Four blocks of six entries with two channels. *)
Definition blocks_4x6 : Tensor Q :=
  {| shape := [1; 1; 4; 6; 2];
     get := fun idx => inject_Z (ravel [1; 1; 4; 6; 2] idx) |}.

(** A manager in which the logger [Callbacks] holds a file log and the
    stream handler of an earlier [get_logger], and one in which it holds
    two stream handlers. *)
Definition manager_one_stream : logging.Manager :=
  {[ "Callbacks" := {| logging.handlers :=
                         [logging.OtherHandler "file";
                          logging.StreamHandler (Some ("%(message)s", date_format))];
                       logging.level := logging.INFO |} ]}.

Definition manager_two_streams : logging.Manager :=
  {[ "Callbacks" := {| logging.handlers :=
                         [logging.StreamHandler None; logging.StreamHandler None];
                       logging.level := logging.INFO |} ]}.

(** A contour: silence, two frames at 440 Hz, one at 220 Hz, silence. *)
Definition contour : list Q := [0; 0; 440; 440; 220; 0]%Q.

End Examples.

(** ** Tactics *)

(** Invert the bounds of an index against a shape of known rank. *)
Ltac inv_bounds H :=
  repeat match type of H with
    | in_bounds (_ :: _) _ =>
        let i := fresh "i" in let Hi := fresh "Hi" in
        apply Forall2_cons_inv_l in H as (i & ? & Hi & H & ->)
    | Forall2 _ (_ :: _) _ =>
        let i := fresh "i" in let Hi := fresh "Hi" in
        apply Forall2_cons_inv_l in H as (i & ? & Hi & H & ->)
    | in_bounds [] _ => apply Forall2_nil_inv_l in H as ->
    | Forall2 _ [] _ => apply Forall2_nil_inv_l in H as ->
    end.

(** Turn the boolean range checks of a goal or hypothesis into
    propositions. *)
Ltac bool_to_prop :=
  rewrite ?andb_true_iff, ?orb_true_iff, ?Z.leb_le, ?Z.ltb_lt, ?Z.eqb_eq.
Ltac bool_to_prop_in H :=
  rewrite ?andb_true_iff, ?orb_true_iff, ?Z.leb_le, ?Z.ltb_lt, ?Z.eqb_eq in H.



(** Split the bounds of an index given as an explicit list. *)
Ltac dest_bounds H :=
  unfold in_bounds in H;
  repeat (let Hi := fresh "Hi" in apply Forall2_cons_1 in H as [Hi H]).

(** Equality of two shapes of the same rank, dimension by dimension. *)
Ltac shape_eq := repeat (apply (f_equal2 cons); [lia|]); reflexivity.

(** * Sanity checks of the embedding *)

Example metric_name_val_acc : Callback.metric_name "val_acc" = "accuracy".
Proof. reflexivity. Qed.

Example metric_name_loss : Callback.metric_name "val_loss" = "loss".
Proof. reflexivity. Qed.

Example stream_val : Callback.stream "val_acc" = "validate".
Proof. reflexivity. Qed.

Example stream_train : Callback.stream "loss" = "train".
Proof. reflexivity. Qed.

Example monitor_op_acc :
  Callback.monitor_op (Callback.__init__ (Some "val_acc")) = Some np.np_greater.
Proof. reflexivity. Qed.

Example monitor_op_loss :
  Callback.monitor_op (Callback.__init__ (Some "val_loss")) = Some np.np_less.
Proof. reflexivity. Qed.

Example str_split_example : str_split "_" "val_f1_score" = ["val"; "f1"; "score"].
Proof. reflexivity. Qed.

Example path_join_example : path_join "ckpt" "weights.h5" = "ckpt/weights.h5".
Proof. reflexivity. Qed.

Example less_nan : np.less NaN np.Inf = false.
Proof. reflexivity. Qed.

Example f32_round_exact : f32_round 16777216 = 16777216.
Proof. reflexivity. Qed.

Example f32_round_tie_even : f32_round 16777217 = 16777216.
Proof. reflexivity. Qed.

Example f32_round_up : f32_round 16777219 = 16777220.
Proof. reflexivity. Qed.

Example py_mod_negative : py_mod (- 5) 3 = Ok 1.
Proof. reflexivity. Qed.

Example unravel_example : unravel [2; 3; 4] 17 = [1; 1; 1].
Proof. reflexivity. Qed.

Example ravel_example : ravel [2; 3; 4] [1; 1; 1] = 17.
Proof. reflexivity. Qed.

(** The blocks of 2 x 3 of a grid of 4 x 6. *)
Example gather_indices_4x6 :
  rows Examples.indices_4x6 =
    [[0; 1; 2; 6; 7; 8]; [3; 4; 5; 9; 10; 11];
     [12; 13; 14; 18; 19; 20]; [15; 16; 17; 21; 22; 23]].
Proof. vm_compute. reflexivity. Qed.

(** Memory blocks of 4 x 4 at stride 2 over the 6 x 6 key grid: four of
    them, overlapping. *)
Example gather_indices_memory_blocks :
  match t2t.gather_indices_2d Examples.key_6x6 (4, 4) (2, 2) with
  | Ok t => shape t = [4; 16] ∧ get t [1; 0] = 2 ∧ get t [3; 15] = 35
  | Raise _ => False
  end.
Proof. vm_compute. auto. Qed.

(** * Properties of the callbacks *)

Section CallbackFacts.

Lemma Qltb_lt (a b : Q) : Qltb a b = true ↔ (a < b)%Q.
Proof.
  unfold Qltb. rewrite negb_true_iff. split.
  - intros Hb. apply Qnot_le_lt. intros Hle.
    apply Qle_bool_iff in Hle. congruence.
  - intros Hlt. destruct (Qle_bool b a) eqn:E; [|done].
    apply Qle_bool_iff in E. lra.
Qed.

Lemma less_asym (a b : scalar) : np.less a b = true → np.less b a = false.
Proof.
  destruct a, b; simpl; try done.
  rewrite Qltb_lt. intros Hlt.
  destruct (Qltb q0 q) eqn:E; [|done].
  apply Qltb_lt in E. lra.
Qed.

Lemma less_trans (a b c : scalar) :
  np.less a b = true → np.less b c = true → np.less a c = true.
Proof.
  destruct a, b, c; simpl; try done.
  rewrite !Qltb_lt. lra.
Qed.

Lemma call_asym (op : np.ufunc) (a b : scalar) :
  np.call op a b = true → np.call op b a = false.
Proof. destruct op; simpl; unfold np.greater; apply less_asym. Qed.

Lemma call_trans (op : np.ufunc) (a b c : scalar) :
  np.call op a b = true → np.call op b c = true → np.call op a c = true.
Proof.
  destruct op; simpl; unfold np.greater; eauto using less_trans.
Qed.

(** Every score of a worsening chain is strictly worse than its start. *)
Lemma worsening_all (op : np.ufunc) (ss : list scalar) (s0 : scalar) :
  worsening op s0 ss → Forall (fun s => np.call op s s0 = false) ss.
Proof.
  revert s0. induction ss as [|s ss IH]; intros s0; simpl; [constructor|].
  intros [Hs Hss]. constructor; [by apply call_asym|].
  specialize (IH s Hss). eapply Forall_impl; [exact IH|].
  simpl. intros x Hx.
  destruct (np.call op x s0) eqn:E; [|done].
  rewrite (call_trans op x s0 s E Hs) in Hx. done.
Qed.

(** What [_get_monitor_value] does, case by case. *)
Lemma get_monitor_value_present (self : Callback.t) (m : string) (h : History)
    (name : string) (s : scalar) (w : World) :
  Callback.monitor self = Some m →
  latest_metric m h = Some s →
  Callback._get_monitor_value self h name w = Ok (Some s, w).
Proof.
  intros Hm Hs. unfold latest_metric, latest_record in Hs.
  unfold Callback._get_monitor_value, bindM, lift, getitem. rewrite Hm. simpl.
  destruct (history_or_default h !! Callback.stream m) as [hist|]; [|done].
  simpl in *. destruct (last hist) as [cur|]; [|done]. simpl in *.
  by rewrite Hs.
Qed.

Lemma get_monitor_value_missing (self : Callback.t) (m : string) (h : History)
    (name : string) (r : record) (w : World) :
  Callback.monitor self = Some m →
  latest_record m h = Some r →
  r !! Callback.metric_name m = None →
  Callback._get_monitor_value self h name w =
    Ok (None, add_warning {| warn_callback := name; warn_monitor := m;
                             warn_available := dom r |} w).
Proof.
  intros Hm Hr Hs. unfold latest_record in Hr.
  unfold Callback._get_monitor_value, bindM, lift, getitem. rewrite Hm. simpl.
  destruct (history_or_default h !! Callback.stream m) as [hist|]; [|done].
  simpl in *. rewrite Hr. simpl. by rewrite Hs.
Qed.

Lemma get_monitor_value_unbound (self : Callback.t) (m : string) (h : History)
    (name : string) (w : World) :
  Callback.monitor self = Some m →
  history_or_default h !! Callback.stream m = Some [] →
  Callback._get_monitor_value self h name w = Raise (UnboundLocalError "current").
Proof.
  intros Hm Hh.
  unfold Callback._get_monitor_value, bindM, lift, getitem. rewrite Hm. simpl.
  by rewrite Hh.
Qed.

(** One epoch of early stopping when the metric is there. *)
Lemma early_stopping_step (es : EarlyStopping.t) (m : string) (op : np.ufunc)
    (b s : scalar) (w0 e : Z) (h : History) (wd : World) :
  Callback.has_model (EarlyStopping.base es) = true →
  Callback.monitor (EarlyStopping.base es) = Some m →
  Callback.monitor_op (EarlyStopping.base es) = Some op →
  EarlyStopping.best es = Some b →
  EarlyStopping.wait es = Some w0 →
  latest_metric m h = Some s →
  let w1 := if np.call op s b then 0 else w0 + 1 in
  let b1 := if np.call op s b then s else b in
  EarlyStopping.on_epoch_end es e h wd =
    if EarlyStopping.patience es <=? w1 then
      Ok ({| EarlyStopping.base := EarlyStopping.base es;
             EarlyStopping.patience := EarlyStopping.patience es;
             EarlyStopping.stopped_epoch := e;
             EarlyStopping.wait := Some w1;
             EarlyStopping.best := Some b1 |}, assign_stop_training true wd)
    else
      Ok ({| EarlyStopping.base := EarlyStopping.base es;
             EarlyStopping.patience := EarlyStopping.patience es;
             EarlyStopping.stopped_epoch := EarlyStopping.stopped_epoch es;
             EarlyStopping.wait := Some w1;
             EarlyStopping.best := Some b1 |}, wd).
Proof.
  intros Hmodel Hm Hop Hb Hw Hs. simpl.
  unfold EarlyStopping.on_epoch_end. rewrite Hmodel. simpl.
  unfold bindM at 1.
  rewrite (get_monitor_value_present _ m h _ s wd Hm Hs).
  unfold bindM, lift, pure, set_stop_training. rewrite Hop, Hb. simpl.
  destruct (np.call op s b); simpl.
  - by destruct (EarlyStopping.patience es <=? 0).
  - rewrite Hw. simpl. by destruct (EarlyStopping.patience es <=? w0 + 1).
Qed.

End CallbackFacts.

Section EarlyStoppingRuns.

Variables (m : string) (op : np.ufunc).

Lemma on_train_begin_trained (es es0 : EarlyStopping.t) :
  EarlyStopping.on_train_begin es = Ok es0 →
  trained es0 ∧ EarlyStopping.base es0 = EarlyStopping.base es ∧
  EarlyStopping.patience es0 = EarlyStopping.patience es.
Proof.
  unfold EarlyStopping.on_train_begin.
  destruct (Callback.monitor_op (EarlyStopping.base es)) as [o|]; simpl; [|done].
  intros [= <-]. simpl. split; [|done]. eexists _, _. split_and!; [done|lia|done].
Qed.

Lemma on_epoch_end_trained (es es' : EarlyStopping.t) (e : Z) (h : History)
    (wd wd' : World) :
  EarlyStopping.on_epoch_end es e h wd = Ok (es', wd') →
  trained es →
  trained es' ∧ EarlyStopping.base es' = EarlyStopping.base es ∧
  EarlyStopping.patience es' = EarlyStopping.patience es.
Proof.
  intros Hrun (w & b & Hw & Hw0 & Hb).
  unfold EarlyStopping.on_epoch_end in Hrun.
  destruct (Callback.has_model (EarlyStopping.base es)); simpl in Hrun; [|done].
  unfold bindM at 1 in Hrun.
  destruct (Callback._get_monitor_value _ _ _ _) as [[[s|] wd1]|]; [| |done].
  - unfold bindM, lift, pure, set_stop_training in Hrun.
    destruct (Callback.monitor_op (EarlyStopping.base es)); simpl in Hrun; [|done].
    rewrite Hb in Hrun. simpl in Hrun.
    destruct (np.call u s b); simpl in Hrun.
    + destruct (EarlyStopping.patience es <=? 0); injection Hrun as <- <-;
        simpl; (split; [eexists _, _; split_and!; [done|lia|done]|done]).
    + rewrite Hw in Hrun. simpl in Hrun.
      destruct (EarlyStopping.patience es <=? w + 1); injection Hrun as <- <-;
        simpl; (split; [eexists _, _; split_and!; [done|lia|done]|done]).
  - injection Hrun as <- <-. split; [|done]. by exists w, b.
Qed.

Lemma run_epochs_trained (hs : list History) (es es' : EarlyStopping.t) (e : Z)
    (wd wd' : World) :
  run_epochs es e hs wd = Ok (es', wd') →
  trained es →
  trained es' ∧ EarlyStopping.base es' = EarlyStopping.base es ∧
  EarlyStopping.patience es' = EarlyStopping.patience es.
Proof.
  revert es e wd. induction hs as [|h hs IH]; intros es e wd; simpl.
  - intros [= <- <-]. done.
  - unfold bindM at 1.
    destruct (EarlyStopping.on_epoch_end es e h wd) as [[es1 wd1]|] eqn:E; [|done].
    intros Hrun Htr.
    destruct (on_epoch_end_trained _ _ _ _ _ _ E Htr) as (Htr1 & Hb1 & Hp1).
    destruct (IH _ _ _ Hrun Htr1) as (Htr' & Hb' & Hp').
    split; [done|]. split; congruence.
Qed.

(** Epochs without improvement that stay below the patience change
    nothing but the counter. *)
Lemma run_epochs_quiet (hs : list History) (ss : list scalar)
    (es : EarlyStopping.t) (b : scalar) (w0 e : Z) (wd : World) :
  Callback.has_model (EarlyStopping.base es) = true →
  Callback.monitor (EarlyStopping.base es) = Some m →
  Callback.monitor_op (EarlyStopping.base es) = Some op →
  EarlyStopping.best es = Some b →
  EarlyStopping.wait es = Some w0 →
  Forall2 (fun h s => latest_metric m h = Some s) hs ss →
  Forall (fun s => np.call op s b = false) ss →
  w0 + Z.of_nat (length hs) < EarlyStopping.patience es →
  run_epochs es e hs wd =
    Ok ({| EarlyStopping.base := EarlyStopping.base es;
           EarlyStopping.patience := EarlyStopping.patience es;
           EarlyStopping.stopped_epoch := EarlyStopping.stopped_epoch es;
           EarlyStopping.wait := Some (w0 + Z.of_nat (length hs));
           EarlyStopping.best := Some b |}, wd).
Proof.
  intros Hmod Hm Hop Hb Hw HF. revert es w0 e Hmod Hm Hop Hb Hw.
  induction HF as [|h s hs ss Hs HF IH]; intros es w0 e Hmod Hm Hop Hb Hw Hworse Hlt.
  - simpl. unfold pure. destruct es; simpl in *. subst.
    by rewrite Z.add_0_r.
  - apply Forall_cons_1 in Hworse as [Hs0 Hworse].
    simpl length in *. simpl run_epochs. unfold bindM.
    rewrite (early_stopping_step es m op b s w0 e h wd Hmod Hm Hop Hb Hw Hs).
    rewrite Hs0.
    destruct (EarlyStopping.patience es <=? w0 + 1) eqn:E; [lia|].
    rewrite (IH _ (w0 + 1)); simpl; try done; [|lia].
    do 4 f_equal. lia.
Qed.

(** Epochs without improvement that reach the patience leave the stop
    signal set, the last of them being the recorded stopping epoch. *)
Lemma run_epochs_fire (hs : list History) (ss : list scalar)
    (es : EarlyStopping.t) (b : scalar) (w0 e : Z) (wd : World) :
  Callback.has_model (EarlyStopping.base es) = true →
  Callback.monitor (EarlyStopping.base es) = Some m →
  Callback.monitor_op (EarlyStopping.base es) = Some op →
  EarlyStopping.best es = Some b →
  EarlyStopping.wait es = Some w0 →
  Forall2 (fun h s => latest_metric m h = Some s) hs ss →
  Forall (fun s => np.call op s b = false) ss →
  hs ≠ [] →
  EarlyStopping.patience es ≤ w0 + Z.of_nat (length hs) →
  run_epochs es e hs wd =
    Ok ({| EarlyStopping.base := EarlyStopping.base es;
           EarlyStopping.patience := EarlyStopping.patience es;
           EarlyStopping.stopped_epoch := e + Z.of_nat (length hs) - 1;
           EarlyStopping.wait := Some (w0 + Z.of_nat (length hs));
           EarlyStopping.best := Some b |}, assign_stop_training true wd).
Proof.
  intros Hmod Hm Hop Hb Hw HF. revert es w0 e wd Hmod Hm Hop Hb Hw.
  induction HF as [|h s hs ss Hs HF IH];
    intros es w0 e wd Hmod Hm Hop Hb Hw Hworse Hne Hge; [done|].
  apply Forall_cons_1 in Hworse as [Hs0 Hworse].
  simpl run_epochs. unfold bindM.
  rewrite (early_stopping_step es m op b s w0 e h wd Hmod Hm Hop Hb Hw Hs).
  rewrite Hs0.
  destruct hs as [|h' hs].
  - simpl in *. destruct (EarlyStopping.patience es <=? w0 + 1) eqn:E; [|lia].
    unfold pure. do 3 f_equal. lia.
  - set (n := length (h' :: hs)) in *.
    assert (Hn : length (h :: h' :: hs) = S n) by done. rewrite Hn in *.
    destruct (EarlyStopping.patience es <=? w0 + 1) eqn:E.
    + rewrite (IH _ (w0 + 1)); simpl; try done; [|lia].
      do 2 (f_equal; try done). f_equal; [lia|f_equal; lia].
    + rewrite (IH _ (w0 + 1)); simpl; try done; [|lia].
      do 2 (f_equal; try done). f_equal; [lia|f_equal; lia].
Qed.

End EarlyStoppingRuns.

(** ** Early stopping *)

(** C1, as amended: take an attached EarlyStopping callback with patience
    [p >= 0] after [on_train_begin], the stop signal not yet set, and a
    history in which the monitored metric improves over [best] at epoch [e]
    and then strictly worsens for [p + 1] consecutive epochs.  After the
    epoch [e + k], for every [k <= p + 1], [model.stop_training] is set
    exactly when [p <= k], and then [stopped_epoch] is [e + k]: the stop
    signal is first set at epoch [e + p], not at any epoch before it, and
    is set again at [e + p + 1]. *)
Theorem early_stopping_fires_at_patience
    (es : EarlyStopping.t) (m : string) (op : np.ufunc) (b s0 : scalar)
    (w0 e : Z) (ss : list scalar) (hs : list History) (wd : World) (k : nat) :
  Callback.has_model (EarlyStopping.base es) = true →
  Callback.monitor (EarlyStopping.base es) = Some m →
  Callback.monitor_op (EarlyStopping.base es) = Some op →
  EarlyStopping.best es = Some b →
  EarlyStopping.wait es = Some w0 →
  0 ≤ EarlyStopping.patience es →
  stop_training (model wd) = false →
  Forall2 (fun h s => latest_metric m h = Some s) hs (s0 :: ss) →
  np.call op s0 b = true →
  worsening op s0 ss →
  Z.of_nat (length ss) = EarlyStopping.patience es + 1 →
  Z.of_nat k ≤ EarlyStopping.patience es + 1 →
  ∃ es' wd',
    run_epochs es e (take (S k) hs) wd = Ok (es', wd') ∧
    stop_training (model wd') = bool_decide (EarlyStopping.patience es ≤ Z.of_nat k) ∧
    EarlyStopping.stopped_epoch es' =
      (if bool_decide (EarlyStopping.patience es ≤ Z.of_nat k)
       then e + Z.of_nat k else EarlyStopping.stopped_epoch es).
Proof.
  intros Hmod Hm Hop Hb Hw Hp Hstop HF Himp Hworse Hlen Hk.
  destruct hs as [|h0 hs]; [by apply Forall2_nil_cons_inv in HF|].
  apply Forall2_cons_1 in HF as [Hs0 HF].
  pose proof (worsening_all op ss s0 Hworse) as Hall.
  assert (Hlk : length (take k hs) = k).
  { rewrite length_take. apply Forall2_length in HF. lia. }
  assert (HFk : Forall2 (fun h s => latest_metric m h = Some s) (take k hs) (take k ss))
    by by apply Forall2_take.
  assert (Hallk : Forall (fun s => np.call op s s0 = false) (take k ss))
    by by apply Forall_take.
  simpl take. simpl run_epochs. unfold bindM.
  rewrite (early_stopping_step es m op b s0 w0 e h0 wd Hmod Hm Hop Hb Hw Hs0).
  rewrite Himp.
  destruct (EarlyStopping.patience es <=? 0) eqn:E0.
  - (* patience zero: the improving epoch itself sets the signal *)
    assert (Hp0 : EarlyStopping.patience es = 0) by lia.
    rewrite !bool_decide_eq_true_2 by lia.
    destruct k as [|k].
    + simpl. unfold pure. eexists _, _. split_and!; [done|done|simpl; lia].
    + erewrite (run_epochs_fire m op (take (S k) hs) (take (S k) ss) _ s0 0);
        simpl; try done.
      * eexists _, _. split_and!; [done|done|]. simpl. rewrite Hlk. lia.
      * intros Hnil. rewrite Hnil in Hlk. done.
      * lia.
  - destruct (decide (EarlyStopping.patience es ≤ Z.of_nat k)) as [Hge|Hlt].
    + rewrite !bool_decide_eq_true_2 by done.
      erewrite (run_epochs_fire m op (take k hs) (take k ss) _ s0 0);
        simpl; try done.
      * eexists _, _. split_and!; [done|done|]. simpl. rewrite Hlk. lia.
      * intros Hnil. rewrite Hnil in Hlk. simpl in Hlk. lia.
      * rewrite Hlk. lia.
    + rewrite !bool_decide_eq_false_2 by done.
      erewrite (run_epochs_quiet m op (take k hs) (take k ss) _ s0 0);
        simpl; try done.
      * eexists _, _. split_and!; done.
      * rewrite Hlk. lia.
Qed.

Lemma early_stopping_fires_at_patience_witness :
  ∃ es' wd',
    run_epochs Examples.es_patience1 0
      (take 2 [Examples.val_losses [1%Q]; Examples.val_losses [1%Q; 2%Q];
               Examples.val_losses [1%Q; 2%Q; 3%Q]]) Examples.world0 = Ok (es', wd') ∧
    stop_training (model wd') =
      bool_decide (EarlyStopping.patience Examples.es_patience1 ≤ Z.of_nat 1) ∧
    EarlyStopping.stopped_epoch es' =
      (if bool_decide (EarlyStopping.patience Examples.es_patience1 ≤ Z.of_nat 1)
       then 0 + Z.of_nat 1 else EarlyStopping.stopped_epoch Examples.es_patience1).
Proof.
  apply (early_stopping_fires_at_patience Examples.es_patience1 "val_loss"
           np.np_less np.Inf (Fin 1) 0 0 [Fin 2; Fin 3]).
  - reflexivity.
  - reflexivity.
  - reflexivity.
  - reflexivity.
  - reflexivity.
  - vm_compute. discriminate.
  - reflexivity.
  - repeat constructor.
  - reflexivity.
  - simpl. repeat split.
  - reflexivity.
  - vm_compute. discriminate.
Defined.

(** C1 as stated fails: with patience 1, an improvement at epoch 0 and
    worse scores at epochs 1 and 2, the stop signal is already set at epoch
    1, before the epoch 0 + 1 + 1 the claim names. *)
Lemma early_stopping_not_at_patience_plus_one :
  ¬ (∀ k : nat, (k < 2)%nat →
       ∃ es' wd',
         run_epochs Examples.es_patience1 0
           (take (S k) [Examples.val_losses [1%Q]; Examples.val_losses [1%Q; 2%Q];
                        Examples.val_losses [1%Q; 2%Q; 3%Q]]) Examples.world0
           = Ok (es', wd') ∧
         stop_training (model wd') = false).
Proof.
  intros Hclaim. destruct (Hclaim 1%nat) as (es' & wd' & Hrun & Hstop); [lia|].
  vm_compute in Hrun. injection Hrun as <- <-. discriminate Hstop.
Qed.

(** C10: with patience zero, after [on_train_begin] and any number of
    epochs, every [on_epoch_end] call that finds the monitored metric in
    the latest record sets [model.stop_training] and records the epoch in
    [stopped_epoch], whatever the score, improving or not. *)
Theorem patience_zero_stops_every_epoch
    (es es0 es1 : EarlyStopping.t) (m : string) (hs : list History) (e0 e : Z)
    (wd0 wd1 : World) (h : History) (s : scalar) :
  EarlyStopping.patience es = 0 →
  Callback.has_model (EarlyStopping.base es) = true →
  Callback.monitor (EarlyStopping.base es) = Some m →
  EarlyStopping.on_train_begin es = Ok es0 →
  run_epochs es0 e0 hs wd0 = Ok (es1, wd1) →
  latest_metric m h = Some s →
  ∃ es2 wd2,
    EarlyStopping.on_epoch_end es1 e h wd1 = Ok (es2, wd2) ∧
    stop_training (model wd2) = true ∧
    EarlyStopping.stopped_epoch es2 = e.
Proof.
  intros Hp Hmod Hm Hbegin Hrun Hs.
  destruct (on_train_begin_trained _ _ Hbegin) as (Htr0 & Hb0 & Hp0).
  destruct (run_epochs_trained _ _ _ _ _ _ Hrun Htr0) as (Htr1 & Hb1 & Hp1).
  destruct Htr1 as (w & b & Hw & Hw0 & Hb).
  assert (Hop : ∃ op, Callback.monitor_op (EarlyStopping.base es1) = Some op).
  { unfold EarlyStopping.on_train_begin in Hbegin. rewrite Hb1, Hb0.
    destruct (Callback.monitor_op (EarlyStopping.base es)); [eauto|done]. }
  destruct Hop as [op Hop].
  rewrite (early_stopping_step es1 m op b s w e h wd1); try done; try congruence.
  assert (Hp2 : EarlyStopping.patience es1 = 0) by congruence. rewrite Hp2.
  destruct (np.call op s b).
  - simpl. eexists _, _. done.
  - destruct (0 <=? w + 1) eqn:E; [|lia]. eexists _, _. done.
Qed.

Lemma patience_zero_stops_every_epoch_witness :
  ∃ es2 wd2,
    EarlyStopping.on_epoch_end Examples.es_patience0_epoch0 1
      (Examples.val_losses [3%Q; 1%Q]) (assign_stop_training true Examples.world0)
      = Ok (es2, wd2) ∧
    stop_training (model wd2) = true ∧
    EarlyStopping.stopped_epoch es2 = 1.
Proof.
  apply (patience_zero_stops_every_epoch Examples.es_patience0
           Examples.es_patience0_begun Examples.es_patience0_epoch0 "val_loss"
           [Examples.val_losses [3%Q]] 0 1 Examples.world0
           (assign_stop_training true Examples.world0)
           (Examples.val_losses [3%Q; 1%Q]) (Fin 1)).
  - reflexivity.
  - reflexivity.
  - reflexivity.
  - reflexivity.
  - vm_compute. reflexivity.
  - vm_compute. reflexivity.
Defined.

(** ** Paths and the file system *)

Lemma append_cons (c : ascii) (s t : string) : String c s +:+ t = String c (s +:+ t).
Proof. done. Qed.


Lemma append_empty_r (s : string) : s +:+ "" = s.
Proof. induction s as [|c s IH]; [done|]. by rewrite append_cons, IH. Qed.

















(** ** The monitored metric *)

(** C3: for a callback constructed with a monitor, [_get_monitor_value]
    on a history whose selected stream is empty (in particular on no
    history at all) raises the unbound-variable error for [current]; it
    neither returns [None] nor warns.  When it does return [None], the
    selected stream has a latest record, which lacks the metric, and the
    warning was logged. *)
Theorem get_monitor_value_empty_stream
    (self : Callback.t) (m : string) (h : History) (name : string) (wd : World) :
  Callback.monitor self = Some m →
  (history_or_default h !! Callback.stream m = Some [] →
   Callback._get_monitor_value self h name wd = Raise (UnboundLocalError "current")) ∧
  Callback._get_monitor_value self None name wd = Raise (UnboundLocalError "current") ∧
  (∀ wd', Callback._get_monitor_value self h name wd = Ok (None, wd') →
     ∃ hist r, history_or_default h !! Callback.stream m = Some hist ∧
               hist ≠ [] ∧ last hist = Some r ∧
               r !! Callback.metric_name m = None ∧
               wd' = add_warning {| warn_callback := name; warn_monitor := m;
                                    warn_available := dom r |} wd).
Proof.
  intros Hm. split_and!.
  - by apply get_monitor_value_unbound.
  - apply (get_monitor_value_unbound self m); [done|].
    unfold Callback.stream. by destruct (startswith m "val").
  - intros wd'.
    unfold Callback._get_monitor_value, bindM, lift, getitem. rewrite Hm. simpl.
    destruct (history_or_default h !! Callback.stream m) as [hist|]; [|done].
    simpl. destruct (last hist) as [r|] eqn:Hlast; [|done]. simpl.
    destruct (r !! Callback.metric_name m) eqn:Hr; simpl.
    + unfold pure. intros [=].
    + unfold logger_warning, pure. intros [= <-].
      exists hist, r. split_and!; try done. by intros ->.
Qed.

Lemma get_monitor_value_empty_stream_witness :
  (history_or_default (Examples.val_losses []) !! Callback.stream "val_loss" = Some [] →
   Callback._get_monitor_value (Callback.__init__ (Some "val_loss"))
     (Examples.val_losses []) "Early stopping" Examples.world0
     = Raise (UnboundLocalError "current")) ∧
  Callback._get_monitor_value (Callback.__init__ (Some "val_loss")) None
    "Early stopping" Examples.world0 = Raise (UnboundLocalError "current") ∧
  (∀ wd', Callback._get_monitor_value (Callback.__init__ (Some "val_loss"))
            (Examples.val_losses []) "Early stopping" Examples.world0 = Ok (None, wd') →
     ∃ hist r, history_or_default (Examples.val_losses []) !! Callback.stream "val_loss"
                 = Some hist ∧
               hist ≠ [] ∧ last hist = Some r ∧
               r !! Callback.metric_name "val_loss" = None ∧
               wd' = add_warning {| warn_callback := "Early stopping";
                                    warn_monitor := "val_loss";
                                    warn_available := dom r |} Examples.world0).
Proof.
  apply (get_monitor_value_empty_stream (Callback.__init__ (Some "val_loss"))
           "val_loss" (Examples.val_losses []) "Early stopping" Examples.world0).
  reflexivity.
Defined.

(** C2, as amended: when the latest record of the selected stream lacks
    the monitored metric, [on_epoch_end] of an EarlyStopping callback
    attached to a model, and of a ModelCheckpoint with [save_best_only]
    set, logs one warning and returns with the callback unchanged; the
    model, the files, the directories and the I/O trace are as before.  (A
    ModelCheckpoint without [save_best_only] never reads the metric.) *)
Theorem missing_metric_is_skipped
    (m : string) (h : History) (r : record) (e : Z) (wd : World) :
  latest_record m h = Some r →
  r !! Callback.metric_name m = None →
  (∀ es : EarlyStopping.t,
     Callback.has_model (EarlyStopping.base es) = true →
     Callback.monitor (EarlyStopping.base es) = Some m →
     EarlyStopping.on_epoch_end es e h wd =
       Ok (es, add_warning {| warn_callback := "Early stopping"; warn_monitor := m;
                              warn_available := dom r |} wd)) ∧
  (∀ mc : ModelCheckpoint.t,
     ModelCheckpoint.save_best_only mc = true →
     Callback.monitor (ModelCheckpoint.base mc) = Some m →
     ModelCheckpoint.on_epoch_end mc e h wd =
       Ok (mc, add_warning {| warn_callback := "Model checkpoint"; warn_monitor := m;
                              warn_available := dom r |} wd)) ∧
  (∀ wn, model (add_warning wn wd) = model wd ∧
         files (add_warning wn wd) = files wd ∧
         dirs (add_warning wn wd) = dirs wd ∧
         io (add_warning wn wd) = io wd ∧
         log (add_warning wn wd) = wn :: log wd).
Proof.
  intros Hr Hmiss. split_and!.
  - intros es Hmod Hm. unfold EarlyStopping.on_epoch_end. rewrite Hmod. simpl.
    unfold bindM.
    by rewrite (get_monitor_value_missing _ m h _ r wd Hm Hr Hmiss).
  - intros mc Hbest Hm. unfold ModelCheckpoint.on_epoch_end. rewrite Hbest.
    unfold bindM.
    by rewrite (get_monitor_value_missing _ m h _ r wd Hm Hr Hmiss).
  - done.
Qed.

Lemma missing_metric_is_skipped_witness :
  EarlyStopping.on_epoch_end Examples.es_patience1 0 (Examples.val_accuracy 1)
    Examples.world0 =
    Ok (Examples.es_patience1,
        add_warning {| warn_callback := "Early stopping"; warn_monitor := "val_loss";
                       warn_available := dom ({[ "accuracy" := Fin 1 ]} : record) |}
          Examples.world0).
Proof.
  refine (proj1 (missing_metric_is_skipped "val_loss" (Examples.val_accuracy 1)
                   {[ "accuracy" := Fin 1 ]} 0 Examples.world0 _ _)
            Examples.es_patience1 _ _).
  - vm_compute. reflexivity.
  - vm_compute. reflexivity.
  - reflexivity.
  - reflexivity.
Defined.

(** C2 as stated fails for a ModelCheckpoint that saves at every epoch:
    the latest validate record has no accuracy, yet [on_epoch_end] logs
    nothing and writes the architecture and the weights. *)
Lemma checkpoint_always_saves_without_metric :
  latest_metric "val_acc" (Examples.val_losses [1%Q]) = None ∧
  ∃ mc' wd',
    ModelCheckpoint.on_epoch_end Examples.mc_always 0 (Examples.val_losses [1%Q])
      Examples.world0 = Ok (mc', wd') ∧
    log wd' = [] ∧
    io wd' = [WriteFile "ckpt/weights.h5" "w0"; WriteFile "ckpt/arch.yaml" "arch";
              MakeDirs "ckpt"] ∧
    files wd' !! "ckpt/weights.h5" = Some "w0" ∧
    files Examples.world0 !! "ckpt/weights.h5" = None.
Proof.
  split; [vm_compute; reflexivity|].
  eexists _, _. split; [vm_compute; reflexivity|].
  split_and!; vm_compute; reflexivity.
Qed.

(** ** Checkpoint gating *)







(** * Properties of the block indexing engine *)

(** ** Offsets and indices *)

Lemma divmod_pos (q r b : Z) : 0 ≤ r < b → (q * b + r) / b = q ∧ (q * b + r) mod b = r.
Proof.
  intros Hr. split.
  - rewrite Z.div_add_l by lia. rewrite Z.div_small by lia. lia.
  - rewrite Z.add_comm, Z_mod_plus_full. by apply Z.mod_small.
Qed.

Lemma divmod_range (r a b : Z) :
  0 < b → 0 ≤ r < a * b →
  0 ≤ r / b < a ∧ 0 ≤ r mod b < b ∧ r = (r / b) * b + r mod b.
Proof.
  intros Hb Hr.
  pose proof (Z.mod_pos_bound r b Hb). pose proof (Z.div_mod r b ltac:(lia)).
  split_and!; try lia.
  - apply Z.div_pos; lia.
  - apply Z.div_lt_upper_bound; lia.
Qed.

(** Two digits determine their number. *)
Lemma radix_inj (b q1 r1 q2 r2 : Z) :
  0 ≤ r1 < b → 0 ≤ r2 < b → q1 * b + r1 = q2 * b + r2 → q1 = q2 ∧ r1 = r2.
Proof.
  intros H1 H2 Heq.
  destruct (divmod_pos q1 r1 b H1) as [Hq1 Hr1].
  destruct (divmod_pos q2 r2 b H2) as [Hq2 Hr2].
  rewrite Heq in Hq1, Hr1. split; congruence.
Qed.

Lemma size_cons (d : Z) (ds : list Z) : size (d :: ds) = d * size ds.
Proof. done. Qed.

Lemma size_app (l k : list Z) : size (l ++ k) = size l * size k.
Proof.
  induction l as [|d l IH].
  - change (size []) with 1. simpl. lia.
  - rewrite <- app_comm_cons, !size_cons, IH. lia.
Qed.

Lemma in_bounds_length (sh idx : list Z) : in_bounds sh idx → length idx = length sh.
Proof. intros Hb. symmetry. by eapply Forall2_length. Qed.

Lemma ravel_bounds (sh idx : list Z) :
  in_bounds sh idx → 0 ≤ ravel sh idx < size sh.
Proof.
  induction 1 as [|d i ds idx Hi _ IH].
  - unfold size. simpl. lia.
  - cbn [ravel]. rewrite size_cons. nia.
Qed.

Lemma unravel_ravel (sh idx : list Z) :
  in_bounds sh idx → unravel sh (ravel sh idx) = idx.
Proof.
  induction 1 as [|d i ds idx Hi Hrest IH]; [done|].
  cbn [ravel unravel].
  destruct (divmod_pos i (ravel ds idx) (size ds) (ravel_bounds _ _ Hrest)) as [-> ->].
  by rewrite IH.
Qed.

(** Reading a reshaped tensor: any index of the old shape with the same
    offset will do. *)
Lemma unravel_same_offset (sh sh' idx idx' : list Z) :
  in_bounds sh idx → ravel sh' idx' = ravel sh idx →
  unravel sh (ravel sh' idx') = idx.
Proof. intros Hb ->. by apply unravel_ravel. Qed.

Lemma elem_of_all_indices (sh idx : list Z) :
  idx ∈ all_indices sh ↔ in_bounds sh idx.
Proof.
  revert idx. induction sh as [|d ds IH]; intros idx; simpl.
  - rewrite list_elem_of_singleton. split.
    + intros ->. constructor.
    + intros Hb. by apply Forall2_nil_inv_l in Hb.
  - rewrite list_elem_of_bind. split.
    + intros (i & Hidx & Hi). apply list_elem_of_fmap in Hidx as (idx' & -> & Hidx').
      apply elem_of_seqZ in Hi. constructor; [lia|]. by apply IH.
    + intros Hb. apply Forall2_cons_inv_l in Hb as (i & idx' & Hi & Hb & ->).
      exists i. split.
      * apply list_elem_of_fmap. exists idx'. split; [done|]. by apply IH.
      * apply elem_of_seqZ. lia.
Qed.

Lemma NoDup_all_indices (sh : list Z) : NoDup (all_indices sh).
Proof.
  induction sh as [|d ds IH]; simpl.
  - apply NoDup_singleton.
  - apply NoDup_bind.
    + intros i1 i2 idx _ _ H1 H2.
      apply list_elem_of_fmap in H1 as (? & -> & _).
      apply list_elem_of_fmap in H2 as (? & [= ->] & _). done.
    + intros i _. apply NoDup_fmap_2; [|done]. by intros ?? [=].
    + apply NoDup_seqZ.
Qed.

Lemma length_all_indices (sh : list Z) :
  Forall (fun d => 0 ≤ d) sh → Z.of_nat (length (all_indices sh)) = size sh.
Proof.
  induction 1 as [|d ds Hd _ IH]; [done|].
  rewrite size_cons. cbn [all_indices].
  assert (Hgen : ∀ (l : list Z),
            Z.of_nat (length (l ≫= fun i => cons i <$> all_indices ds))
            = Z.of_nat (length l) * size ds).
  { induction l as [|a l IHl]; [done|].
    change ((a :: l) ≫= fun i => cons i <$> all_indices ds)
      with ((cons a <$> all_indices ds) ++ (l ≫= fun i => cons i <$> all_indices ds)).
    rewrite length_app, length_fmap, Nat2Z.inj_add, IHl, IH.
    cbn [length]. lia. }
  rewrite Hgen, length_seqZ. lia.
Qed.

(** ** Sums *)

Lemma vsum_singleton {V : Type} `{Dtype V} (v : V) :
  (∀ x : V, add zero x = x) → vsum [v] = v.
Proof. intros Hid. unfold vsum. simpl. apply Hid. Qed.

Lemma filter_none {A : Type} (P : A → Prop) `{∀ x, Decision (P x)} (l : list A) :
  (∀ x, x ∈ l → ¬ P x) → filter P l = [].
Proof.
  induction l as [|x l IH]; intros Hno; [done|].
  rewrite filter_cons_False by (apply Hno; by left).
  apply IH. intros y Hy. apply Hno. by right.
Qed.

Lemma filter_unique {A : Type} (P : A → Prop) `{∀ x, Decision (P x)}
    (l : list A) (a : A) :
  NoDup l → a ∈ l → P a → (∀ x, x ∈ l → P x → x = a) → filter P l = [a].
Proof.
  induction l as [|x l IH]; intros Hnd Hin Pa Huniq.
  - by apply elem_of_nil in Hin.
  - apply NoDup_cons in Hnd as [Hx Hnd].
    destruct (decide (P x)) as [Px|Px].
    + assert (x = a) as -> by (apply Huniq; [by left|done]).
      rewrite filter_cons_True by done. f_equal.
      apply filter_none.
      intros y Hy Py. assert (y = a) by (apply Huniq; [by right|done]). by subst.
    + rewrite filter_cons_False by done.
      apply IH; try done.
      * apply elem_of_cons in Hin as [->|Hin]; done.
      * intros y Hy. apply Huniq. by right.
Qed.

Lemma filter_ext_in {A : Type} (P Q : A → Prop)
    `{∀ x, Decision (P x)} `{∀ x, Decision (Q x)} (l : list A) :
  (∀ x, x ∈ l → P x ↔ Q x) → filter P l = filter Q l.
Proof.
  induction l as [|x l IH]; intros Hext; [done|].
  rewrite !filter_cons.
  rewrite IH by (intros y Hy; apply Hext; by right).
  destruct (decide (P x)) as [HP|HP], (decide (Q x)) as [HQ|HQ]; try done.
  - exfalso. apply HQ, Hext; [by left|done].
  - exfalso. apply HP, Hext; [by left|done].
Qed.

Lemma fmap_ext_in {A B : Type} (f g : A → B) (l : list A) :
  (∀ x, x ∈ l → f x = g x) → f <$> l = g <$> l.
Proof.
  induction l as [|x l IH]; intros Hext; [done|].
  rewrite !fmap_cons. f_equal.
  - apply Hext. by left.
  - apply IH. intros y Hy. apply Hext. by right.
Qed.

(** ** Padding to a multiple of the block shape *)

Lemma round_up_least (h b : Z) :
  0 < b →
  (b | h + (- h) mod b) ∧ h ≤ h + (- h) mod b ∧
  ∀ n, (b | n) → h ≤ n → h + (- h) mod b ≤ n.
Proof.
  intros Hb.
  pose proof (Z.mod_pos_bound (- h) b Hb) as Hm.
  pose proof (Z.div_mod (- h) b ltac:(lia)) as Hd.
  split_and!.
  - exists (- ((- h) / b)). lia.
  - lia.
  - intros n [q ->] Hle.
    assert (Hq : - q ≤ (- h) / b) by (apply Z.div_le_lower_bound; lia).
    nia.
Qed.

(** C8: for a tensor of rank 4 or 5, that is of shape [pre ++ [h; w; c]]
    with one or two leading axes, and a block shape [(bh, bw)] of positive
    sizes, [pad_to_multiple_2d] returns a tensor whose height and width are
    the least multiples of [bh] and [bw] that are at least [h] and [w], the
    other axes being as before; it holds the values of [x] at the indices
    of [x] and zero at every other index. *)
Theorem pad_to_multiple_2d_spec {V : Type} `{Dtype V}
    (x : Tensor V) (pre : list Z) (h w c bh bw : Z) :
  shape x = pre ++ [h; w; c] →
  (length pre = 1 ∨ length pre = 2)%nat →
  0 < bh → 0 < bw →
  ∃ px h' w',
    t2t.pad_to_multiple_2d x (bh, bw) = Ok px ∧
    shape px = pre ++ [h'; w'; c] ∧
    ((bh | h') ∧ h ≤ h' ∧ ∀ n, (bh | n) → h ≤ n → h' ≤ n) ∧
    ((bw | w') ∧ w ≤ w' ∧ ∀ n, (bw | n) → w ≤ n → w' ≤ n) ∧
    (∀ idx, in_bounds (shape x) idx → get px idx = get x idx) ∧
    (∀ idx, in_bounds (shape px) idx → ¬ in_bounds (shape x) idx →
            get px idx = zero).
Proof.
  intros Hsh Hlen Hbh Hbw.
  pose proof (Z.mod_pos_bound (- h) bh Hbh) as Hmh.
  pose proof (Z.mod_pos_bound (- w) bw Hbw) as Hmw.
  assert (Ebh : (bh =? 0) = false) by lia.
  assert (Ebw : (bw =? 0) = false) by lia.
  assert (Eph : (0 <=? (- h) mod bh) = true) by lia.
  assert (Epw : (0 <=? (- w) mod bw) = true) by lia.
  destruct x as [shx getx]. simpl in Hsh. subst shx.
  destruct pre as [|a [|b [|? ?]]]; simpl in Hlen; try lia.
  - (* rank 4 *)
    eexists _, (h + (- h) mod bh), (w + (- w) mod bw).
    unfold t2t.pad_to_multiple_2d, py_mod, tf.pad, t2t.shape_list, index, index_last.
    simpl. rewrite Ebh, Ebw. simpl. rewrite Eph, Epw. simpl.
    split; [reflexivity|]. split; [simpl; repeat f_equal; lia|].
    split; [by apply round_up_least|]. split; [by apply round_up_least|]. split.
    + intros idx Hb. simpl in Hb. inv_bounds Hb. simpl. rewrite !Z.sub_0_r.
      replace ((0 <=? i) && (i <? a) && ((0 <=? i0) && (i0 <? h) &&
               ((0 <=? i1) && (i1 <? w) && ((0 <=? i2) && (i2 <? c) && true))))
        with true; [done|].
      symmetry. bool_to_prop. lia.
    + intros idx Hb Hnb. simpl in Hb, Hnb. inv_bounds Hb. simpl. rewrite !Z.sub_0_r.
      destruct ((0 <=? i) && (i <? a) && ((0 <=? i0) && (i0 <? h) &&
               ((0 <=? i1) && (i1 <? w) && ((0 <=? i2) && (i2 <? c) && true))))
        eqn:E; [|done].
      exfalso. apply Hnb. bool_to_prop_in E.
      repeat constructor; lia.
  - (* rank 5 *)
    eexists _, (h + (- h) mod bh), (w + (- w) mod bw).
    unfold t2t.pad_to_multiple_2d, py_mod, tf.pad, t2t.shape_list, index, index_last.
    simpl. rewrite Ebh, Ebw. simpl. rewrite Eph, Epw. simpl.
    split; [reflexivity|]. split; [simpl; repeat f_equal; lia|].
    split; [by apply round_up_least|]. split; [by apply round_up_least|]. split.
    + intros idx Hb. simpl in Hb. inv_bounds Hb. simpl. rewrite !Z.sub_0_r.
      replace ((0 <=? i) && (i <? a) && ((0 <=? i0) && (i0 <? b) &&
               ((0 <=? i1) && (i1 <? h) && ((0 <=? i2) && (i2 <? w) &&
               ((0 <=? i3) && (i3 <? c) && true)))))
        with true; [done|].
      symmetry. bool_to_prop. lia.
    + intros idx Hb Hnb. simpl in Hb, Hnb. inv_bounds Hb. simpl. rewrite !Z.sub_0_r.
      destruct ((0 <=? i) && (i <? a) && ((0 <=? i0) && (i0 <? b) &&
               ((0 <=? i1) && (i1 <? h) && ((0 <=? i2) && (i2 <? w) &&
               ((0 <=? i3) && (i3 <? c) && true)))))
        eqn:E; [|done].
      exfalso. apply Hnb. bool_to_prop_in E.
      repeat constructor; lia.
Qed.

(** ** Reshaping *)

Lemma forallb_nonneg (sh : list Z) :
  Forall (fun d => 0 ≤ d) sh → forallb (fun d => 0 <=? d) sh = true.
Proof.
  induction 1 as [|d ds Hd _ IH]; [done|].
  simpl. rewrite IH. by apply Z.leb_le in Hd as ->.
Qed.

Lemma infer_shape_known (ish sh : list Z) :
  Forall (fun d => 0 ≤ d) sh → tf.infer_shape ish sh = Ok sh.
Proof.
  intros Hsh. unfold tf.infer_shape.
  rewrite (filter_none (fun d => d = -1) sh); [done|].
  intros d Hd ->. rewrite Forall_forall in Hsh. specialize (Hsh _ Hd). lia.
Qed.

(** A reshape to a fully specified shape of the same size. *)
Lemma reshape_exact {V : Type} (t : Tensor V) (sh : list Z) :
  Forall (fun d => 0 ≤ d) sh → size sh = size (shape t) →
  tf.reshape t sh =
    Ok {| shape := sh;
          get := fun idx => get t (unravel (shape t) (ravel sh idx)) |}.
Proof.
  intros Hsh Hsize. unfold tf.reshape.
  rewrite infer_shape_known by done. simpl.
  rewrite forallb_nonneg by done. by apply Z.eqb_eq in Hsize as ->.
Qed.

(** Where no size asked for is zero, the inferred size is the quotient of
    the number of elements by the sizes given, which must divide it. *)
Lemma infer_shape_nonzero (ish sh : list Z) :
  Forall (fun d => d ≠ 0) sh →
  tf.infer_shape ish sh =
    let known := size (filter (fun d => d ≠ -1) sh) in
    let total := size ish in
    match length (filter (fun d => d = -1) sh) with
    | O => Ok sh
    | S O =>
        if (0 <? known) && (total mod known =? 0)
        then Ok ((fun d => if d =? -1 then total / known else d) <$> sh)
        else Raise (InvalidArgumentError "reshape")
    | _ => Raise (InvalidArgumentError "reshape")
    end.
Proof.
  intros Hsh. unfold tf.infer_shape.
  replace (existsb (Z.eqb 0) sh) with false; [done|].
  symmetry. induction Hsh as [|d ds Hd _ IH]; [done|].
  cbn [existsb]. rewrite IH. by destruct (Z.eqb_spec 0 d).
Qed.

(** The shapes with one inferred dimension that the code asks for. *)
Lemma infer_shape_rows (ish : list Z) (n : Z) :
  0 < n → size ish mod n = 0 → tf.infer_shape ish [n; -1] = Ok [n; size ish / n].
Proof.
  intros Hn Hmod. rewrite infer_shape_nonzero by (repeat constructor; lia).
  cbv zeta.
  rewrite !filter_cons, !filter_nil.
  rewrite (decide_True (P := n ≠ -1)) by lia.
  rewrite (decide_False (P := n = -1)) by lia.
  rewrite (decide_False (P := -1 ≠ -1)) by lia.
  rewrite (decide_True (P := -1 = -1)) by lia.
  simpl. rewrite !Z.mul_1_r.
  assert ((0 <? n) = true) as -> by lia.
  assert ((size ish mod n =? 0) = true) as -> by lia.
  simpl. assert ((n =? -1) = false) as -> by lia. done.
Qed.

Lemma infer_shape_column (ish : list Z) :
  tf.infer_shape ish [-1; 1] = Ok [size ish; 1].
Proof.
  rewrite infer_shape_nonzero by (repeat constructor; lia).
  cbv zeta.
  change (size (filter (fun d => d ≠ -1) [-1; 1])) with 1.
  change (length (filter (fun d => d = -1) [-1; 1])) with 1%nat.
  cbv beta iota. rewrite Z.mod_1_r, Z.div_1_r. done.
Qed.

Lemma infer_shape_third (ish : list Z) (d0 d1 d3 : Z) :
  0 < d0 → 0 < d1 → 0 < d3 → size ish mod (d0 * d1 * d3) = 0 →
  tf.infer_shape ish [d0; d1; -1; d3] = Ok [d0; d1; size ish / (d0 * d1 * d3); d3].
Proof.
  intros H0 H1 H3 Hmod. rewrite infer_shape_nonzero by (repeat constructor; lia).
  cbv zeta.
  rewrite !filter_cons, !filter_nil.
  rewrite (decide_True (P := d0 ≠ -1)) by lia.
  rewrite (decide_False (P := d0 = -1)) by lia.
  rewrite (decide_True (P := d1 ≠ -1)) by lia.
  rewrite (decide_False (P := d1 = -1)) by lia.
  rewrite (decide_True (P := d3 ≠ -1)) by lia.
  rewrite (decide_False (P := d3 = -1)) by lia.
  rewrite (decide_False (P := -1 ≠ -1)) by lia.
  rewrite (decide_True (P := -1 = -1)) by lia.
  simpl.
  replace (d0 * (d1 * (d3 * 1))) with (d0 * d1 * d3) by lia.
  assert ((0 <? d0 * d1 * d3) = true) as -> by nia.
  assert ((size ish mod (d0 * d1 * d3) =? 0) = true) as -> by lia.
  simpl.
  assert ((d0 =? -1) = false) as -> by lia.
  assert ((d1 =? -1) = false) as -> by lia.
  assert ((d3 =? -1) = false) as -> by lia. done.
Qed.

(** ** The gather indices *)

Lemma f32_round_small (z : Z) : Z.abs z < 2 ^ 24 → f32_round z = z.
Proof. intros Hz. unfold f32_round. by apply Z.ltb_lt in Hz as ->. Qed.

Lemma float32_add_zero_r (v : Z) : Z.abs v < 2 ^ 24 → add (F32 v) zero = F32 v.
Proof. intros Hv. simpl. by rewrite Z.add_0_r, f32_round_small. Qed.

Lemma float32_add_zero_l (v : Z) : Z.abs v < 2 ^ 24 → add zero (F32 v) = F32 v.
Proof. intros Hv. simpl. by rewrite f32_round_small. Qed.

(** A sum of binary32 zeros. *)
Lemma foldl_add_zeros {A : Type} (f : A → float32) (l : list A) (v : Z) :
  Z.abs v < 2 ^ 24 → (∀ x, x ∈ l → f x = zero) →
  foldl add (F32 v) (f <$> l) = F32 v.
Proof.
  intros Hv. induction l as [|x l IH]; intros Hz; [done|].
  rewrite fmap_cons. cbn [foldl]. rewrite (Hz x) by by left.
  rewrite float32_add_zero_r by done. apply IH. intros y Hy. apply Hz. by right.
Qed.

(** A sum whose terms are zero but one, which is small enough to be
    exact. *)
Lemma vsum_single {A : Type} (f : A → float32) (l : list A) (a : A) (v : Z) :
  Z.abs v < 2 ^ 24 → NoDup l → a ∈ l → f a = F32 v →
  (∀ x, x ∈ l → x ≠ a → f x = zero) →
  vsum (f <$> l) = F32 v.
Proof.
  intros Hv Hnd Hin Hfa Hz.
  apply list_elem_of_split in Hin as (l1 & l2 & ->).
  apply NoDup_app in Hnd as (_ & Hl1 & Hnd2). apply NoDup_cons in Hnd2 as [Hl2 _].
  unfold vsum. rewrite fmap_app, fmap_cons, foldl_app. cbn [foldl].
  change (@zero float32 _) with (F32 0).
  rewrite (foldl_add_zeros f l1 0); [|done|].
  - rewrite Hfa. change (F32 0) with (@zero float32 _).
    rewrite float32_add_zero_l by done.
    apply foldl_add_zeros; [done|].
    intros x Hx. apply Hz; [set_solver|]. by intros ->.
  - intros x Hx. apply Hz; [set_solver|]. intros ->.
    apply (Hl1 a Hx). by left.
Qed.

Lemma identity_kernel_ok (bh bw : Z) :
  0 < bh → 0 < bw →
  t2t.reshape_range (tf.eye (bh * bw)) 0 1 [bh; bw; 1] = Ok (identity_kernel bh bw).
Proof.
  intros Hbh Hbw. unfold t2t.reshape_range, t2t.shape_list. simpl.
  rewrite reshape_exact; [done| |simpl; lia].
  repeat constructor; nia.
Qed.

Lemma identity_kernel_get (bh bw i j c : Z) :
  0 ≤ i < bh → 0 ≤ j < bw → 0 ≤ c < bh * bw →
  get (identity_kernel bh bw) [i; j; 0; c] =
    if i * bw + j =? c then one else zero.
Proof.
  intros Hi Hj Hc. unfold identity_kernel. cbn [get].
  rewrite (unravel_same_offset _ _ [i * bw + j; c]); [done| |simpl; lia].
  repeat constructor; nia.
Qed.

Lemma offset_grid_ok (h w : Z) :
  0 < h → 0 < w →
  tf.reshape (tf.range (h * w)) [1; h; w; 1] = Ok (index_grid h w).
Proof.
  intros Hh Hw. rewrite reshape_exact; [done| |simpl; nia].
  repeat constructor; lia.
Qed.

Lemma offset_grid_get (h w y x : Z) :
  0 ≤ y < h → 0 ≤ x < w →
  get (offset_grid h w) [0; y; x; 0] = F32 (f32_round (y * w + x)).
Proof.
  intros Hy Hx. unfold offset_grid, index_grid, tf.cast_float32, tf.map_tensor. cbn.
  rewrite Z.div_1_r. do 2 f_equal. lia.
Qed.

(** One term of a convolution window: the offset under the kernel's one,
    zero elsewhere. *)
Lemma window_term (h w bh bw y x i j c : Z) :
  h * w ≤ 2 ^ 24 →
  0 ≤ y < h → 0 ≤ x < w → 0 ≤ i < bh → 0 ≤ j < bw → 0 ≤ c < bh * bw →
  vsum ((fun q => mul (get (offset_grid h w) [0; y; x; q])
                      (get (identity_kernel bh bw) [i; j; q; c])) <$> seqZ 0 1)
  = if i * bw + j =? c then F32 (y * w + x) else zero.
Proof.
  intros Hhw Hy Hx Hi Hj Hc.
  assert (Hv : Z.abs (y * w + x) < 2 ^ 24) by nia.
  change (seqZ 0 1) with [0]. rewrite fmap_cons, fmap_nil.
  rewrite offset_grid_get, identity_kernel_get by done.
  rewrite (f32_round_small _ Hv).
  unfold vsum. cbn [foldl]. destruct (i * bw + j =? c).
  - cbn [mul one Dtype_float32 f32_val]. rewrite Z.mul_1_r, (f32_round_small _ Hv).
    by apply float32_add_zero_l.
  - cbn [mul zero Dtype_float32 f32_val]. rewrite Z.mul_0_r. done.
Qed.

(** A whole convolution window with the identity kernel picks the offset
    of entry [c] of the window. *)
Lemma window_sum (h w bh bw y0 x0 c : Z) :
  h * w ≤ 2 ^ 24 →
  0 < bh → 0 < bw → 0 ≤ y0 → 0 ≤ x0 → y0 + bh ≤ h → x0 + bw ≤ w →
  0 ≤ c < bh * bw →
  vsum ((fun i =>
    vsum ((fun j =>
      vsum ((fun q => mul (get (offset_grid h w) [0; y0 + i; x0 + j; q])
                          (get (identity_kernel bh bw) [i; j; q; c])) <$> seqZ 0 1))
      <$> seqZ 0 bw))
    <$> seqZ 0 bh)
  = F32 ((y0 + c / bw) * w + (x0 + c mod bw)).
Proof.
  intros Hhw Hbh Hbw Hy0 Hx0 Hy1 Hx1 Hc.
  destruct (divmod_range c bh bw Hbw Hc) as (Hq & Hr & Hdm).
  assert (Hv : Z.abs ((y0 + c / bw) * w + (x0 + c mod bw)) < 2 ^ 24) by nia.
  apply (vsum_single _ _ (c / bw)); [done|apply NoDup_seqZ|apply elem_of_seqZ; lia| |].
  - apply (vsum_single _ _ (c mod bw)); [done|apply NoDup_seqZ|apply elem_of_seqZ; lia| |].
    + rewrite (window_term h w bh bw) by lia.
      by assert ((c / bw * bw + c mod bw =? c) = true) as -> by lia.
    + intros j Hj Hne. apply elem_of_seqZ in Hj.
      rewrite (window_term h w bh bw) by lia.
      by assert ((c / bw * bw + j =? c) = false) as -> by lia.
  - intros i Hi Hne. apply elem_of_seqZ in Hi.
    apply (foldl_add_zeros _ _ 0); [done|].
    intros j Hj. apply elem_of_seqZ in Hj.
    rewrite (window_term h w bh bw) by lia.
    assert ((i * bw + j =? c) = false) as ->; [|done].
    apply Z.eqb_neq. intros Heq. apply Hne.
    rewrite Hdm in Heq. apply radix_inj in Heq; [by destruct Heq|lia|lia].
Qed.

(** Number of windows of length [f] at stride [s] in [n] positions. *)
Lemma valid_out_size_ok (n f s : Z) :
  0 < s → 0 < f ≤ n → @tf.valid_out_size n f s = Ok ((n - f + s) / s).
Proof.
  intros Hs Hf. unfold tf.valid_out_size.
  rewrite Z.quot_div_nonneg by lia.
  assert (0 ≤ (n - f + s) / s) by (apply Z.div_pos; lia).
  assert ((s <=? 0) = false) as -> by lia.
  assert ((f <=? 0) = false) as -> by lia.
  by assert (((n - f + s) / s <? 0) = false) as -> by lia.
Qed.

Lemma valid_out_size_pos (n f s : Z) : 0 < s → 0 < f ≤ n → 0 < (n - f + s) / s.
Proof. intros Hs Hf. apply Z.div_str_pos. lia. Qed.

(** What [gather_indices_2d] returns: one row per window, and, as long as
    every offset of the grid is exact in binary32, the offsets of the
    window in row-major order. *)
Lemma gather_indices_2d_spec {W : Type} (x : Tensor W) (h w bh bw sh sw : Z) :
  shape x !! 2%nat = Some h → shape x !! 3%nat = Some w →
  0 < bh ≤ h → 0 < bw ≤ w → 0 < sh → 0 < sw →
  ∃ t, t2t.gather_indices_2d x (bh, bw) (sh, sw) = Ok t ∧
       shape t = [(h - bh + sh) / sh * ((w - bw + sw) / sw); bh * bw] ∧
       (h * w ≤ 2 ^ 24 →
        ∀ r c, 0 ≤ r < (h - bh + sh) / sh * ((w - bw + sw) / sw) →
               0 ≤ c < bh * bw →
               get t [r; c] = block_entry w bw sh sw ((w - bw + sw) / sw) r c).
Proof.
  intros Hh Hw Hbh Hbw Hsh Hsw.
  pose proof (valid_out_size_pos h bh sh Hsh Hbh) as Hoh.
  pose proof (valid_out_size_pos w bw sw Hsw Hbw) as How.
  set (oh := (h - bh + sh) / sh) in *. set (ow := (w - bw + sw) / sw) in *.
  unfold t2t.gather_indices_2d. cbn [fst snd].
  rewrite identity_kernel_ok by lia. cbn [mbind Result_bind].
  unfold t2t.shape_list, index. rewrite Hh, Hw. cbn [mbind Result_bind].
  rewrite offset_grid_ok by lia. cbn [mbind Result_bind].
  unfold tf.conv2d. cbn [shape tf.cast_float32 tf.map_tensor index_grid identity_kernel].
  rewrite Z.eqb_refl.
  rewrite !valid_out_size_ok by lia. cbn [mbind Result_bind].
  fold oh ow. cbn [shape take foldl].
  unfold tf.reshape. cbn [shape].
  assert (Hsz : size [1; oh; ow; bh * bw] = bh * bw * (1 * 1 * oh * ow)) by (simpl; lia).
  rewrite infer_shape_rows; [|nia|by rewrite Hsz, Z.mod_mul by nia].
  rewrite !Hsz.
  cbn [mbind Result_bind]. rewrite Z.div_mul by nia.
  rewrite forallb_nonneg by (repeat constructor; nia).
  assert ((size [1 * 1 * oh * ow; bh * bw] =? bh * bw * (1 * 1 * oh * ow)) = true)
    as -> by (simpl; lia).
  cbn [andb]. eexists. split; [reflexivity|]. split.
  - cbn [shape tf.cast_int32 tf.map_tensor]. f_equal. lia.
  - intros Hhw r c Hr Hc.
    destruct (divmod_range r oh ow How Hr) as (Hq & Hm & Hdm).
    cbn [get tf.cast_int32 tf.map_tensor].
    rewrite (unravel_same_offset _ _ [0; r / ow; r mod ow; c]).
    + assert (Hyb : r / ow * sh + bh ≤ h).
      { pose proof (Z.mul_div_le (h - bh + sh) sh Hsh) as Hle. fold oh in Hle. nia. }
      assert (Hxb : r mod ow * sw + bw ≤ w).
      { pose proof (Z.mul_div_le (w - bw + sw) sw Hsw) as Hle. fold ow in Hle. nia. }
      change (tf.cast_float32 (index_grid h w)) with (offset_grid h w).
      rewrite (window_sum h w bh bw (r / ow * sh) (r mod ow * sw) c) by nia.
      done.
    + repeat constructor; lia.
    + simpl. nia.
Qed.

(** ** Non-overlapping blocks partition the grid *)

Section BlockEntry.

Variables (oh ow bh bw : Z).
Hypotheses (Hoh : 0 < oh) (How : 0 < ow) (Hbh : 0 < bh) (Hbw : 0 < bw).

Lemma block_entry_range (r c : Z) :
  0 ≤ r < oh * ow → 0 ≤ c < bh * bw →
  0 ≤ block_entry (ow * bw) bw bh bw ow r c < oh * bh * (ow * bw).
Proof using Hoh How Hbh Hbw.
  intros Hr Hc. unfold block_entry.
  destruct (divmod_range r oh ow How Hr) as (Hq & Hm & _).
  destruct (divmod_range c bh bw Hbw Hc) as (Hi & Hj & _).
  assert (Hy : 0 ≤ r / ow * bh + c / bw < oh * bh) by nia.
  assert (Hx : 0 ≤ r mod ow * bw + c mod bw < ow * bw) by nia.
  revert Hy Hx. generalize (r / ow * bh + c / bw) (r mod ow * bw + c mod bw).
  intros y x Hy Hx. nia.
Qed.

Lemma block_entry_inj (r1 c1 r2 c2 : Z) :
  0 ≤ r1 < oh * ow → 0 ≤ c1 < bh * bw →
  0 ≤ r2 < oh * ow → 0 ≤ c2 < bh * bw →
  block_entry (ow * bw) bw bh bw ow r1 c1 = block_entry (ow * bw) bw bh bw ow r2 c2 →
  r1 = r2 ∧ c1 = c2.
Proof using Hoh How Hbh Hbw.
  intros Hr1 Hc1 Hr2 Hc2. unfold block_entry.
  destruct (divmod_range r1 oh ow How Hr1) as (Hq1 & Hm1 & Hd1).
  destruct (divmod_range c1 bh bw Hbw Hc1) as (Hi1 & Hj1 & He1).
  destruct (divmod_range r2 oh ow How Hr2) as (Hq2 & Hm2 & Hd2).
  destruct (divmod_range c2 bh bw Hbw Hc2) as (Hi2 & Hj2 & He2).
  intros Heq. apply radix_inj in Heq as [Hy Hx]; [|nia|nia].
  apply radix_inj in Hy as [Hq Hi]; [|lia|lia].
  apply radix_inj in Hx as [Hm Hj]; [|lia|lia].
  split; congruence.
Qed.

Lemma block_entry_surj (v : Z) :
  0 ≤ v < oh * bh * (ow * bw) →
  ∃ r c, 0 ≤ r < oh * ow ∧ 0 ≤ c < bh * bw ∧
         block_entry (ow * bw) bw bh bw ow r c = v.
Proof using Hoh How Hbh Hbw.
  intros Hv.
  destruct (divmod_range v (oh * bh) (ow * bw) ltac:(nia) Hv) as (Hy & Hx & Hd).
  destruct (divmod_range (v / (ow * bw)) oh bh Hbh Hy) as (Hq & Hi & Hdy).
  assert (Hx' : 0 ≤ v mod (ow * bw) < ow * bw) by done.
  destruct (divmod_range (v mod (ow * bw)) ow bw Hbw Hx') as (Hm & Hj & Hdx).
  set (y := v / (ow * bw)) in *. set (x := v mod (ow * bw)) in *.
  exists (y / bh * ow + x / bw), (y mod bh * bw + x mod bw).
  split; [nia|]. split; [nia|]. unfold block_entry.
  destruct (divmod_pos (y / bh) (x / bw) ow Hm) as [-> ->].
  destruct (divmod_pos (y mod bh) (x mod bw) bw Hj) as [-> ->].
  lia.
Qed.

End BlockEntry.

Lemma elem_of_concat_fmap {A B : Type} (f : A → list B) (l : list A) (y : B) :
  y ∈ concat (f <$> l) ↔ ∃ x, x ∈ l ∧ y ∈ f x.
Proof.
  induction l as [|a l IH]; simpl.
  - split; [by intros ?%elem_of_nil|]. by intros (x & ?%elem_of_nil & _).
  - rewrite elem_of_app, IH. split.
    + intros [Hy|(x & Hx & Hy)]; [exists a|exists x]; split; try done;
        [by left|by right].
    + intros (x & [->|Hx]%elem_of_cons & Hy); [by left|right; eauto].
Qed.

Lemma NoDup_concat_fmap {A B : Type} (f : A → list B) (l : list A) :
  NoDup l → (∀ x, x ∈ l → NoDup (f x)) →
  (∀ x1 x2 y, x1 ∈ l → x2 ∈ l → y ∈ f x1 → y ∈ f x2 → x1 = x2) →
  NoDup (concat (f <$> l)).
Proof.
  induction 1 as [|a l Ha Hnd IH]; intros Hrow Hdisj; simpl; [constructor|].
  apply NoDup_app. split_and!.
  - apply Hrow. by left.
  - intros y Hy (x & Hx & Hyx)%elem_of_concat_fmap.
    assert (a = x) as -> by (apply (Hdisj a x y); [by left|by right|done|done]).
    done.
  - apply IH.
    + intros x Hx. apply Hrow. by right.
    + intros x1 x2 y H1 H2. apply Hdisj; by right.
Qed.

Lemma flatten_rows {V : Type} (t : Tensor V) (n k : Z) :
  shape t = [n; k] → flatten t = concat (rows t).
Proof.
  intros Hsh. unfold flatten, rows. rewrite Hsh. cbn [all_indices].
  generalize (seqZ 0 n) as l1. generalize (seqZ 0 k) as l2. intros l2 l1.
  assert (Hrow : ∀ r, get t <$> (cons r <$> (l2 ≫= fun j => cons j <$> [[]]))
                      = (fun c => get t [r; c]) <$> l2).
  { intros r. induction l2 as [|c l2 IH]; [done|].
    change ((c :: l2) ≫= fun j => cons j <$> [[]])
      with ([[c]] ++ (l2 ≫= fun j => cons j <$> [[]])).
    rewrite !fmap_app, IH. done. }
  induction l1 as [|r l1 IH]; [done|].
  change ((r :: l1) ≫= fun i => cons i <$> (l2 ≫= fun j => cons j <$> [[]]))
    with ((cons r <$> (l2 ≫= fun j => cons j <$> [[]])) ++
          (l1 ≫= fun i => cons i <$> (l2 ≫= fun j => cons j <$> [[]]))).
  rewrite fmap_app, Hrow, IH. done.
Qed.

(** The gather indices of non-overlapping blocks hold every offset of the
    grid exactly once, as long as every offset is exact in binary32. *)
Lemma gather_indices_2d_bijection {W : Type}
    (x : Tensor W) (h w bh bw : Z) :
  shape x !! 2%nat = Some h → shape x !! 3%nat = Some w →
  0 < bh → 0 < bw → 0 < h → 0 < w → (bh | h) → (bw | w) →
  h * w ≤ 2 ^ 24 →
  ∃ t, t2t.gather_indices_2d x (bh, bw) (bh, bw) = Ok t ∧
       shape t = [h / bh * (w / bw); bh * bw] ∧
       flatten t ≡ₚ seqZ 0 (h * w).
Proof.
  intros Hh Hw Hbh Hbw Hh0 Hw0 [oh ->] [ow ->] Hbound.
  assert (Hoh : 0 < oh) by nia. assert (How : 0 < ow) by nia.
  destruct (gather_indices_2d_spec x (oh * bh) (ow * bw) bh bw bh bw)
    as (t & Hrun & Hsh & Hval); [done|done|nia|nia|done|done|].
  specialize (Hval Hbound).
  replace ((oh * bh - bh + bh) / bh) with oh in *
    by (rewrite Z.sub_add, Z.div_mul; lia).
  replace ((ow * bw - bw + bw) / bw) with ow in *
    by (rewrite Z.sub_add, Z.div_mul; lia).
  rewrite !Z.div_mul by lia.
  exists t. split; [done|]. split; [done|].
  rewrite (flatten_rows t _ _ Hsh). unfold rows. rewrite Hsh.
  assert (Hget : ∀ r c, r ∈ seqZ 0 (oh * ow) → c ∈ seqZ 0 (bh * bw) →
            get t [r; c] = block_entry (ow * bw) bw bh bw ow r c ∧
            0 ≤ r < oh * ow ∧ 0 ≤ c < bh * bw).
  { intros r c Hr%elem_of_seqZ Hc%elem_of_seqZ.
    split; [apply Hval; lia|lia]. }
  apply NoDup_Permutation.
  - apply NoDup_concat_fmap; [apply NoDup_seqZ| |].
    + intros r Hr. apply NoDup_fmap_2_strong; [|apply NoDup_seqZ].
      intros c1 c2 Hc1 Hc2 Heq.
      destruct (Hget r c1 Hr Hc1) as (E1 & Hrr & Hcc1).
      destruct (Hget r c2 Hr Hc2) as (E2 & _ & Hcc2).
      rewrite E1, E2 in Heq.
      by apply (block_entry_inj oh ow bh bw Hoh How Hbh Hbw) in Heq as [_ ?].
    + intros r1 r2 v Hr1 Hr2 (c1 & -> & Hc1)%list_elem_of_fmap
        (c2 & Heq & Hc2)%list_elem_of_fmap.
      destruct (Hget r1 c1 Hr1 Hc1) as (E1 & Hrr1 & Hcc1).
      destruct (Hget r2 c2 Hr2 Hc2) as (E2 & Hrr2 & Hcc2).
      rewrite E1, E2 in Heq.
      by apply (block_entry_inj oh ow bh bw Hoh How Hbh Hbw) in Heq as [? _].
  - apply NoDup_seqZ.
  - intros v. rewrite elem_of_concat_fmap, elem_of_seqZ. split.
    + intros (r & Hr & (c & -> & Hc)%list_elem_of_fmap).
      destruct (Hget r c Hr Hc) as (-> & Hrr & Hcc).
      pose proof (block_entry_range oh ow bh bw Hoh How Hbh Hbw r c Hrr Hcc). lia.
    + intros Hv.
      destruct (block_entry_surj oh ow bh bw Hoh How Hbh Hbw v) as (r & c & Hr & Hc & <-);
        [lia|].
      exists r. split; [apply elem_of_seqZ; lia|].
      apply list_elem_of_fmap. exists c. split; [|apply elem_of_seqZ; lia].
      symmetry. apply Hval; lia.
Qed.

Lemma NoDup_concat_elem {A : Type} (ls : list (list A)) (l : list A) :
  NoDup (concat ls) → l ∈ ls → NoDup l.
Proof.
  induction ls as [|k ls IH]; intros Hnd Hin.
  - by apply elem_of_nil in Hin.
  - simpl in Hnd. apply NoDup_app in Hnd as (Hk & _ & Hls).
    apply elem_of_cons in Hin as [->|Hin]; [done|by apply IH].
Qed.

(** C5, as amended: over a grid of [h x w] positions, [h] and [w] positive
    multiples of the block shape [(bh, bw)], with at most [2^24]
    positions (so that every offset is exact in the binary32 convolution),
    [gather_indices_2d] with the stride equal to the block shape returns
    [(h / bh) * (w / bw)] rows of [bh * bw] pairwise distinct indices each,
    and the rows put together are a permutation of [0, ..., h * w - 1]. *)
Theorem gather_indices_2d_partition {W : Type}
    (x : Tensor W) (h w bh bw : Z) :
  shape x !! 2%nat = Some h → shape x !! 3%nat = Some w →
  0 < bh → 0 < bw → 0 < h → 0 < w → (bh | h) → (bw | w) →
  h * w ≤ 2 ^ 24 →
  ∃ t, t2t.gather_indices_2d x (bh, bw) (bh, bw) = Ok t ∧
       shape t = [h / bh * (w / bw); bh * bw] ∧
       length (rows t) = Z.to_nat (h / bh * (w / bw)) ∧
       Forall (fun row => length row = Z.to_nat (bh * bw) ∧ NoDup row) (rows t) ∧
       concat (rows t) ≡ₚ seqZ 0 (h * w).
Proof.
  intros Hh Hw Hbh Hbw Hh0 Hw0 Hdh Hdw Hbound.
  destruct (gather_indices_2d_bijection x h w bh bw)
    as (t & Hrun & Hsh & Hperm); try done.
  exists t. split; [done|]. split; [done|].
  rewrite (flatten_rows t _ _ Hsh) in Hperm.
  assert (Hnd : NoDup (concat (rows t))) by (rewrite Hperm; apply NoDup_seqZ).
  split_and!; [| |done].
  - unfold rows. rewrite Hsh. by rewrite length_fmap, length_seqZ.
  - apply Forall_forall. intros row Hrow. split.
    + unfold rows in Hrow. rewrite Hsh in Hrow.
      apply list_elem_of_fmap in Hrow as (r & -> & _).
      by rewrite length_fmap, length_seqZ.
    + by apply (NoDup_concat_elem (rows t)).
Qed.

Lemma gather_indices_2d_partition_witness :
  ∃ t, t2t.gather_indices_2d Examples.key_6x6 (2, 3) (2, 3) = Ok t ∧
       shape t = [6 / 2 * (6 / 3); 2 * 3] ∧
       length (rows t) = Z.to_nat (6 / 2 * (6 / 3)) ∧
       Forall (fun row => length row = Z.to_nat (2 * 3) ∧ NoDup row) (rows t) ∧
       concat (rows t) ≡ₚ seqZ 0 (6 * 6).
Proof.
  apply (gather_indices_2d_partition Examples.key_6x6 6 6 2 3).
  - reflexivity.
  - reflexivity.
  - lia.
  - lia.
  - lia.
  - lia.
  - exists 3. reflexivity.
  - exists 2. reflexivity.
  - vm_compute. discriminate.
Defined.

(** C5 as stated fails on a large grid: over 4104 x 4096 positions and
    blocks of 8 x 16, row 131072 of the result holds the index [2^24]
    twice, because the offset [2^24 + 1] is not a binary32 value. *)
Lemma gather_indices_2d_large_grid_repeats :
  ¬ (∃ t, t2t.gather_indices_2d Examples.grid_4104x4096 (8, 16) (8, 16) = Ok t ∧
          Forall NoDup (rows t)).
Proof.
  intros (t & Hrun & Hrows).
  destruct (gather_indices_2d_spec Examples.grid_4104x4096 4104 4096 8 16 8 16)
    as (t' & Hrun' & Hsh & _); [done|done|lia|lia|lia|lia|].
  rewrite Hrun in Hrun'. injection Hrun' as <-.
  assert (Hdup : match t2t.gather_indices_2d Examples.grid_4104x4096 (8, 16) (8, 16) with
                 | Ok t => get t [131072; 0] = get t [131072; 1]
                 | Raise _ => True
                 end) by (vm_compute; reflexivity).
  rewrite Hrun in Hdup.
  replace ((4104 - 8 + 8) / 8 * ((4096 - 16 + 16) / 16)) with 131328 in Hsh
    by (vm_compute; reflexivity).
  unfold rows in Hrows. rewrite Hsh in Hrows.
  rewrite Forall_fmap, Forall_forall in Hrows.
  specialize (Hrows 131072). cbv beta in Hrows.
  assert (Hin : 131072 ∈ seqZ 0 131328) by (apply elem_of_seqZ; lia).
  specialize (Hrows Hin). unfold compose in Hrows.
  rewrite (seqZ_cons 0) in Hrows by lia.
  rewrite (seqZ_cons (Z.succ 0)) in Hrows by lia.
  rewrite !fmap_cons in Hrows.
  apply NoDup_cons in Hrows as [Hnotin _].
  apply Hnotin. rewrite Hdup. by left.
Qed.

(** ** Number of blocks *)

(** C7, as amended: on a grid of [h x w] positions, with a block shape
    that fits in the grid and a positive stride, [gather_indices_2d]
    returns [((h - bh) div sh + 1) * ((w - bw) div sw + 1)] rows.  When the
    stride divides the grid and the block shape does not exceed the stride,
    that is [ceil(h / sh) * ceil(w / sw)]. *)
Theorem gather_indices_2d_num_blocks {W : Type}
    (x : Tensor W) (h w bh bw sh sw : Z) :
  shape x !! 2%nat = Some h → shape x !! 3%nat = Some w →
  0 < bh ≤ h → 0 < bw ≤ w → 0 < sh → 0 < sw →
  ∃ t, t2t.gather_indices_2d x (bh, bw) (sh, sw) = Ok t ∧
       shape t !! 0%nat = Some (((h - bh) / sh + 1) * ((w - bw) / sw + 1)) ∧
       ((sh | h) → (sw | w) → bh ≤ sh → bw ≤ sw →
        shape t !! 0%nat = Some (ceil_div h sh * ceil_div w sw)).
Proof.
  intros Hh Hw Hbh Hbw Hsh Hsw.
  destruct (gather_indices_2d_spec x h w bh bw sh sw)
    as (t & Hrun & Hshape & _); try done.
  assert (Hdiv : ∀ n f s, 0 < s → (n - f + s) / s = (n - f) / s + 1).
  { intros n f s Hs. replace (n - f + s) with (n - f + 1 * s) by lia.
    by rewrite Z.div_add by lia. }
  assert (Hceil : ∀ n f s, 0 < s → 0 < f ≤ s → (s | n) →
            (n - f) / s + 1 = ceil_div n s).
  { intros n f s Hs Hf [k ->]. unfold ceil_div.
    replace (- (k * s)) with ((- k) * s) by lia. rewrite Z.div_mul by lia.
    replace (k * s - f) with ((k - 1) * s + (s - f)) by lia.
    destruct (divmod_pos (k - 1) (s - f) s) as [-> _]; lia. }
  exists t. split; [done|]. rewrite Hshape. simpl. split.
  - by rewrite !Hdiv.
  - intros Hdh Hdw Hbs Hbs'. rewrite !Hdiv by done.
    by rewrite (Hceil h bh sh), (Hceil w bw sw) by (done || lia).
Qed.

Lemma gather_indices_2d_num_blocks_witness :
  ∃ t, t2t.gather_indices_2d Examples.key_6x6 (2, 2) (2, 2) = Ok t ∧
       shape t !! 0%nat = Some (((6 - 2) / 2 + 1) * ((6 - 2) / 2 + 1)) ∧
       ((2 | 6) → (2 | 6) → 2 ≤ 2 → 2 ≤ 2 →
        shape t !! 0%nat = Some (ceil_div 6 2 * ceil_div 6 2)).
Proof.
  apply (gather_indices_2d_num_blocks Examples.key_6x6 6 6 2 2 2 2).
  - reflexivity.
  - reflexivity.
  - lia.
  - lia.
  - lia.
  - lia.
Defined.

(** C7 as stated fails for overlapping blocks: on the 6 x 6 key grid, with
    memory blocks of 4 x 4 at stride 2 x 2 (the stride divides the grid),
    there are 4 rows, not [ceil(6 / 2) * ceil(6 / 2) = 9]. *)
Lemma gather_indices_2d_overlapping_blocks :
  ¬ (∃ t, t2t.gather_indices_2d Examples.key_6x6 (4, 4) (2, 2) = Ok t ∧
          shape t !! 0%nat = Some (ceil_div 6 2 * ceil_div 6 2)).
Proof.
  intros (t & Hrun & Hclaim).
  destruct (gather_indices_2d_spec Examples.key_6x6 6 6 4 4 2 2)
    as (t' & Hrun' & Hsh & _); [done|done|lia|lia|lia|lia|].
  rewrite Hrun in Hrun'. injection Hrun' as <-.
  rewrite Hsh in Hclaim. vm_compute in Hclaim. discriminate Hclaim.
Qed.

Lemma pad_to_multiple_2d_spec_witness :
  ∃ px h' w',
    t2t.pad_to_multiple_2d Examples.fmap_3x5 (2, 3) = Ok px ∧
    shape px = [1; 1] ++ [h'; w'; 2] ∧
    ((2 | h') ∧ 3 ≤ h' ∧ ∀ n, (2 | n) → 3 ≤ n → h' ≤ n) ∧
    ((3 | w') ∧ 5 ≤ w' ∧ ∀ n, (3 | n) → 5 ≤ n → w' ≤ n) ∧
    (∀ idx, in_bounds (shape Examples.fmap_3x5) idx →
            get px idx = get Examples.fmap_3x5 idx) ∧
    (∀ idx, in_bounds (shape px) idx → ¬ in_bounds (shape Examples.fmap_3x5) idx →
            get px idx = zero).
Proof.
  apply (pad_to_multiple_2d_spec Examples.fmap_3x5 [1; 1] 3 5 2 2 3).
  - reflexivity.
  - right. reflexivity.
  - lia.
  - lia.
Defined.

(** ** Gathering and scattering blocks *)

Lemma forallb_all_indices (sh : list Z) (P : list Z → bool) :
  (∀ idx, in_bounds sh idx → P idx = true) → forallb P (all_indices sh) = true.
Proof.
  intros HP. apply forallb_forall. intros idx Hin.
  apply HP, elem_of_all_indices, list_elem_of_In, Hin.
Qed.

Lemma forallb_seqZ (n : Z) (P : Z → bool) :
  (∀ j, 0 ≤ j < n → P j = true) → forallb P (seqZ 0 n) = true.
Proof.
  intros HP. apply forallb_forall. intros j Hin%list_elem_of_In%elem_of_seqZ.
  apply HP. lia.
Qed.

Section GatherScatter.

Context {V : Type} `{Dtype V}.
Variables (B Hd h w D N K : Z).
Hypotheses (HB : 0 < B) (HHd : 0 < Hd) (Hh : 0 < h) (Hw : 0 < w) (HD : 0 < D)
           (HN : 0 < N) (HK : 0 < K).

(** Gathered blocks: entry [k] of block [n] is the position the index
    tensor names. *)
Lemma gather_blocks_2d_spec (x : Tensor V) (indices : Tensor Z) :
  shape x = [B; Hd; h; w; D] →
  shape indices = [N; K] →
  (∀ n k, 0 ≤ n < N → 0 ≤ k < K → 0 ≤ get indices [n; k] < h * w) →
  ∃ g, t2t.gather_blocks_2d x indices = Ok g ∧
       shape g = [B; Hd; N; K; D] ∧
       ∀ b hd n k d, 0 ≤ b < B → 0 ≤ hd < Hd → 0 ≤ n < N → 0 ≤ k < K → 0 ≤ d < D →
         get g [b; hd; n; k; d] =
           get x [b; hd; get indices [n; k] / w; get indices [n; k] mod w; d].
Proof using HB HHd Hh Hw HD HN HK.
  intros Hx Hidx Hrange.
  unfold t2t.gather_blocks_2d, t2t.reshape_range, t2t.shape_list.
  rewrite Hx. cbn [take drop app].
  rewrite reshape_exact; [|repeat constructor; simpl; nia|rewrite Hx; simpl; lia].
  cbn [mbind Result_bind].
  unfold tf.transpose at 2. cbn [shape length tf.is_perm].
  change (tf.is_perm [2%nat; 0%nat; 1%nat; 3%nat] 4) with true. cbv iota.
  cbn [mbind Result_bind fmap list_fmap nth].
  unfold tf.gather. cbn [shape].
  rewrite Hidx.
  rewrite forallb_all_indices.
  2: { intros idx Hb. inv_bounds Hb.
       destruct (Hrange i i0 ltac:(lia) ltac:(lia)) as [Hlo Hhi].
       apply andb_true_iff. split; [lia|]. simpl. lia. }
  cbn [mbind Result_bind].
  unfold tf.transpose. cbn [shape length app tf.is_perm].
  change (tf.is_perm [2%nat; 3%nat; 0%nat; 1%nat; 4%nat] 5) with true. cbv iota.
  eexists. split; [reflexivity|]. split; [reflexivity|].
  intros b hd n k d Rb Rhd Rn Rk Rd.
  destruct (Hrange n k Rn Rk) as [Hlo Hhi].
  destruct (divmod_range (get indices [n; k]) h w Hw ltac:(lia)) as (Hq & Hr & Hdm).
  cbn. rewrite Hx.
  replace (b * (Hd * (h * (w * 1) * (D * 1))) +
           (hd * (h * (w * 1) * (D * 1)) + (get indices [n; k] * (D * 1) + (d * 1 + 0))))
    with (ravel [B; Hd; h; w; D]
            [b; hd; get indices [n; k] / w; get indices [n; k] mod w; d])
    by (simpl; nia).
  rewrite unravel_ravel; [done|]. repeat constructor; lia.
Qed.

(** Scattered blocks: every position receives the sum of the block
    entries whose index names it. *)
Lemma scatter_blocks_2d_spec (g : Tensor V) (indices : Tensor Z) :
  shape g = [B; Hd; N; K; D] →
  shape indices = [N; K] →
  N * K = h * w →
  (∀ n k, 0 ≤ n < N → 0 ≤ k < K → 0 ≤ get indices [n; k] < h * w) →
  ∃ r, t2t.scatter_blocks_2d g indices [B; Hd; h; w; D] = Ok r ∧
       shape r = [B; Hd; h; w; D] ∧
       ∀ b hd y x d, 0 ≤ b < B → 0 ≤ hd < Hd → 0 ≤ y < h → 0 ≤ x < w → 0 ≤ d < D →
         get r [b; hd; y; x; d] =
           vsum ((fun j => get g [b; hd; j / K; j mod K; d]) <$>
                 filter (fun j => get indices [j / K; j mod K] = y * w + x)
                   (seqZ 0 (N * K))).
Proof using HB HHd Hh Hw HD HN HK.
  intros Hg Hidx Hsize Hrange.
  unfold t2t.scatter_blocks_2d, t2t.shape_list, index, index_last.
  rewrite Hg. cbn [lookup list_lookup last mbind Result_bind].
  (* the blocks, flattened *)
  unfold tf.reshape at 3. rewrite Hg.
  assert (Hsz : size [B; Hd; N; K; D] = N * K * (B * Hd * D)) by (simpl; ring).
  rewrite infer_shape_third; [|done|done|done|by rewrite Hsz, Z.mod_mul by nia].
  rewrite !Hsz.
  rewrite Z.div_mul by nia. cbn [mbind Result_bind].
  rewrite forallb_nonneg by (repeat constructor; nia).
  assert ((size [B; Hd; N * K; D] =? N * K * (B * Hd * D)) = true) as ->
    by (apply Z.eqb_eq; simpl; ring).
  cbn [andb mbind Result_bind].
  unfold tf.transpose at 2. cbn [shape length].
  change (tf.is_perm [2%nat; 0%nat; 1%nat; 3%nat] 4) with true. cbv iota.
  cbn [mbind Result_bind fmap list_fmap nth shape].
  (* the indices, as a column *)
  unfold tf.reshape at 2. rewrite Hidx.
  rewrite infer_shape_column. cbn [mbind Result_bind].
  replace (size [N; K]) with (N * K) by (simpl; ring).
  rewrite forallb_nonneg by (repeat constructor; nia).
  assert ((size [N * K; 1] =? N * K) = true) as ->
    by (apply Z.eqb_eq; simpl; ring).
  cbn [andb mbind Result_bind].
  (* the scatter *)
  unfold tf.scatter_nd. cbn [shape].
  rewrite Z.eqb_refl, bool_decide_eq_true_2 by done.
  rewrite forallb_seqZ.
  2: { intros j Hj. cbn [get].
       destruct (divmod_range j N K HK Hj) as (Hq & Hr & Hdm).
       rewrite (unravel_same_offset _ _ [j / K; j mod K]);
         [|repeat constructor; lia|simpl; lia].
       destruct (Hrange _ _ Hq Hr). apply andb_true_iff. split; lia. }
  cbn [andb mbind Result_bind].
  unfold tf.transpose. cbn [shape length].
  change (tf.is_perm [1%nat; 2%nat; 0%nat; 3%nat] 4) with true. cbv iota.
  cbn [mbind Result_bind fmap list_fmap nth shape].
  rewrite reshape_exact;
    [|repeat constructor; lia|cbn [shape]; rewrite Hsize; simpl; ring].
  eexists. split; [reflexivity|]. split; [reflexivity|].
  intros b hd y x d Rb Rhd Ry Rx Rd.
  cbn [get shape].
  assert (Hoff : 0 ≤ y * w + x < N * K) by (rewrite Hsize; nia).
  rewrite (unravel_same_offset _ _ [b; hd; y * w + x; d]);
    [|repeat constructor; lia|simpl; rewrite Hsize; ring].
  cbn [seq fmap list_fmap tf.index_of Nat.eqb nth].
  assert (Hsplit : ∀ j, 0 ≤ j < N * K →
            unravel [N; K] (ravel [N * K; 1] [j; 0]) = [j / K; j mod K] ∧
            unravel [B; Hd; N; K; D] (ravel [B; Hd; N * K; D] [b; hd; j; d])
              = [b; hd; j / K; j mod K; d]).
  { intros j Hj. destruct (divmod_range j N K HK Hj) as (Hq & Hr & Hdm).
    split; apply unravel_same_offset;
      (repeat constructor; lia) || (simpl; lia). }
  rewrite (filter_ext_in _ (fun j => get indices [j / K; j mod K] = y * w + x)).
  2: { intros j Hj%elem_of_seqZ.
       destruct (Hsplit j ltac:(lia)) as [-> _]. done. }
  apply (f_equal vsum). apply fmap_ext_in.
  intros j Hj%list_elem_of_filter. destruct Hj as [_ Hj%elem_of_seqZ].
  destruct (Hsplit j ltac:(lia)) as [_ ->]. done.
Qed.

End GatherScatter.

Lemma NoDup_fmap_inj_on {A B : Type} (f : A → B) (l : list A) (x y : A) :
  NoDup (f <$> l) → x ∈ l → y ∈ l → f x = f y → x = y.
Proof.
  induction l as [|a l IH]; intros Hnd Hx Hy Heq.
  - by apply elem_of_nil in Hx.
  - rewrite fmap_cons in Hnd. apply NoDup_cons in Hnd as [Ha Hnd].
    apply elem_of_cons in Hx as [->|Hx]; apply elem_of_cons in Hy as [->|Hy].
    + done.
    + exfalso. apply Ha. rewrite Heq. by apply list_elem_of_fmap_2.
    + exfalso. apply Ha. rewrite <- Heq. by apply list_elem_of_fmap_2.
    + by apply IH.
Qed.

(** Gathering blocks with an index tensor that holds every offset of the
    grid exactly once, and scattering them back, is the identity. *)
Lemma gather_scatter_identity {V : Type} `{Dtype V}
    (px : Tensor V) (indices : Tensor Z) (B Hd h w D N K : Z) :
  (∀ v : V, add zero v = v) →
  shape px = [B; Hd; h; w; D] →
  0 < B → 0 < Hd → 0 < h → 0 < w → 0 < D →
  shape indices = [N; K] → 0 < N → 0 < K →
  flatten indices ≡ₚ seqZ 0 (h * w) →
  ∃ g r, t2t.gather_blocks_2d px indices = Ok g ∧
         t2t.scatter_blocks_2d g indices (shape px) = Ok r ∧
         tensor_eq r px.
Proof.
  intros Hid Hpx HB HHd Hh Hw HD Hidx HN HK Hperm.
  assert (Hsize : N * K = h * w).
  { apply Permutation_length in Hperm. unfold flatten in Hperm.
    rewrite length_fmap, length_seqZ in Hperm.
    pose proof (length_all_indices [N; K] ltac:(repeat constructor; lia)) as Hlen.
    rewrite Hidx in Hperm. rewrite Hperm, Z2Nat.id in Hlen by nia.
    rewrite Hlen. simpl. ring. }
  assert (Hnd : NoDup (flatten indices)).
  { rewrite Hperm. apply NoDup_seqZ. }
  assert (Hmem : ∀ n k, 0 ≤ n < N → 0 ≤ k < K → [n; k] ∈ all_indices (shape indices)).
  { intros n k Hn Hk. rewrite Hidx. apply elem_of_all_indices.
    repeat constructor; lia. }
  assert (Hrange : ∀ n k, 0 ≤ n < N → 0 ≤ k < K → 0 ≤ get indices [n; k] < h * w).
  { intros n k Hn Hk.
    assert (Hin : get indices [n; k] ∈ seqZ 0 (h * w)).
    { rewrite <- Hperm. apply list_elem_of_fmap_2. by apply Hmem. }
    apply elem_of_seqZ in Hin. lia. }
  destruct (gather_blocks_2d_spec B Hd h w D N K HB HHd Hh Hw HD HN HK px indices
              Hpx Hidx Hrange) as (g & Hg & Hgsh & Hgval).
  destruct (scatter_blocks_2d_spec B Hd h w D N K HB HHd Hh Hw HD HN HK g indices
              Hgsh Hidx Hsize Hrange) as (r & Hr & Hrsh & Hrval).
  exists g, r. rewrite Hpx. split; [done|]. split; [done|].
  split; [congruence|].
  intros idx Hb. rewrite Hrsh in Hb. inv_bounds Hb.
  rename i into b, i0 into hd, i1 into y, i2 into x0, i3 into d.
  rewrite Hrval by done.
  (* the one block entry that names this position *)
  assert (Hv : y * w + x0 ∈ flatten indices).
  { rewrite Hperm. apply elem_of_seqZ. nia. }
  apply list_elem_of_fmap in Hv as (nk & Hnk & Hin).
  rewrite Hidx in Hin. apply elem_of_all_indices in Hin. inv_bounds Hin.
  rename i into n0, i0 into k0.
  rewrite (filter_unique _ _ (n0 * K + k0)).
  - cbn [fmap list_fmap].
    destruct (divmod_pos n0 k0 K ltac:(lia)) as [-> ->].
    rewrite vsum_singleton by done.
    rewrite Hgval by done. rewrite <- Hnk.
    by destruct (divmod_pos y x0 w ltac:(lia)) as [-> ->].
  - apply NoDup_seqZ.
  - apply elem_of_seqZ. nia.
  - by destruct (divmod_pos n0 k0 K ltac:(lia)) as [-> ->].
  - intros j Hj%elem_of_seqZ Hjv.
    destruct (divmod_range j N K HK ltac:(lia)) as (Hq & Hm & Hdm).
    assert (Heq : [j / K; j mod K] = [n0; k0]).
    { apply (NoDup_fmap_inj_on (get indices) (all_indices (shape indices)));
        [done|by apply Hmem|by apply Hmem|congruence]. }
    injection Heq as <- <-. lia.
Qed.


Lemma pad_to_multiple_2d_rank5 {V : Type} `{Dtype V}
    (x : Tensor V) (B Hd h w D bh bw : Z) :
  shape x = [B; Hd; h; w; D] → 0 < bh → 0 < bw →
  ∃ px, t2t.pad_to_multiple_2d x (bh, bw) = Ok px ∧
        shape px = [B; Hd; h + (- h) mod bh; w + (- w) mod bw; D].
Proof.
  intros Hx Hbh Hbw.
  pose proof (Z.mod_pos_bound (- h) bh Hbh) as Hmh.
  pose proof (Z.mod_pos_bound (- w) bw Hbw) as Hmw.
  unfold t2t.pad_to_multiple_2d, py_mod, tf.pad, t2t.shape_list, index, index_last.
  rewrite Hx. simpl.
  assert ((bh =? 0) = false) as -> by lia.
  assert ((bw =? 0) = false) as -> by lia. simpl.
  assert ((0 <=? (- h) mod bh) = true) as -> by lia.
  assert ((0 <=? (- w) mod bw) = true) as -> by lia. simpl.
  eexists. split; [reflexivity|]. simpl. repeat f_equal; lia.
Qed.

(** The gather indices of non-overlapping blocks are such an index tensor:
    when the padded grid has at most [2^24] positions, padding, computing
    the indices, gathering and scattering returns the padded tensor. *)
Lemma gather_scatter_with_gather_indices {V : Type} `{Dtype V}
    (x : Tensor V) (bh bw B Hd h w D : Z) :
  (∀ v : V, add zero v = v) →
  shape x = [B; Hd; h; w; D] →
  0 < B → 0 < Hd → 0 < h → 0 < w → 0 < D →
  0 < bh → 0 < bw →
  (h + (- h) mod bh) * (w + (- w) mod bw) ≤ 2 ^ 24 →
  ∃ px indices g r,
    t2t.pad_to_multiple_2d x (bh, bw) = Ok px ∧
    t2t.gather_indices_2d px (bh, bw) (bh, bw) = Ok indices ∧
    t2t.gather_blocks_2d px indices = Ok g ∧
    t2t.scatter_blocks_2d g indices (shape px) = Ok r ∧
    tensor_eq r px.
Proof.
  intros Hid Hx HB HHd Hh Hw HD Hbh Hbw Hbound.
  destruct (pad_to_multiple_2d_rank5 x B Hd h w D bh bw Hx Hbh Hbw) as (px & Hpad & Hpx).
  destruct (round_up_least h bh Hbh) as ([oh Hoh] & Hle & _).
  destruct (round_up_least w bw Hbw) as ([ow How] & Hle' & _).
  set (h' := h + (- h) mod bh) in *. set (w' := w + (- w) mod bw) in *.
  assert (Hoh0 : 0 < oh) by nia. assert (How0 : 0 < ow) by nia.
  destruct (gather_indices_2d_bijection px h' w' bh bw)
    as (indices & Hrun & Hsh & Hperm); try done;
    [by rewrite Hpx..|lia|lia|by exists oh|by exists ow|].
  destruct (gather_scatter_identity px indices B Hd h' w' D (h' / bh * (w' / bw)) (bh * bw))
    as (g & r & Hg & Hr & Heq); try done; try lia.
  - rewrite Hoh, How, !Z.div_mul by lia. by apply Z.mul_pos_pos.
  - by exists px, indices, g, r.
Qed.

(** C6: let [x] be a feature map of shape [batch, heads, h, w, channels]
    with positive sizes, [(bh, bw)] a block shape, and let the index tensor,
    of shape [N, K], hold every offset of the padded grid exactly once (a
    bijection onto its flattened spatial range, as the gather indices of
    non-overlapping blocks are).  Then padding [x], gathering the blocks of
    the padded tensor and scattering them back into its shape succeeds and
    returns the padded tensor: same shape, same value at every index.  The
    element type is any one in which adding a value to zero returns that
    value. *)
Theorem gather_scatter_roundtrip {V : Type} `{Dtype V}
    (x : Tensor V) (indices : Tensor Z) (bh bw B Hd h w D N K : Z) :
  (∀ v : V, add zero v = v) →
  shape x = [B; Hd; h; w; D] →
  0 < B → 0 < Hd → 0 < h → 0 < w → 0 < D →
  0 < bh → 0 < bw →
  shape indices = [N; K] → 0 < N → 0 < K →
  flatten indices ≡ₚ seqZ 0 ((h + (- h) mod bh) * (w + (- w) mod bw)) →
  ∃ px g r, t2t.pad_to_multiple_2d x (bh, bw) = Ok px ∧
            t2t.gather_blocks_2d px indices = Ok g ∧
            t2t.scatter_blocks_2d g indices (shape px) = Ok r ∧
            tensor_eq r px.
Proof.
  intros Hid Hx HB HHd Hh Hw HD Hbh Hbw Hidx HN HK Hperm.
  destruct (pad_to_multiple_2d_rank5 x B Hd h w D bh bw Hx Hbh Hbw) as (px & Hpad & Hpx).
  pose proof (Z.mod_pos_bound (- h) bh Hbh) as Hmh.
  pose proof (Z.mod_pos_bound (- w) bw Hbw) as Hmw.
  destruct (gather_scatter_identity px indices B Hd
              (h + (- h) mod bh) (w + (- w) mod bw) D N K)
    as (g & r & Hg & Hr & Heq); try done; try lia.
  by exists px, g, r.
Qed.

Lemma gather_scatter_roundtrip_witness :
  ∃ px g r, t2t.pad_to_multiple_2d Examples.fmap_3x5 (2, 3) = Ok px ∧
            t2t.gather_blocks_2d px Examples.indices_4x6 = Ok g ∧
            t2t.scatter_blocks_2d g Examples.indices_4x6 (shape px) = Ok r ∧
            tensor_eq r px.
Proof.
  apply (gather_scatter_roundtrip Examples.fmap_3x5 Examples.indices_4x6
           2 3 1 1 3 5 2 4 6).
  - intros [a b]. unfold add, zero, Dtype_Q, Qplus. simpl. by rewrite Z.mul_1_r.
  - reflexivity.
  - lia.
  - lia.
  - lia.
  - lia.
  - lia.
  - lia.
  - lia.
  - reflexivity.
  - lia.
  - lia.
  - apply (bool_decide_unpack _). vm_compute. exact I.
Defined.

(** * Further properties of the callbacks *)

(** ** The key a monitor reads *)

Lemma str_split_nonempty (sep : ascii) (s : string) : str_split sep s ≠ [].
Proof.
  destruct s as [|c s]; simpl; [done|].
  destruct (Ascii.eqb c sep); [done|]. by destruct (str_split sep s).
Qed.

Lemma str_split_no_separator (sep : ascii) (s : string) :
  Forall (fun w => sep ∉ list_ascii_of_string w) (str_split sep s).
Proof.
  induction s as [|c s IH]; simpl.
  - repeat constructor. by intros ?%elem_of_nil.
  - destruct (Ascii.eqb c sep) eqn:E.
    + constructor; [by intros ?%elem_of_nil|done].
    + destruct (str_split sep s) as [|w ws]; simpl.
      * repeat constructor. intros [->|?%elem_of_nil]%elem_of_cons; [|done].
        by rewrite Ascii.eqb_refl in E.
      * apply Forall_cons_1 in IH as [Hw Hws]. constructor; [|done].
        simpl. intros [->|?]%elem_of_cons; [|done].
        by rewrite Ascii.eqb_refl in E.
Qed.

Lemma last_elem_of {A : Type} (l : list A) (d : A) : l ≠ [] → List.last l d ∈ l.
Proof.
  induction l as [|x l IH]; [done|]. intros _.
  destruct l as [|y l]; [by left|].
  right. by apply IH.
Qed.

Lemma metric_name_no_underscore (monitor : string) :
  "_"%char ∉ list_ascii_of_string (Callback.metric_name monitor).
Proof.
  unfold Callback.metric_name.
  destruct (String.eqb _ "acc").
  - vm_compute. intros Hin. repeat (apply elem_of_cons in Hin as [Hin|Hin]; [done|]).
    by apply elem_of_nil in Hin.
  - pose proof (str_split_no_separator "_" monitor) as Hall.
    rewrite Forall_forall in Hall. apply Hall.
    apply last_elem_of, str_split_nonempty.
Qed.

(** A metric recorded under a name with an underscore cannot be monitored:
    whatever the monitor, [_get_monitor_value] looks up a key without
    underscore, so on a latest record whose keys all contain one it warns
    and returns [None]. *)
Theorem underscore_metrics_are_never_read
    (self : Callback.t) (m : string) (h : History) (r : record)
    (name : string) (wd : World) :
  Callback.monitor self = Some m →
  latest_record m h = Some r →
  (∀ k, k ∈ dom r → "_"%char ∈ list_ascii_of_string k) →
  Callback._get_monitor_value self h name wd =
    Ok (None, add_warning {| warn_callback := name; warn_monitor := m;
                             warn_available := dom r |} wd).
Proof.
  intros Hm Hr Hkeys. apply get_monitor_value_missing; [done|done|].
  apply not_elem_of_dom. intros Hin.
  by apply (metric_name_no_underscore m), Hkeys.
Qed.

Lemma underscore_metrics_are_never_read_witness :
  Callback._get_monitor_value (Callback.__init__ (Some "val_f1_score"))
    (Some (<["train" := []]> (<["validate" := [ {[ "f1_score" := Fin 1 ]} ]]> ∅)))
    "Early stopping" Examples.world0 =
    Ok (None, add_warning {| warn_callback := "Early stopping";
                             warn_monitor := "val_f1_score";
                             warn_available := dom ({[ "f1_score" := Fin 1 ]} : record) |}
                Examples.world0).
Proof.
  apply (underscore_metrics_are_never_read _ "val_f1_score").
  - reflexivity.
  - vm_compute. reflexivity.
  - intros k Hk. rewrite dom_singleton_L in Hk. apply elem_of_singleton in Hk as ->.
    vm_compute. do 2 right. by left.
Defined.

(** ** What early stopping keeps and what it never touches *)

Lemma early_stopping_epoch_frame (es es' : EarlyStopping.t) (e : Z) (h : History)
    (wd wd' : World) :
  EarlyStopping.on_epoch_end es e h wd = Ok (es', wd') →
  EarlyStopping.base es' = EarlyStopping.base es ∧
  EarlyStopping.patience es' = EarlyStopping.patience es ∧
  files wd' = files wd ∧ dirs wd' = dirs wd ∧ io wd' = io wd ∧
  to_yaml (model wd') = to_yaml (model wd) ∧
  weights (model wd') = weights (model wd) ∧
  (stop_training (model wd) = true → stop_training (model wd') = true) ∧
  (∃ ws, log wd' = ws ++ log wd) ∧
  (∀ op b, Callback.monitor_op (EarlyStopping.base es) = Some op →
           EarlyStopping.best es = Some b →
           ∃ b', EarlyStopping.best es' = Some b' ∧ no_worse op b b').
Proof.
  intros Hrun. unfold EarlyStopping.on_epoch_end in Hrun.
  destruct (Callback.has_model (EarlyStopping.base es)); simpl in Hrun; [|done].
  unfold bindM at 1 in Hrun.
  destruct (Callback._get_monitor_value _ _ _ _) as [[score wd1]|] eqn:Hgmv; [|done].
  assert (Hwd1 : wd1 = wd ∨ ∃ wn, wd1 = add_warning wn wd).
  { unfold Callback._get_monitor_value, bindM, lift, getitem in Hgmv.
    destruct (Callback.monitor (EarlyStopping.base es)); simpl in Hgmv; [|done].
    destruct (history_or_default h !! _); simpl in Hgmv; [|done].
    destruct (last l); simpl in Hgmv; [|done].
    destruct (g !! _); simpl in Hgmv.
    - injection Hgmv as _ <-. by left.
    - unfold logger_warning, pure in Hgmv. injection Hgmv as _ <-. right. eauto. }
  assert (Hframe1 : files wd1 = files wd ∧ dirs wd1 = dirs wd ∧ io wd1 = io wd ∧
                    model wd1 = model wd ∧ ∃ ws, log wd1 = ws ++ log wd).
  { destruct Hwd1 as [->|[wn ->]]; split_and!; try done;
      [by exists []|by exists [wn]]. }
  destruct Hframe1 as (Hf & Hd & Hio & Hmodel & Hlog).
  destruct score as [s|].
  - unfold bindM, lift, pure, set_stop_training in Hrun.
    destruct (Callback.monitor_op (EarlyStopping.base es)) as [op|] eqn:Hop;
      simpl in Hrun; [|done].
    destruct (EarlyStopping.best es) as [b|] eqn:Hb; simpl in Hrun; [|done].
    destruct (np.call op s b) eqn:Hcall; simpl in Hrun.
    + destruct (EarlyStopping.patience es <=? 0); injection Hrun as <- <-; simpl;
        rewrite ?Hmodel; split_and!; try done;
        intros op' b0 [= <-] [= <-]; exists s; split; [done|by right| done|by right].
    + destruct (EarlyStopping.wait es) as [w|]; simpl in Hrun; [|done].
      destruct (EarlyStopping.patience es <=? w + 1); injection Hrun as <- <-; simpl;
        rewrite ?Hmodel; split_and!; try done;
        intros op' b0 [= <-] [= <-]; exists b; split; [done|by left|done|by left].
  - injection Hrun as <- <-. rewrite Hmodel. split_and!; try done.
    intros op b _ Hb. exists b. split; [done|by left].
Qed.

(** Over any number of epochs that [on_epoch_end] gets through, early
    stopping leaves the files, the directories, the I/O trace and the
    model's architecture and weights alone, only adds to the log, and never
    clears a stop signal that is set. *)
Theorem early_stopping_frame (hs : list History) (es es' : EarlyStopping.t) (e : Z)
    (wd wd' : World) :
  run_epochs es e hs wd = Ok (es', wd') →
  files wd' = files wd ∧ dirs wd' = dirs wd ∧ io wd' = io wd ∧
  to_yaml (model wd') = to_yaml (model wd) ∧
  weights (model wd') = weights (model wd) ∧
  (stop_training (model wd) = true → stop_training (model wd') = true) ∧
  (∃ ws, log wd' = ws ++ log wd).
Proof.
  revert es e wd. induction hs as [|h hs IH]; intros es e wd; simpl.
  - intros [= <- <-]. split_and!; try done. by exists [].
  - unfold bindM at 1.
    destruct (EarlyStopping.on_epoch_end es e h wd) as [[es1 wd1]|] eqn:E; [|done].
    intros Hrun.
    destruct (early_stopping_epoch_frame _ _ _ _ _ _ E)
      as (_ & _ & Hf & Hd & Hio & Hy & Hw & Hstop & [ws1 Hlog] & _).
    destruct (IH _ _ _ Hrun) as (Hf' & Hd' & Hio' & Hy' & Hw' & Hstop' & [ws2 Hlog']).
    split_and!; try congruence; [auto|].
    exists (ws2 ++ ws1). rewrite Hlog', Hlog. by rewrite app_assoc.
Qed.

(** Over any number of epochs the running best of early stopping never
    gets worse: it is the best it started with, or a score strictly better
    for the comparator. *)
Theorem early_stopping_best_never_worsens (hs : list History)
    (es es' : EarlyStopping.t) (op : np.ufunc) (b : scalar) (e : Z) (wd wd' : World) :
  run_epochs es e hs wd = Ok (es', wd') →
  Callback.monitor_op (EarlyStopping.base es) = Some op →
  EarlyStopping.best es = Some b →
  ∃ b', EarlyStopping.best es' = Some b' ∧ no_worse op b b'.
Proof.
  revert es b e wd. induction hs as [|h hs IH]; intros es b e wd; simpl.
  - intros [= <- <-] _ Hb. exists b. split; [done|by left].
  - unfold bindM at 1.
    destruct (EarlyStopping.on_epoch_end es e h wd) as [[es1 wd1]|] eqn:E; [|done].
    intros Hrun Hop Hb.
    destruct (early_stopping_epoch_frame _ _ _ _ _ _ E)
      as (Hbase & _ & _ & _ & _ & _ & _ & _ & _ & Hbest).
    destruct (Hbest op b Hop Hb) as (b1 & Hb1 & Hnw1).
    destruct (IH es1 b1 _ _ Hrun) as (b' & Hb' & Hnw'); [by rewrite Hbase|done|].
    exists b'. split; [done|].
    destruct Hnw1 as [->|H1]; [done|].
    destruct Hnw' as [->|H2]; [by right|].
    right. by apply (call_trans op b' b1 b).
Qed.

Lemma early_stopping_frame_witness :
  ∃ es' wd',
    run_epochs Examples.es_patience1 0
      [Examples.val_losses [1%Q]; Examples.val_losses [1%Q; 2%Q]] Examples.world0
      = Ok (es', wd') ∧
    (files wd' = files Examples.world0 ∧ dirs wd' = dirs Examples.world0 ∧
     io wd' = io Examples.world0 ∧
     to_yaml (model wd') = to_yaml (model Examples.world0) ∧
     weights (model wd') = weights (model Examples.world0) ∧
     (stop_training (model Examples.world0) = true → stop_training (model wd') = true) ∧
     (∃ ws, log wd' = ws ++ log Examples.world0)).
Proof.
  eexists _, _. split; [vm_compute; reflexivity|].
  eapply (early_stopping_frame
            [Examples.val_losses [1%Q]; Examples.val_losses [1%Q; 2%Q]]
            Examples.es_patience1 _ 0 Examples.world0).
  vm_compute. reflexivity.
Defined.

Lemma early_stopping_best_never_worsens_witness :
  ∃ es' wd',
    run_epochs Examples.es_patience1 0
      [Examples.val_losses [1%Q]; Examples.val_losses [1%Q; 2%Q]] Examples.world0
      = Ok (es', wd') ∧
    ∃ b', EarlyStopping.best es' = Some b' ∧ no_worse np.np_less np.Inf b'.
Proof.
  eexists _, _. split; [vm_compute; reflexivity|].
  eapply (early_stopping_best_never_worsens
            [Examples.val_losses [1%Q]; Examples.val_losses [1%Q; 2%Q]]
            Examples.es_patience1 _ np.np_less np.Inf 0 Examples.world0).
  - vm_compute. reflexivity.
  - reflexivity.
  - reflexivity.
Defined.

(** ** Scores that are no improvement *)

Lemma call_irrefl (op : np.ufunc) (b : scalar) : np.call op b b = false.
Proof.
  destruct (np.call op b b) eqn:E; [|done].
  by rewrite (call_asym op b b E) in E.
Qed.

Lemma call_nan (op : np.ufunc) (b : scalar) : np.call op NaN b = false.
Proof. destruct op, b; reflexivity. Qed.

(** A score that is NaN, or equal to the running best, is no improvement:
    early stopping counts the epoch as a wait and keeps its best, and a
    checkpoint that saves the best only saves nothing and changes
    nothing. *)
Theorem stale_score_is_no_improvement
    (m : string) (op : np.ufunc) (b s : scalar) (e : Z) (h : History) (wd : World) :
  latest_metric m h = Some s →
  s = NaN ∨ s = b →
  (∀ (es : EarlyStopping.t) (w0 : Z),
     Callback.has_model (EarlyStopping.base es) = true →
     Callback.monitor (EarlyStopping.base es) = Some m →
     Callback.monitor_op (EarlyStopping.base es) = Some op →
     EarlyStopping.best es = Some b →
     EarlyStopping.wait es = Some w0 →
     ∃ es' wd',
       EarlyStopping.on_epoch_end es e h wd = Ok (es', wd') ∧
       EarlyStopping.wait es' = Some (w0 + 1) ∧
       EarlyStopping.best es' = Some b) ∧
  (∀ mc : ModelCheckpoint.t,
     ModelCheckpoint.save_best_only mc = true →
     Callback.monitor (ModelCheckpoint.base mc) = Some m →
     Callback.monitor_op (ModelCheckpoint.base mc) = Some op →
     ModelCheckpoint.best mc = Some b →
     ModelCheckpoint.on_epoch_end mc e h wd = Ok (mc, wd)).
Proof.
  intros Hs Hstale.
  assert (Hcall : np.call op s b = false).
  { destruct Hstale as [->| ->]; [apply call_nan|apply call_irrefl]. }
  split.
  - intros es w0 Hmod Hm Hop Hb Hw.
    rewrite (early_stopping_step es m op b s w0 e h wd Hmod Hm Hop Hb Hw Hs).
    rewrite Hcall.
    destruct (EarlyStopping.patience es <=? w0 + 1); eexists _, _; done.
  - intros mc Hbest Hm Hop Hb.
    unfold ModelCheckpoint.on_epoch_end. rewrite Hbest. unfold bindM at 1.
    rewrite (get_monitor_value_present _ m h _ s wd Hm Hs).
    unfold bindM, lift. rewrite Hop, Hb. simpl. by rewrite Hcall.
Qed.

Lemma stale_score_is_no_improvement_witness :
  ModelCheckpoint.on_epoch_end Examples.mc_best 7 (Examples.val_accuracy (1 # 2))
    Examples.world0 = Ok (Examples.mc_best, Examples.world0).
Proof.
  refine (proj2 (stale_score_is_no_improvement "val_acc" np.np_greater
                   (Fin (1 # 2)) (Fin (1 # 2)) 7 (Examples.val_accuracy (1 # 2))
                   Examples.world0 _ _) Examples.mc_best _ _ _ _).
  - vm_compute. reflexivity.
  - right. reflexivity.
  - reflexivity.
  - reflexivity.
  - reflexivity.
  - reflexivity.
Defined.

(** ** Calls out of order *)

(** [on_epoch_end] of early stopping asserts the model first: without a
    model it fails with an assertion error, whatever the history and the
    state.  With a model but before [on_train_begin], a record that holds
    the metric makes it fail on the missing attribute [best]. *)
Theorem early_stopping_before_setup
    (es : EarlyStopping.t) (e : Z) (h : History) (wd : World) :
  (Callback.has_model (EarlyStopping.base es) = false →
   EarlyStopping.on_epoch_end es e h wd = Raise AssertionError) ∧
  (∀ m op s,
     Callback.has_model (EarlyStopping.base es) = true →
     Callback.monitor (EarlyStopping.base es) = Some m →
     Callback.monitor_op (EarlyStopping.base es) = Some op →
     EarlyStopping.best es = None →
     latest_metric m h = Some s →
     EarlyStopping.on_epoch_end es e h wd = Raise (AttributeError "best")).
Proof.
  split.
  - intros Hmod. unfold EarlyStopping.on_epoch_end. by rewrite Hmod.
  - intros m op s Hmod Hm Hop Hb Hs.
    unfold EarlyStopping.on_epoch_end. rewrite Hmod. simpl. unfold bindM at 1.
    rewrite (get_monitor_value_present _ m h _ s wd Hm Hs).
    unfold bindM, lift. by rewrite Hop, Hb.
Qed.

Lemma early_stopping_before_setup_witness :
  EarlyStopping.on_epoch_end Examples.es_patience0 0 (Examples.val_losses [1%Q])
    Examples.world0 = Raise (AttributeError "best").
Proof.
  refine (proj2 (early_stopping_before_setup Examples.es_patience0 0
                   (Examples.val_losses [1%Q]) Examples.world0)
            "val_loss" np.np_less (Fin 1) _ _ _ _ _).
  - reflexivity.
  - reflexivity.
  - reflexivity.
  - reflexivity.
  - vm_compute. reflexivity.
Defined.

(** Reading the metric fails on a callback constructed without a monitor
    (no attribute [monitor]) and on a history that is a non-empty
    dictionary without the selected stream (key error); the empty
    dictionary counts as no history. *)
Theorem get_monitor_value_errors (self : Callback.t) (name : string) (wd : World) :
  (∀ h, Callback.monitor self = None →
        Callback._get_monitor_value self h name wd = Raise (AttributeError "monitor")) ∧
  (∀ m streams,
     Callback.monitor self = Some m →
     streams ≠ ∅ → streams !! Callback.stream m = None →
     Callback._get_monitor_value self (Some streams) name wd
       = Raise (KeyError (Callback.stream m))) ∧
  (∀ m, Callback.monitor self = Some m →
        Callback._get_monitor_value self (Some ∅) name wd
          = Callback._get_monitor_value self None name wd).
Proof.
  split_and!.
  - intros h Hm. unfold Callback._get_monitor_value, bindM, lift. by rewrite Hm.
  - intros m streams Hm Hne Hnone.
    unfold Callback._get_monitor_value, bindM, lift, getitem, history_or_default.
    rewrite Hm. simpl. rewrite bool_decide_eq_false_2 by done. by rewrite Hnone.
  - intros m Hm. unfold Callback._get_monitor_value, history_or_default.
    by rewrite bool_decide_eq_true_2.
Qed.

Lemma get_monitor_value_errors_witness :
  Callback._get_monitor_value (Callback.__init__ (Some "val_loss"))
    (Some {[ "train" := [] ]}) "Early stopping" Examples.world0
    = Raise (KeyError (Callback.stream "val_loss")).
Proof.
  refine (proj1 (proj2 (get_monitor_value_errors (Callback.__init__ (Some "val_loss"))
                          "Early stopping" Examples.world0))
            "val_loss" {[ "train" := [] ]} _ _ _).
  - reflexivity.
  - apply (bool_decide_unpack _). vm_compute. exact I.
  - vm_compute. reflexivity.
Defined.

(** ** The report at the end of training *)

(** When an epoch sets the stop signal, [on_train_end] reports the early
    stop only if that epoch is positive: a stop at epoch zero is recorded
    as [stopped_epoch = 0] and goes unreported. *)
Theorem early_stop_report
    (es : EarlyStopping.t) (m : string) (op : np.ufunc) (b s : scalar)
    (w0 e : Z) (h : History) (wd : World) :
  Callback.has_model (EarlyStopping.base es) = true →
  Callback.monitor (EarlyStopping.base es) = Some m →
  Callback.monitor_op (EarlyStopping.base es) = Some op →
  EarlyStopping.best es = Some b →
  EarlyStopping.wait es = Some w0 →
  latest_metric m h = Some s →
  EarlyStopping.patience es ≤ (if np.call op s b then 0 else w0 + 1) →
  ∃ es' wd',
    EarlyStopping.on_epoch_end es e h wd = Ok (es', wd') ∧
    stop_training (model wd') = true ∧
    EarlyStopping.on_train_end es' =
      if 0 <? e then ["Early stopped training"] else [].
Proof.
  intros Hmod Hm Hop Hb Hw Hs Hp.
  rewrite (early_stopping_step es m op b s w0 e h wd Hmod Hm Hop Hb Hw Hs).
  apply Z.leb_le in Hp. rewrite Hp. eexists _, _. done.
Qed.

Lemma early_stop_report_witness :
  ∃ es' wd',
    EarlyStopping.on_epoch_end Examples.es_patience0_begun 0
      (Examples.val_losses [3%Q]) Examples.world0 = Ok (es', wd') ∧
    stop_training (model wd') = true ∧
    EarlyStopping.on_train_end es' =
      if 0 <? 0 then ["Early stopped training"] else [].
Proof.
  apply (early_stop_report Examples.es_patience0_begun "val_loss" np.np_less
           np.Inf (Fin 3) 0 0).
  - reflexivity.
  - reflexivity.
  - reflexivity.
  - reflexivity.
  - reflexivity.
  - vm_compute. reflexivity.
  - vm_compute. discriminate.
Defined.

Lemma on_epoch_end_stopped_epoch (es es' : EarlyStopping.t) (e : Z) (h : History)
    (wd wd' : World) :
  EarlyStopping.on_epoch_end es e h wd = Ok (es', wd') →
  stop_training (model wd') = false →
  EarlyStopping.stopped_epoch es' = EarlyStopping.stopped_epoch es ∧
  stop_training (model wd) = false.
Proof.
  intros Hrun Hstop. unfold EarlyStopping.on_epoch_end in Hrun.
  destruct (Callback.has_model (EarlyStopping.base es)); simpl in Hrun; [|done].
  unfold bindM at 1 in Hrun.
  destruct (Callback._get_monitor_value _ _ _ _) as [[score wd1]|] eqn:Hgmv; [|done].
  assert (Hmodel : model wd1 = model wd).
  { unfold Callback._get_monitor_value, bindM, lift, getitem in Hgmv.
    destruct (Callback.monitor (EarlyStopping.base es)); simpl in Hgmv; [|done].
    destruct (history_or_default h !! _); simpl in Hgmv; [|done].
    destruct (last l); simpl in Hgmv; [|done].
    destruct (g !! _); simpl in Hgmv.
    - by injection Hgmv as _ <-.
    - unfold logger_warning, pure in Hgmv. by injection Hgmv as _ <-. }
  destruct score as [s|].
  - unfold bindM, lift, pure, set_stop_training in Hrun.
    destruct (Callback.monitor_op (EarlyStopping.base es)) as [op|];
      simpl in Hrun; [|done].
    destruct (EarlyStopping.best es) as [b|]; simpl in Hrun; [|done].
    destruct (np.call op s b); simpl in Hrun.
    + destruct (EarlyStopping.patience es <=? 0); injection Hrun as <- <-;
        simpl in *; [done|]. by rewrite <- Hmodel.
    + destruct (EarlyStopping.wait es) as [w|]; simpl in Hrun; [|done].
      destruct (EarlyStopping.patience es <=? w + 1); injection Hrun as <- <-;
        simpl in *; [done|]. by rewrite <- Hmodel.
  - injection Hrun as <- <-. by rewrite <- Hmodel.
Qed.

Lemma run_epochs_stop_monotone (hs : list History) (es es' : EarlyStopping.t) (e : Z)
    (wd wd' : World) :
  run_epochs es e hs wd = Ok (es', wd') →
  stop_training (model wd) = true → stop_training (model wd') = true.
Proof.
  revert es e wd. induction hs as [|h hs IH]; intros es e wd; simpl.
  - by intros [= <- <-].
  - unfold bindM at 1.
    destruct (EarlyStopping.on_epoch_end es e h wd) as [[es1 wd1]|] eqn:E; [|done].
    intros Hrun Hstop.
    destruct (early_stopping_epoch_frame _ _ _ _ _ _ E)
      as (_ & _ & _ & _ & _ & _ & _ & Hmono & _).
    eapply IH; [exact Hrun|]. by apply Hmono.
Qed.

(** [on_train_begin] resets the wait and the best but not [stopped_epoch],
    and [on_epoch_end] assigns it only when it sets the stop signal.  So a
    callback that stopped an earlier training at a positive epoch, begun
    again and run through a training that ends without the stop signal,
    still reports an early stop in [on_train_end]. *)
Theorem stale_early_stop_report
    (es es0 es' : EarlyStopping.t) (hs : list History) (e : Z) (wd wd' : World) :
  0 < EarlyStopping.stopped_epoch es →
  EarlyStopping.on_train_begin es = Ok es0 →
  run_epochs es0 e hs wd = Ok (es', wd') →
  stop_training (model wd') = false →
  EarlyStopping.on_train_end es' = ["Early stopped training"].
Proof.
  intros Hstopped Hbegin Hrun Hstop.
  assert (Hkeep : EarlyStopping.stopped_epoch es' = EarlyStopping.stopped_epoch es0).
  { clear Hbegin Hstopped. revert es0 e wd Hrun.
    induction hs as [|h hs IH]; intros es0 e wd; simpl.
    - by intros [= <- <-].
    - unfold bindM at 1.
      destruct (EarlyStopping.on_epoch_end es0 e h wd) as [[es1 wd1]|] eqn:E; [|done].
      intros Hrun.
      assert (Hstop1 : stop_training (model wd1) = false).
      { destruct (stop_training (model wd1)) eqn:E1; [|done].
        by rewrite (run_epochs_stop_monotone _ _ _ _ _ _ Hrun E1) in Hstop. }
      destruct (on_epoch_end_stopped_epoch _ _ _ _ _ _ E Hstop1) as [<- _].
      by eapply IH. }
  unfold EarlyStopping.on_train_begin in Hbegin.
  destruct (Callback.monitor_op (EarlyStopping.base es)); simpl in Hbegin; [|done].
  injection Hbegin as <-. unfold EarlyStopping.on_train_end. rewrite Hkeep. simpl.
  by apply Z.ltb_lt in Hstopped as ->.
Qed.

Lemma stale_early_stop_report_witness :
  ∃ es',
    run_epochs
      {| EarlyStopping.base := EarlyStopping.base Examples.es_patience1;
         EarlyStopping.patience := 1; EarlyStopping.stopped_epoch := 4;
         EarlyStopping.wait := Some 0; EarlyStopping.best := Some np.Inf |}
      0 [Examples.val_losses [3%Q]; Examples.val_losses [3%Q; 2%Q]] Examples.world0 =
      Ok (es', Examples.world0) ∧
    EarlyStopping.on_train_end es' = ["Early stopped training"].
Proof.
  eexists. split; [vm_compute; reflexivity|].
  eapply (stale_early_stop_report
            {| EarlyStopping.base := EarlyStopping.base Examples.es_patience1;
               EarlyStopping.patience := 1; EarlyStopping.stopped_epoch := 4;
               EarlyStopping.wait := Some 3; EarlyStopping.best := Some (Fin 1) |}
            _ _ [Examples.val_losses [3%Q]; Examples.val_losses [3%Q; 2%Q]]
            0 Examples.world0 Examples.world0).
  - reflexivity.
  - reflexivity.
  - vm_compute. reflexivity.
  - reflexivity.
Defined.

(** ** Checkpoints *)

(** What the file operations leave behind, read off a successful call. *)
Lemma ensure_path_exists_frame (fp : string) (w w' : World) :
  ensure_path_exists fp w = Ok (tt, w') →
  model w' = model w ∧ log w' = log w ∧ files w' = files w ∧
  (io w' = io w ∧ dirs w' = dirs w ∨ io w' = MakeDirs fp :: io w).
Proof.
  unfold ensure_path_exists, makedirs.
  destruct (path_exists fp w).
  - intros [= <-]. split_and!; auto.
  - destruct (makedirs_error fp w); [done|]. intros [= <-]. split_and!; auto.
Qed.

Lemma write_file_frame (path content : string) (w w' : World) :
  write_file path content w = Ok (tt, w') →
  model w' = model w ∧ log w' = log w ∧ dirs w' = dirs w ∧
  files w' = <[path := content]> (files w) ∧
  io w' = WriteFile path content :: io w.
Proof.
  unfold write_file. destruct (open_error path w); [done|]. by intros [= <-].
Qed.

(** What a save leaves behind, read off a successful call. *)
Lemma save_model_inv (mc mc' : ModelCheckpoint.t) (wd wd' : World) :
  ModelCheckpoint._save_model mc wd = Ok (mc', wd') →
  let fp := ModelCheckpoint.filepath mc in
  mc' = {| ModelCheckpoint.base := ModelCheckpoint.base mc;
           ModelCheckpoint.filepath := fp;
           ModelCheckpoint.save_best_only := ModelCheckpoint.save_best_only mc;
           ModelCheckpoint.save_weights_only := ModelCheckpoint.save_weights_only mc;
           ModelCheckpoint.best := ModelCheckpoint.best mc;
           ModelCheckpoint._path_checked := true |} ∧
  model wd' = model wd ∧ log wd' = log wd ∧
  ∃ mk, (mk = [] ∧ dirs wd' = dirs wd ∨
         mk = [MakeDirs fp] ∧ ModelCheckpoint._path_checked mc = false) ∧
        io wd' =
          WriteFile (path_join fp "weights.h5") (weights (model wd))
          :: (if ModelCheckpoint.save_weights_only mc then []
              else [WriteFile (path_join fp "arch.yaml") (to_yaml (model wd))])
          ++ mk ++ io wd.
Proof.
  destruct mc as [b fp sbo swo bst chk]. intros Hsave fp'. subst fp'.
  cbn [ModelCheckpoint.filepath ModelCheckpoint._path_checked
    ModelCheckpoint.save_weights_only ModelCheckpoint.base ModelCheckpoint.best
    ModelCheckpoint.save_best_only].
  unfold ModelCheckpoint._save_model in Hsave. unfold bindM at 1 in Hsave.
  assert (Hens : ∀ self w1,
    ModelCheckpoint._ensure_path_exists
      {| ModelCheckpoint.base := b; ModelCheckpoint.filepath := fp;
         ModelCheckpoint.save_best_only := sbo; ModelCheckpoint.save_weights_only := swo;
         ModelCheckpoint.best := bst; ModelCheckpoint._path_checked := chk |} wd =
      Ok (self, w1) →
    self = {| ModelCheckpoint.base := b; ModelCheckpoint.filepath := fp;
              ModelCheckpoint.save_best_only := sbo;
              ModelCheckpoint.save_weights_only := swo;
              ModelCheckpoint.best := bst; ModelCheckpoint._path_checked := true |} ∧
    model w1 = model wd ∧ log w1 = log wd ∧
    ∃ mk, (mk = [] ∧ dirs w1 = dirs wd ∨ mk = [MakeDirs fp] ∧ chk = false) ∧
          io w1 = mk ++ io wd).
  { intros self w1. unfold ModelCheckpoint._ensure_path_exists.
    cbn [ModelCheckpoint.filepath ModelCheckpoint._path_checked
      ModelCheckpoint.save_weights_only ModelCheckpoint.base ModelCheckpoint.best
      ModelCheckpoint.save_best_only].
    destruct chk.
    - intros [= <- <-]. split_and!; try done. exists []. auto.
    - unfold bindM, pure.
      destruct (ensure_path_exists fp wd) as [[[] w2]|] eqn:E; [|done].
      intros [= <- <-].
      destruct (ensure_path_exists_frame _ _ _ E) as (Hm & Hl & _ & Hio).
      split_and!; try done.
      destruct Hio as [[Hio Hd]|Hio]; [exists []|exists [MakeDirs fp]]; auto. }
  destruct (ModelCheckpoint._ensure_path_exists _ wd) as [[self w1]|] eqn:E; [|done].
  destruct (Hens _ _ eq_refl) as (-> & Hm1 & Hl1 & mk & Hmk & Hio1).
  cbn [ModelCheckpoint.filepath ModelCheckpoint._path_checked
    ModelCheckpoint.save_weights_only ModelCheckpoint.base ModelCheckpoint.best
    ModelCheckpoint.save_best_only] in Hsave.
  unfold bindM, pure, throw, save_weights, write_yaml in Hsave.
  destruct (Callback.has_model b); [|by destruct swo].
  destruct swo; cbn [negb] in Hsave.
  - destruct (write_file _ _ w1) as [[[] w2]|] eqn:Ew; [|done].
    injection Hsave as <- <-.
    destruct (write_file_frame _ _ _ _ Ew) as (Hm2 & Hl2 & Hd2 & _ & Hio2).
    split_and!; [done|congruence|congruence|].
    exists mk. split.
    + destruct Hmk as [[-> Hd]|[-> ->]]; [left|right]; split; congruence.
    + rewrite Hio2, Hio1, Hm1. done.
  - destruct (write_file _ _ w1) as [[[] w2]|] eqn:Ea; [|done].
    destruct (write_file _ _ w2) as [[[] w3]|] eqn:Ew; [|done].
    injection Hsave as <- <-.
    destruct (write_file_frame _ _ _ _ Ea) as (Hm2 & Hl2 & Hd2 & _ & Hio2).
    destruct (write_file_frame _ _ _ _ Ew) as (Hm3 & Hl3 & Hd3 & _ & Hio3).
    split_and!; [done|congruence|congruence|].
    exists mk. split.
    + destruct Hmk as [[-> Hd]|[-> ->]]; [left|right]; split; congruence.
    + rewrite Hio3, Hio2, Hio1, Hm2, Hm1. done.
Qed.

Lemma save_model_frame (mc mc' : ModelCheckpoint.t) (wd wd' : World) :
  ModelCheckpoint._save_model mc wd = Ok (mc', wd') →
  ModelCheckpoint._path_checked mc' = true ∧
  ModelCheckpoint.base mc' = ModelCheckpoint.base mc ∧
  ModelCheckpoint.filepath mc' = ModelCheckpoint.filepath mc ∧
  ModelCheckpoint.save_best_only mc' = ModelCheckpoint.save_best_only mc ∧
  ModelCheckpoint.save_weights_only mc' = ModelCheckpoint.save_weights_only mc ∧
  ModelCheckpoint.best mc' = ModelCheckpoint.best mc ∧
  model wd' = model wd ∧ log wd' = log wd ∧
  ∃ evs, io wd' = evs ++ io wd ∧
         (length (filter is_makedirs evs) ≤ 1)%nat ∧
         (ModelCheckpoint._path_checked mc = true → filter is_makedirs evs = [] ∧
                                                     dirs wd' = dirs wd).
Proof.
  intros Hsave.
  destruct (save_model_inv _ _ _ _ Hsave) as (-> & Hm & Hl & mk & Hmk & Hio).
  split_and!; try done.
  eexists. split; [rewrite Hio; by rewrite app_comm_cons, app_assoc|].
  destruct Hmk as [[-> Hd]|[-> Hc]];
    destruct (ModelCheckpoint.save_weights_only mc); simpl;
    split; try lia; try done; intros; congruence.
Qed.

Lemma get_monitor_value_frame (self : Callback.t) (h : History) (name : string)
    (r : option scalar) (wd wd' : World) :
  Callback._get_monitor_value self h name wd = Ok (r, wd') →
  wd' = wd ∨ ∃ wn, wd' = add_warning wn wd.
Proof.
  unfold Callback._get_monitor_value, bindM, lift, getitem. intros Hgmv.
  destruct (Callback.monitor self); simpl in Hgmv; [|done].
  destruct (history_or_default h !! _); simpl in Hgmv; [|done].
  destruct (last l); simpl in Hgmv; [|done].
  destruct (g !! _); simpl in Hgmv.
  - injection Hgmv as _ <-. by left.
  - unfold logger_warning, pure in Hgmv. injection Hgmv as _ <-. right. eauto.
Qed.

Lemma save_model_events (mc mc' : ModelCheckpoint.t) (wd wd' : World) :
  ModelCheckpoint._save_model mc wd = Ok (mc', wd') →
  ∃ evs, io wd' = evs ++ io wd ∧
         Forall (checkpoint_event (ModelCheckpoint.filepath mc)) evs.
Proof.
  intros Hsave.
  destruct (save_model_inv _ _ _ _ Hsave) as (_ & _ & _ & mk & Hmk & Hio).
  eexists. split; [rewrite Hio; by rewrite app_comm_cons, app_assoc|].
  destruct Hmk as [[-> _]|[-> _]];
    destruct (ModelCheckpoint.save_weights_only mc); simpl;
    repeat apply Forall_cons_2; try apply Forall_nil; simpl; auto.
Qed.

Lemma checkpoint_epoch_frame (mc mc' : ModelCheckpoint.t) (e : Z) (h : History)
    (wd wd' : World) :
  ModelCheckpoint.on_epoch_end mc e h wd = Ok (mc', wd') →
  ModelCheckpoint.filepath mc' = ModelCheckpoint.filepath mc ∧
  model wd' = model wd ∧
  (ModelCheckpoint._path_checked mc = true →
   ModelCheckpoint._path_checked mc' = true) ∧
  ∃ evs, io wd' = evs ++ io wd ∧
         Forall (checkpoint_event (ModelCheckpoint.filepath mc)) evs ∧
         (length (filter is_makedirs evs) ≤ 1)%nat ∧
         (ModelCheckpoint._path_checked mc = true →
          filter is_makedirs evs = [] ∧ dirs wd' = dirs wd) ∧
         (ModelCheckpoint._path_checked mc' = false → evs = []).
Proof.
  assert (Hsave : ∀ mc0 wd0,
    ModelCheckpoint._save_model mc0 wd0 = Ok (mc', wd') →
    ModelCheckpoint.filepath mc' = ModelCheckpoint.filepath mc0 ∧
    model wd' = model wd0 ∧
    ModelCheckpoint._path_checked mc' = true ∧
    ∃ evs, io wd' = evs ++ io wd0 ∧
           Forall (checkpoint_event (ModelCheckpoint.filepath mc0)) evs ∧
           (length (filter is_makedirs evs) ≤ 1)%nat ∧
           (ModelCheckpoint._path_checked mc0 = true →
            filter is_makedirs evs = [] ∧ dirs wd' = dirs wd0)).
  { intros mc0 wd0 Hs.
    destruct (save_model_frame _ _ _ _ Hs)
      as (Hchk & _ & Hfp & _ & _ & _ & Hmodel & _ & evs & Hio & Hlen & Hdirs).
    destruct (save_model_events _ _ _ _ Hs) as (evs' & Hio' & Hev).
    assert (evs' = evs) as -> by (apply (app_inv_tail (io wd0)); congruence).
    split_and!; try done. by exists evs. }
  unfold ModelCheckpoint.on_epoch_end.
  destruct (ModelCheckpoint.save_best_only mc).
  - unfold bindM at 1.
    destruct (Callback._get_monitor_value _ _ _ _) as [[score wd1]|] eqn:Hgmv; [|done].
    apply get_monitor_value_frame in Hgmv.
    assert (Hwd1 : model wd1 = model wd ∧ io wd1 = io wd ∧ dirs wd1 = dirs wd).
    { by destruct Hgmv as [->|[wn ->]]. }
    destruct Hwd1 as (Hm1 & Hio1 & Hd1).
    assert (Hskip : Ok (mc, wd1) = Ok (mc', wd') →
      ModelCheckpoint.filepath mc' = ModelCheckpoint.filepath mc ∧
      model wd' = model wd ∧
      (ModelCheckpoint._path_checked mc = true →
       ModelCheckpoint._path_checked mc' = true) ∧
      ∃ evs, io wd' = evs ++ io wd ∧
             Forall (checkpoint_event (ModelCheckpoint.filepath mc)) evs ∧
             (length (filter is_makedirs evs) ≤ 1)%nat ∧
             (ModelCheckpoint._path_checked mc = true →
              filter is_makedirs evs = [] ∧ dirs wd' = dirs wd) ∧
             (ModelCheckpoint._path_checked mc' = false → evs = [])).
    { intros [= <- <-]. split_and!; try done. exists []. simpl.
      split_and!; try done. lia. }
    destruct score as [s|]; [|exact Hskip].
    unfold bindM, lift.
    destruct (Callback.monitor_op (ModelCheckpoint.base mc)); simpl; [|done].
    destruct (ModelCheckpoint.best mc); simpl; [|done].
    destruct (np.call u s s0); [|exact Hskip].
    intros Hs. destruct (Hsave _ _ Hs) as (Hfp & Hmodel & Hchk & evs & Hio & Hev & Hlen & Hd).
    simpl in *. split_and!; try congruence.
    exists evs. split_and!; try congruence.
    intros Hc. destruct (Hd Hc). split; congruence.
  - intros Hs. destruct (Hsave _ _ Hs) as (Hfp & Hmodel & Hchk & evs & Hio & Hev & Hlen & Hd).
    split_and!; try done. exists evs. split_and!; try done. congruence.
Qed.

(** Over any number of epochs that [on_epoch_end] gets through, a
    checkpoint leaves the model as it is, produces only events of its own
    directory ([makedirs] of the directory, writes of [arch.yaml] and
    [weights.h5] in it), and creates the directory at most once; a
    checkpoint whose path was checked before creates nothing. *)
Theorem checkpoint_creates_directory_once (hs : list History)
    (mc mc' : ModelCheckpoint.t) (e : Z) (wd wd' : World) :
  run_checkpoint_epochs mc e hs wd = Ok (mc', wd') →
  model wd' = model wd ∧
  ∃ evs, io wd' = evs ++ io wd ∧
         Forall (checkpoint_event (ModelCheckpoint.filepath mc)) evs ∧
         (length (filter is_makedirs evs) ≤ 1)%nat ∧
         (ModelCheckpoint._path_checked mc = true →
          filter is_makedirs evs = [] ∧ dirs wd' = dirs wd).
Proof.
  revert mc e wd. induction hs as [|h hs IH]; intros mc e wd; simpl.
  - intros [= <- <-]. split; [done|]. exists []. simpl. split_and!; try done. lia.
  - unfold bindM at 1.
    destruct (ModelCheckpoint.on_epoch_end mc e h wd) as [[mc1 wd1]|] eqn:E; [|done].
    intros Hrun.
    destruct (checkpoint_epoch_frame _ _ _ _ _ _ E)
      as (Hfp & Hmodel & Hkeep & evs1 & Hio1 & Hev1 & Hlen1 & Hchk1 & Hnone1).
    destruct (IH _ _ _ Hrun) as (Hmodel' & evs2 & Hio2 & Hev2 & Hlen2 & Hchk2).
    split; [congruence|].
    exists (evs2 ++ evs1). split_and!.
    + rewrite Hio2, Hio1. by rewrite app_assoc.
    + apply Forall_app. split; [by rewrite <- Hfp|done].
    + rewrite filter_app, length_app.
      destruct (ModelCheckpoint._path_checked mc1) eqn:Hc1.
      * destruct (Hchk2 eq_refl) as [-> _]. simpl. lia.
      * rewrite (Hnone1 eq_refl). simpl. lia.
    + intros Hc. destruct (Hchk1 Hc) as [Hf1 Hd1].
      destruct (Hchk2 (Hkeep Hc)) as [Hf2 Hd2].
      rewrite filter_app, Hf1, Hf2. split; [done|congruence].
Qed.

Lemma checkpoint_creates_directory_once_witness :
  ∃ mc' wd',
    run_checkpoint_epochs Examples.mc_always 0
      [Examples.val_accuracy (1 # 4); None; Examples.val_accuracy (1 # 2)]
      Examples.world0 = Ok (mc', wd') ∧
    model wd' = model Examples.world0 ∧
    ∃ evs, io wd' = evs ++ io Examples.world0 ∧
           Forall (checkpoint_event (ModelCheckpoint.filepath Examples.mc_always)) evs ∧
           (length (filter is_makedirs evs) ≤ 1)%nat ∧
           (ModelCheckpoint._path_checked Examples.mc_always = true →
            filter is_makedirs evs = [] ∧ dirs wd' = dirs Examples.world0).
Proof.
  eexists _, _. split; [vm_compute; reflexivity|].
  eapply (checkpoint_creates_directory_once
            [Examples.val_accuracy (1 # 4); None; Examples.val_accuracy (1 # 2)]
            Examples.mc_always _ 0 Examples.world0).
  vm_compute. reflexivity.
Defined.

(** ** The first score of a training *)




(** ** Splitting channels into heads and back *)

Lemma size_pos (sh : list Z) : Forall (fun d => 0 < d) sh → 0 < size sh.
Proof.
  induction 1 as [|d ds Hd _ IH]; [done|]. rewrite size_cons. nia.
Qed.

Lemma unravel_bounds (sh : list Z) (off : Z) :
  Forall (fun d => 0 < d) sh → 0 ≤ off < size sh → in_bounds sh (unravel sh off).
Proof.
  intros Hsh. revert off. induction Hsh as [|d ds Hd Hds IH]; intros off Hoff.
  - constructor.
  - rewrite size_cons in Hoff. cbn [unravel].
    pose proof (size_pos ds Hds) as Hpos.
    destruct (divmod_range off d (size ds) Hpos Hoff) as (Hq & Hr & _).
    constructor; [done|]. by apply IH.
Qed.

Lemma ravel_unravel (sh : list Z) (off : Z) :
  Forall (fun d => 0 < d) sh → 0 ≤ off < size sh → ravel sh (unravel sh off) = off.
Proof.
  intros Hsh. revert off. induction Hsh as [|d ds Hd Hds IH]; intros off Hoff.
  - change (size []) with 1 in Hoff. simpl. lia.
  - rewrite size_cons in Hoff. cbn [unravel ravel].
    pose proof (size_pos ds Hds) as Hpos.
    destruct (divmod_range off d (size ds) Hpos Hoff) as (Hq & Hr & Heq).
    rewrite IH by done. lia.
Qed.

Lemma in_bounds_positive (sh idx : list Z) :
  in_bounds sh idx → Forall (fun d => 0 < d) sh.
Proof. induction 1; constructor; [lia|done]. Qed.

(** The two reshapes of the heads functions, on shapes of the same size. *)
Lemma reshape_reshape_get {V : Type} (t : Tensor V) (sh idx : list Z) :
  size sh = size (shape t) →
  Forall (fun d => 0 < d) sh →
  in_bounds (shape t) idx →
  get t (unravel (shape t) (ravel sh (unravel sh (ravel (shape t) idx)))) = get t idx.
Proof.
  intros Hsize Hsh Hb.
  rewrite ravel_unravel; [|done|].
  - by rewrite unravel_ravel.
  - rewrite Hsize. by apply ravel_bounds.
Qed.

Lemma split_last_dimension_4d {V : Type} (x : Tensor V) (B h w C n : Z) :
  shape x = [B; h; w; C] →
  0 ≤ B → 0 ≤ h → 0 ≤ w → 0 ≤ C → 0 < n → C mod n = 0 →
  t2t.split_last_dimension x n =
    Ok {| shape := [B; h; w; n; C / n];
          get := fun idx => get x (unravel [B; h; w; C]
                                     (ravel [B; h; w; n; C / n] idx)) |}.
Proof.
  intros Hsh HB Hh Hw HC Hn Hmod.
  unfold t2t.split_last_dimension, t2t.shape_list. rewrite Hsh. simpl.
  unfold py_mod. assert ((n =? 0) = false) as -> by lia. simpl.
  rewrite Hmod. simpl.
  pose proof (Z.div_mod C n ltac:(lia)) as Hdm.
  assert (0 ≤ C / n) by (apply Z.div_pos; lia).
  rewrite reshape_exact.
  - by rewrite Hsh.
  - repeat constructor; lia.
  - rewrite Hsh. unfold size. simpl. nia.
Qed.

Lemma transpose_rank5 {V : Type} (t : Tensor V) (perm : list nat) :
  length (shape t) = 5%nat → tf.is_perm perm 5 = true →
  tf.transpose t perm =
    Ok {| shape := (fun p => nth p (shape t) 0) <$> perm;
          get := fun idx =>
            get t ((fun a => nth (tf.index_of a perm) idx 0) <$> seq 0 5) |}.
Proof. intros Hlen Hperm. unfold tf.transpose. by rewrite Hlen, Hperm. Qed.

(** [split_heads_2d] followed by [combine_heads_2d] gives the tensor back.
    On a tensor [B, h, w, C] with a positive number of heads [n] dividing
    [C], the split has shape [B, n, h, w, C/n], head [k] holds the
    channels [k*(C/n) .. (k+1)*(C/n) - 1] in order, and combining the
    heads again yields a tensor equal to the one split. *)
Theorem split_then_combine_heads_2d {V : Type} (x : Tensor V) (B h w C n : Z) :
  shape x = [B; h; w; C] →
  0 ≤ B → 0 ≤ h → 0 ≤ w → 0 ≤ C → 0 < n → C mod n = 0 →
  ∃ y x',
    t2t.split_heads_2d x n = Ok y ∧
    shape y = [B; n; h; w; C / n] ∧
    (∀ b k i j c, in_bounds (shape y) [b; k; i; j; c] →
       get y [b; k; i; j; c] = get x [b; i; j; k * (C / n) + c]) ∧
    t2t.combine_heads_2d y = PyOk x' ∧
    tensor_eq x' x.
Proof.
  intros Hsh HB Hh Hw HC Hn Hmod.
  pose proof (Z.div_mod C n ltac:(lia)) as Hdm. rewrite Hmod, Z.add_0_r in Hdm.
  assert (Hd : 0 ≤ C / n) by (apply Z.div_pos; lia).
  unfold t2t.split_heads_2d.
  rewrite (split_last_dimension_4d x B h w C n) by done.
  cbn [mbind Result_bind].
  rewrite transpose_rank5 by done. cbn [shape fmap list_fmap nth].
  eexists _, _. split_and!.
  - reflexivity.
  - reflexivity.
  - intros b k i j c Hb. cbn [shape] in Hb. dest_bounds Hb.
    cbn [get fmap list_fmap seq nth tf.index_of Nat.eqb].
    f_equal. apply unravel_same_offset.
    + repeat constructor; nia.
    + cbn [ravel]. unfold size. cbn [foldr]. nia.
  - unfold t2t.combine_heads_2d.
    rewrite transpose_rank5 by done. cbn [shape fmap list_fmap nth].
    unfold t2t.combine_last_two_dimensions, t2t.shape_list.
    cbn [shape reverse rev_append length Nat.sub take app].
    rewrite reshape_exact; [reflexivity| |].
    + repeat constructor; nia.
    + unfold size. cbn [shape foldr]. nia.
  - split; cbn [shape].
    + rewrite Hsh. by rewrite <- Hdm.
    + intros idx Hb. rewrite <- Hdm in Hb.
      pose proof (in_bounds_positive _ _ Hb) as Hpos.
      cbn [get shape]. rewrite <- Hdm.
      set (off := ravel [B; h; w; C] idx).
      assert (Hu : ∃ u0 u1 u2 u3 u4,
                 unravel [B; h; w; n; C / n] off = [u0; u1; u2; u3; u4])
        by (cbn [unravel]; eauto 6).
      destruct Hu as (u0 & u1 & u2 & u3 & u4 & Hu). rewrite Hu.
      cbn [fmap list_fmap seq nth tf.index_of Nat.eqb]. rewrite <- Hu.
      subst off. rewrite <- Hsh. apply reshape_reshape_get.
      * rewrite Hsh. unfold size. cbn [foldr]. nia.
      * apply Forall_cons in Hpos as [? Hpos]. apply Forall_cons in Hpos as [? Hpos].
        apply Forall_cons in Hpos as [? Hpos]. apply Forall_cons in Hpos as [? Hpos].
        repeat constructor; try lia; nia.
      * by rewrite Hsh.
Qed.

Lemma split_then_combine_heads_2d_witness :
  ∃ y x',
    t2t.split_heads_2d Examples.image_4x6 3 = Ok y ∧
    shape y = [2; 3; 4; 6; 3 / 3] ∧
    (∀ b k i j c, in_bounds (shape y) [b; k; i; j; c] →
       get y [b; k; i; j; c] = get Examples.image_4x6 [b; i; j; k * (3 / 3) + c]) ∧
    t2t.combine_heads_2d y = PyOk x' ∧
    tensor_eq x' Examples.image_4x6.
Proof.
  apply (split_then_combine_heads_2d Examples.image_4x6 2 4 6 3 3).
  - reflexivity.
  - lia.
  - lia.
  - lia.
  - lia.
  - lia.
  - reflexivity.
Defined.

(** [combine_heads_2d] followed by [split_heads_2d] with the same number
    of heads gives the tensor back: on a tensor [B, n, h, w, d] with
    [n] positive, the combined tensor has shape [B, h, w, n*d] and
    splitting it into [n] heads yields a tensor equal to the original. *)
Theorem combine_then_split_heads_2d {V : Type} (y : Tensor V) (B n h w d : Z) :
  shape y = [B; n; h; w; d] →
  0 ≤ B → 0 < n → 0 ≤ h → 0 ≤ w → 0 ≤ d →
  ∃ x y',
    t2t.combine_heads_2d y = PyOk x ∧
    shape x = [B; h; w; n * d] ∧
    t2t.split_heads_2d x n = Ok y' ∧
    tensor_eq y' y.
Proof.
  intros Hsh HB Hn Hh Hw Hd.
  assert (Hdiv : n * d / n = d) by (rewrite Z.mul_comm; apply Z.div_mul; lia).
  assert (Hmod : (n * d) mod n = 0) by (rewrite Z.mul_comm; apply Z.mod_mul; lia).
  unfold t2t.combine_heads_2d.
  rewrite transpose_rank5 by (by rewrite ?Hsh). rewrite Hsh.
  cbn [fmap list_fmap nth].
  unfold t2t.combine_last_two_dimensions, t2t.shape_list.
  cbn [shape reverse rev_append length Nat.sub take app].
  rewrite reshape_exact; [|repeat constructor; nia|unfold size; cbn [shape foldr]; nia].
  cbn [of_result shape].
  eexists _, _. split_and!; [reflexivity|reflexivity| |].
  - unfold t2t.split_heads_2d.
    erewrite (split_last_dimension_4d _ B h w (n * d) n);
      [|reflexivity|lia|lia|lia|nia|lia|exact Hmod].
    cbn [mbind Result_bind]. rewrite transpose_rank5 by done.
    cbn [shape fmap list_fmap nth]. reflexivity.
  - split; cbn [shape].
    + by rewrite Hsh, Hdiv.
    + rewrite Hdiv. intros idx Hb.
      pose proof (in_bounds_positive _ _ Hb) as Hpos.
      inv_bounds Hb.
      cbn [get fmap list_fmap seq nth tf.index_of Nat.eqb].
      set (yt := {| shape := [B; h; w; n; d];
                    get := fun idx : list Z => get y [nth 0 idx 0; nth 3 idx 0;
                             nth 1 idx 0; nth 2 idx 0; nth 4 idx 0] |}).
      change (get yt (unravel (shape yt)
                (ravel [B; h; w; n * d]
                   (unravel [B; h; w; n * d] (ravel (shape yt) [i; i1; i2; i0; i3]))))
              = get y [i; i0; i1; i2; i3]).
      rewrite reshape_reshape_get; [done| | |].
      * unfold yt, size. cbn [shape foldr]. ring.
      * repeat constructor; try lia; nia.
      * unfold yt. cbn [shape]. repeat constructor; lia.
Qed.

Lemma combine_then_split_heads_2d_witness :
  ∃ x y',
    t2t.combine_heads_2d Examples.fmap_3x5 = PyOk x ∧
    shape x = [1; 3; 5; 1 * 2] ∧
    t2t.split_heads_2d x 1 = Ok y' ∧
    tensor_eq y' Examples.fmap_3x5.
Proof.
  apply (combine_then_split_heads_2d Examples.fmap_3x5 1 1 3 5 2).
  - reflexivity.
  - lia.
  - lia.
  - lia.
  - lia.
  - lia.
Defined.

(** How the heads functions fail.  [split_last_dimension] raises
    IndexError on a scalar, ZeroDivisionError for zero parts, and
    AssertionError when the number of parts does not divide the last
    dimension, and so does [split_heads_2d];
    [combine_last_two_dimensions] cannot unpack the last two dimensions of
    a tensor of rank below two; [combine_heads_2d] is refused by the
    transposition unless the rank is five. *)
Theorem heads_errors {V : Type} (x : Tensor V) (n : Z) :
  (shape x = [] → t2t.split_last_dimension x n = Raise IndexError) ∧
  (shape x ≠ [] → t2t.split_last_dimension x 0 = Raise ZeroDivisionError) ∧
  (∀ m, last (shape x) = Some m → n ≠ 0 → m mod n ≠ 0 →
        t2t.split_last_dimension x n = Raise AssertionError ∧
        t2t.split_heads_2d x n = Raise AssertionError) ∧
  ((length (shape x) < 2)%nat →
   t2t.combine_last_two_dimensions x =
     PyRaise (ValueError "not enough values to unpack")) ∧
  (length (shape x) ≠ 5%nat →
   t2t.combine_heads_2d x = PyRaise (Std (InvalidArgumentError "transpose"))).
Proof.
  split_and!.
  - intros Hsh. unfold t2t.split_last_dimension, t2t.shape_list. by rewrite Hsh.
  - intros Hsh. unfold t2t.split_last_dimension, t2t.shape_list, index_last.
    destruct (last (shape x)) eqn:Hlast; [done|].
    by apply last_None in Hlast.
  - intros m Hlast Hn Hmod.
    assert (Hs : t2t.split_last_dimension x n = Raise AssertionError).
    { unfold t2t.split_last_dimension, t2t.shape_list, index_last, py_mod.
      rewrite Hlast. simpl.
      assert ((n =? 0) = false) as -> by lia. simpl.
      by assert ((m mod n =? 0) = false) as -> by lia. }
    split; [done|]. unfold t2t.split_heads_2d. by rewrite Hs.
  - intros Hlen. unfold t2t.combine_last_two_dimensions, t2t.shape_list.
    destruct (shape x) as [|a [|b l]]; simpl in *; [done|done|lia].
  - intros Hlen. unfold t2t.combine_heads_2d, tf.transpose, tf.is_perm.
    assert (Hf : Nat.eqb 5 (length (shape x)) = false) by (apply Nat.eqb_neq; lia).
    cbn [length]. by rewrite Hf.
Qed.

Lemma heads_errors_witness :
  t2t.split_last_dimension Examples.image_4x6 2 = Raise AssertionError ∧
  t2t.split_heads_2d Examples.image_4x6 2 = Raise AssertionError.
Proof.
  refine (proj1 (proj2 (proj2 (heads_errors Examples.image_4x6 2))) 3 _ _ _).
  - reflexivity.
  - lia.
  - vm_compute. discriminate.
Defined.

(** ** Padding: edge cases *)

(** Padding is the identity on a tensor whose height and width are
    multiples of the block shape already: the result has the shape and
    the values of the input. *)
Lemma pad_to_multiple_2d_aligned {V : Type} `{Dtype V}
    (x : Tensor V) (pre : list Z) (h w c bh bw : Z) :
  shape x = pre ++ [h; w; c] →
  (length pre = 1 ∨ length pre = 2)%nat →
  bh ≠ 0 → bw ≠ 0 → h mod bh = 0 → w mod bw = 0 →
  ∃ px, t2t.pad_to_multiple_2d x (bh, bw) = Ok px ∧ tensor_eq px x.
Proof.
  intros Hsh Hlen Hbh Hbw Hh Hw.
  assert (Ebh : (bh =? 0) = false) by lia.
  assert (Ebw : (bw =? 0) = false) by lia.
  assert (Eh : (- h) mod bh = 0).
  { apply Z.mod_divide in Hh as [k ->]; [|done].
    replace (- (k * bh)) with ((- k) * bh) by lia. by apply Z.mod_mul. }
  assert (Ew : (- w) mod bw = 0).
  { apply Z.mod_divide in Hw as [k ->]; [|done].
    replace (- (k * bw)) with ((- k) * bw) by lia. by apply Z.mod_mul. }
  destruct x as [shx getx]. simpl in Hsh. subst shx.
  destruct pre as [|a [|b [|? ?]]]; simpl in Hlen; try lia.
  - unfold t2t.pad_to_multiple_2d, py_mod, tf.pad, t2t.shape_list, index, index_last.
    simpl. rewrite Ebh, Ebw. simpl. rewrite Eh, Ew. simpl.
    eexists. split; [reflexivity|]. split; simpl.
    + repeat f_equal; lia.
    + intros idx Hb. rewrite !Z.add_0_r in Hb. inv_bounds Hb. simpl.
      rewrite !Z.sub_0_r.
      replace ((0 <=? i) && (i <? a) && ((0 <=? i0) && (i0 <? h) &&
               ((0 <=? i1) && (i1 <? w) && ((0 <=? i2) && (i2 <? c) && true))))
        with true; [done|].
      symmetry. bool_to_prop. lia.
  - unfold t2t.pad_to_multiple_2d, py_mod, tf.pad, t2t.shape_list, index, index_last.
    simpl. rewrite Ebh, Ebw. simpl. rewrite Eh, Ew. simpl.
    eexists. split; [reflexivity|]. split; simpl.
    + repeat f_equal; lia.
    + intros idx Hb. rewrite !Z.add_0_r in Hb. inv_bounds Hb. simpl.
      rewrite !Z.sub_0_r.
      replace ((0 <=? i) && (i <? a) && ((0 <=? i0) && (i0 <? b) &&
               ((0 <=? i1) && (i1 <? h) && ((0 <=? i2) && (i2 <? w) &&
               ((0 <=? i3) && (i3 <? c) && true)))))
        with true; [done|].
      symmetry. bool_to_prop. lia.
Qed.

(** [pad_to_multiple_2d] at the edges.  A scalar has no last dimension
    (IndexError); for a rank other than 4 and 5 neither branch assigns
    [paddings] (UnboundLocalError); a block shape with a zero raises
    ZeroDivisionError; and a tensor whose height and width are multiples of
    the block shape already comes back unchanged, so that padding twice is
    padding once. *)
Theorem pad_to_multiple_2d_edges {V : Type} `{Dtype V}
    (x : Tensor V) (bh bw : Z) :
  (shape x = [] → t2t.pad_to_multiple_2d x (bh, bw) = Raise IndexError) ∧
  (shape x ≠ [] → length (shape x) ≠ 4%nat → length (shape x) ≠ 5%nat →
   t2t.pad_to_multiple_2d x (bh, bw) = Raise (UnboundLocalError "paddings")) ∧
  ((length (shape x) = 4 ∨ length (shape x) = 5)%nat → bh = 0 ∨ bw = 0 →
   t2t.pad_to_multiple_2d x (bh, bw) = Raise ZeroDivisionError) ∧
  (∀ pre h w c,
     shape x = pre ++ [h; w; c] → (length pre = 1 ∨ length pre = 2)%nat →
     0 < bh → 0 < bw →
     ∃ px px', t2t.pad_to_multiple_2d x (bh, bw) = Ok px ∧
               t2t.pad_to_multiple_2d px (bh, bw) = Ok px' ∧
               tensor_eq px' px).
Proof.
  split_and!.
  - intros Hsh. unfold t2t.pad_to_multiple_2d, index_last. by rewrite Hsh.
  - intros Hne H4 H5. unfold t2t.pad_to_multiple_2d, index_last.
    destruct (last (shape x)) eqn:Hlast; [|by apply last_None in Hlast].
    cbn [mbind Result_bind].
    apply Nat.eqb_neq in H4, H5. by rewrite H4, H5.
  - intros Hlen Hz. unfold t2t.pad_to_multiple_2d, index_last, t2t.shape_list, index, py_mod.
    destruct x as [shx getx]. simpl in *.
    destruct shx as [|a [|b [|c [|d [|e [|? ?]]]]]]; simpl in Hlen; try lia; simpl.
    + destruct Hz as [-> | ->]; simpl; [done|]. by destruct (bh =? 0).
    + destruct Hz as [-> | ->]; simpl; [done|]. by destruct (bh =? 0).
  - intros pre h w c Hsh Hlen Hbh Hbw.
    pose proof (Z.mod_pos_bound (- h) bh Hbh) as Hmh.
    pose proof (Z.mod_pos_bound (- w) bw Hbw) as Hmw.
    assert (Hpx : ∃ px, t2t.pad_to_multiple_2d x (bh, bw) = Ok px ∧
                        shape px = pre ++ [h + (- h) mod bh; w + (- w) mod bw; c]).
    { unfold t2t.pad_to_multiple_2d, py_mod, tf.pad, t2t.shape_list, index, index_last.
      rewrite Hsh.
      assert ((bh =? 0) = false) as Ebh by lia.
      assert ((bw =? 0) = false) as Ebw by lia.
      assert ((0 <=? (- h) mod bh) = true) as Eph by lia.
      assert ((0 <=? (- w) mod bw) = true) as Epw by lia.
      destruct pre as [|a [|b [|? ?]]]; simpl in Hlen; try lia; simpl;
        rewrite Ebh, Ebw; simpl; rewrite Eph, Epw; simpl;
        (eexists; split; [reflexivity|]); simpl; repeat f_equal; lia. }
    destruct Hpx as (px & Hpad & Hshape).
    destruct (round_up_least h bh Hbh) as (Hdh & _).
    destruct (round_up_least w bw Hbw) as (Hdw & _).
    destruct (pad_to_multiple_2d_aligned px pre _ _ c bh bw Hshape Hlen)
      as (px' & Hpad' & Heq); try lia.
    + by apply Z.mod_divide; [lia|].
    + by apply Z.mod_divide; [lia|].
    + by exists px, px'.
Qed.

Lemma pad_to_multiple_2d_edges_witness :
  ∃ px px', t2t.pad_to_multiple_2d Examples.fmap_3x5 (2, 3) = Ok px ∧
            t2t.pad_to_multiple_2d px (2, 3) = Ok px' ∧
            tensor_eq px' px.
Proof.
  refine (proj2 (proj2 (proj2 (pad_to_multiple_2d_edges Examples.fmap_3x5 2 3)))
            [1; 1] 3 5 2 _ _ _ _).
  - reflexivity.
  - right. reflexivity.
  - lia.
  - lia.
Defined.

(** ** Windows of any stride *)

Lemma block_entry_coords (w bw sh sw ow br bc i j : Z) :
  0 ≤ bc < ow → 0 ≤ j < bw →
  block_entry w bw sh sw ow (br * ow + bc) (i * bw + j) =
    (br * sh + i) * w + (bc * sw + j).
Proof.
  intros Hbc Hj. unfold block_entry.
  destruct (divmod_pos br bc ow Hbc) as [-> ->].
  by destruct (divmod_pos i j bw Hj) as [-> ->].
Qed.

(** The rows of [gather_indices_2d] are the windows of the grid, for any
    positive stride, overlapping or not.  On a grid of [h x w] positions
    that binary32 holds exactly, with [oh x ow] windows of shape [bh x bw]
    laid out with stride [(sh, sw)], row [br * ow + bc] holds at column
    [i * bw + j] the offset of position [(br * sh + i, bc * sw + j)], which
    lies within the grid. *)
Theorem gather_indices_2d_windows {W : Type} (x : Tensor W) (h w bh bw sh sw : Z) :
  shape x !! 2%nat = Some h → shape x !! 3%nat = Some w →
  0 < bh ≤ h → 0 < bw ≤ w → 0 < sh → 0 < sw →
  h * w ≤ 2 ^ 24 →
  let oh := (h - bh) / sh + 1 in
  let ow := (w - bw) / sw + 1 in
  ∃ t, t2t.gather_indices_2d x (bh, bw) (sh, sw) = Ok t ∧
       shape t = [oh * ow; bh * bw] ∧
       ∀ br bc i j, 0 ≤ br < oh → 0 ≤ bc < ow → 0 ≤ i < bh → 0 ≤ j < bw →
         get t [br * ow + bc; i * bw + j] = (br * sh + i) * w + (bc * sw + j) ∧
         0 ≤ br * sh + i < h ∧ 0 ≤ bc * sw + j < w.
Proof.
  intros Hh Hw Hbh Hbw Hsh Hsw Hbound oh ow.
  destruct (gather_indices_2d_spec x h w bh bw sh sw) as (t & Hrun & Hshape & Hval);
    try done.
  assert (Hoh : (h - bh + sh) / sh = oh).
  { unfold oh. replace (h - bh + sh) with (h - bh + 1 * sh) by lia.
    by rewrite Z.div_add by lia. }
  assert (How : (w - bw + sw) / sw = ow).
  { unfold ow. replace (w - bw + sw) with (w - bw + 1 * sw) by lia.
    by rewrite Z.div_add by lia. }
  rewrite Hoh, How in *.
  exists t. split_and!; [done..|].
  intros br bc i j Hbr Hbc Hi Hj.
  pose proof (Z.mul_div_le (h - bh) sh Hsh) as Hle1.
  pose proof (Z.mul_div_le (w - bw) sw Hsw) as Hle2.
  split_and!.
  - rewrite Hval; [|done|nia|nia]. by apply block_entry_coords.
  - nia.
  - unfold oh in Hbr. nia.
  - nia.
  - unfold ow in Hbc. nia.
Qed.

Lemma gather_indices_2d_windows_witness :
  ∃ t, t2t.gather_indices_2d Examples.key_6x6 (4, 4) (2, 2) = Ok t ∧
       shape t = [((6 - 4) / 2 + 1) * ((6 - 4) / 2 + 1); 4 * 4] ∧
       ∀ br bc i j, 0 ≤ br < (6 - 4) / 2 + 1 → 0 ≤ bc < (6 - 4) / 2 + 1 →
                    0 ≤ i < 4 → 0 ≤ j < 4 →
         get t [br * ((6 - 4) / 2 + 1) + bc; i * 4 + j] =
           (br * 2 + i) * 6 + (bc * 2 + j) ∧
         0 ≤ br * 2 + i < 6 ∧ 0 ≤ bc * 2 + j < 6.
Proof.
  apply (gather_indices_2d_windows Examples.key_6x6 6 6 4 4 2 2).
  - reflexivity.
  - reflexivity.
  - lia.
  - lia.
  - lia.
  - lia.
  - lia.
Defined.

(** [gather_indices_2d] fails on a tensor of rank below four, whose shape
    has no entry 2 or 3 (IndexError), and in the convolution when a stride
    is not positive. *)
Theorem gather_indices_2d_errors {W : Type} (x : Tensor W) (bh bw sh sw : Z) :
  0 < bh → 0 < bw →
  ((length (shape x) < 4)%nat →
   t2t.gather_indices_2d x (bh, bw) (sh, sw) = Raise IndexError) ∧
  (∀ h w, shape x !! 2%nat = Some h → shape x !! 3%nat = Some w →
          0 ≤ h → 0 ≤ w →
          sh ≤ 0 ∨ sw ≤ 0 →
          t2t.gather_indices_2d x (bh, bw) (sh, sw) =
            Raise (InvalidArgumentError "conv2d")).
Proof.
  intros Hbh Hbw. split.
  - intros Hlen. unfold t2t.gather_indices_2d. cbn [fst snd].
    rewrite identity_kernel_ok by lia. cbn [mbind Result_bind].
    unfold t2t.shape_list, index.
    destruct (shape x) as [|a [|b [|c [|d l]]]]; simpl in Hlen; try lia; try done.
  - intros h w Hh Hw Hh0 Hw0 Hbad.
    unfold t2t.gather_indices_2d. cbn [fst snd].
    rewrite identity_kernel_ok by lia. cbn [mbind Result_bind].
    unfold t2t.shape_list, index. rewrite Hh, Hw. cbn [mbind Result_bind].
    rewrite reshape_exact; [|repeat constructor; lia|].
    2: { unfold tf.range, size. cbn [shape foldr]. nia. }
    cbn [mbind Result_bind].
    unfold tf.conv2d. cbn [shape tf.cast_float32 tf.map_tensor identity_kernel].
    rewrite Z.eqb_refl. unfold tf.valid_out_size.
    destruct (sh <=? 0) eqn:Es; [done|].
    destruct (bh <=? 0) eqn:Eb; [done|].
    destruct ((h - bh + sh) ÷ sh <? 0) eqn:Eh; [done|].
    cbn [orb mbind Result_bind].
    destruct (sw <=? 0) eqn:Es'; [done|]. lia.
Qed.

Lemma gather_indices_2d_errors_witness :
  t2t.gather_indices_2d Examples.fmap_3x5 (2, 2) (1, 0) =
    Raise (InvalidArgumentError "conv2d").
Proof.
  refine (proj2 (gather_indices_2d_errors Examples.fmap_3x5 2 2 1 0 _ _) 3 5 _ _ _ _ _).
  - lia.
  - lia.
  - reflexivity.
  - reflexivity.
  - lia.
  - lia.
  - right. lia.
Defined.

(** Gathering with the indices of [gather_indices_2d] cuts the feature
    map into its windows, for any positive stride: block [br * ow + bc] of
    the result holds at entry [i * bw + j] the features of position
    [(br * sh + i, bc * sw + j)], for every batch, head and channel.  With
    a stride smaller than the window, as for the memory blocks of local
    attention, neighbouring blocks share positions. *)
Theorem gather_blocks_2d_windows {V : Type} `{Dtype V}
    (x : Tensor V) (B Hd h w D bh bw sh sw : Z) :
  shape x = [B; Hd; h; w; D] →
  0 < B → 0 < Hd → 0 < D →
  0 < bh ≤ h → 0 < bw ≤ w → 0 < sh → 0 < sw →
  h * w ≤ 2 ^ 24 →
  let oh := (h - bh) / sh + 1 in
  let ow := (w - bw) / sw + 1 in
  ∃ indices g,
    t2t.gather_indices_2d x (bh, bw) (sh, sw) = Ok indices ∧
    t2t.gather_blocks_2d x indices = Ok g ∧
    shape g = [B; Hd; oh * ow; bh * bw; D] ∧
    ∀ b hd br bc i j d,
      0 ≤ b < B → 0 ≤ hd < Hd → 0 ≤ br < oh → 0 ≤ bc < ow →
      0 ≤ i < bh → 0 ≤ j < bw → 0 ≤ d < D →
      get g [b; hd; br * ow + bc; i * bw + j; d] =
        get x [b; hd; br * sh + i; bc * sw + j; d].
Proof.
  intros Hx HB HHd HD Hbh Hbw Hsh Hsw Hbound oh ow.
  destruct (gather_indices_2d_spec x h w bh bw sh sw) as (t & Hrun & Hshape & Hval);
    try done; [by rewrite Hx..|].
  specialize (Hval Hbound).
  assert (Hoh : (h - bh + sh) / sh = oh).
  { unfold oh. replace (h - bh + sh) with (h - bh + 1 * sh) by lia.
    by rewrite Z.div_add by lia. }
  assert (How : (w - bw + sw) / sw = ow).
  { unfold ow. replace (w - bw + sw) with (w - bw + 1 * sw) by lia.
    by rewrite Z.div_add by lia. }
  rewrite Hoh, How in *.
  pose proof (Z.mul_div_le (h - bh) sh Hsh) as Hle1.
  pose proof (Z.mul_div_le (w - bw) sw Hsw) as Hle2.
  assert (Hoh0 : 0 < oh) by (unfold oh; pose proof (Z.div_pos (h - bh) sh); lia).
  assert (How0 : 0 < ow) by (unfold ow; pose proof (Z.div_pos (w - bw) sw); lia).
  assert (Hcoord : ∀ br bc i j, 0 ≤ br < oh → 0 ≤ bc < ow → 0 ≤ i < bh → 0 ≤ j < bw →
            get t [br * ow + bc; i * bw + j] = (br * sh + i) * w + (bc * sw + j) ∧
            0 ≤ br * sh + i < h ∧ 0 ≤ bc * sw + j < w).
  { intros br bc i j Hbr Hbc Hi Hj. split_and!.
    - rewrite Hval; [|nia|nia]. by apply block_entry_coords.
    - nia.
    - unfold oh in Hbr. nia.
    - nia.
    - unfold ow in Hbc. nia. }
  destruct (gather_blocks_2d_spec B Hd h w D (oh * ow) (bh * bw)
              HB HHd ltac:(lia) ltac:(lia) HD ltac:(nia) ltac:(nia) x t Hx Hshape)
    as (g & Hg & Hgshape & Hgval).
  - intros n k Hn Hk.
    destruct (divmod_range n oh ow How0 Hn) as (Hq & Hr & Hn').
    destruct (divmod_range k bh bw ltac:(lia) Hk) as (Hq' & Hr' & Hk').
    rewrite Hn', Hk'.
    destruct (Hcoord (n / ow) (n mod ow) (k / bw) (k mod bw)) as (-> & Hy & Hx');
      try done. nia.
  - exists t, g. split_and!; try done.
    intros b hd br bc i j d Hb Hhd Hbr Hbc Hi Hj Hdd.
    destruct (Hcoord br bc i j) as (Hv & Hy & Hx'); try done.
    rewrite Hgval by (done || nia). rewrite Hv.
    by destruct (divmod_pos (br * sh + i) (bc * sw + j) w Hx') as [-> ->].
Qed.

Lemma gather_blocks_2d_windows_witness :
  ∃ indices g,
    t2t.gather_indices_2d Examples.key_6x6 (4, 4) (2, 2) = Ok indices ∧
    t2t.gather_blocks_2d Examples.key_6x6 indices = Ok g ∧
    shape g = [1; 1; ((6 - 4) / 2 + 1) * ((6 - 4) / 2 + 1); 4 * 4; 2] ∧
    ∀ b hd br bc i j d,
      0 ≤ b < 1 → 0 ≤ hd < 1 → 0 ≤ br < (6 - 4) / 2 + 1 → 0 ≤ bc < (6 - 4) / 2 + 1 →
      0 ≤ i < 4 → 0 ≤ j < 4 → 0 ≤ d < 2 →
      get g [b; hd; br * ((6 - 4) / 2 + 1) + bc; i * 4 + j; d] =
        get Examples.key_6x6 [b; hd; br * 2 + i; bc * 2 + j; d].
Proof.
  apply (gather_blocks_2d_windows Examples.key_6x6 1 1 6 6 2 4 4 2 2).
  - reflexivity.
  - lia.
  - lia.
  - lia.
  - lia.
  - lia.
  - lia.
  - lia.
  - lia.
Defined.

(** ** Local attention *)

Lemma gather_indices_2d_range {W : Type} (x : Tensor W) (h w bh bw sh sw : Z) :
  shape x !! 2%nat = Some h → shape x !! 3%nat = Some w →
  0 < bh ≤ h → 0 < bw ≤ w → 0 < sh → 0 < sw →
  h * w ≤ 2 ^ 24 →
  let N := ((h - bh) / sh + 1) * ((w - bw) / sw + 1) in
  ∃ t, t2t.gather_indices_2d x (bh, bw) (sh, sw) = Ok t ∧
       shape t = [N; bh * bw] ∧ 0 < N ∧
       ∀ n k, 0 ≤ n < N → 0 ≤ k < bh * bw → 0 ≤ get t [n; k] < h * w.
Proof.
  intros Hh Hw Hbh Hbw Hsh Hsw Hbound N.
  destruct (gather_indices_2d_spec x h w bh bw sh sw) as (t & Hrun & Hshape & Hval);
    try done.
  specialize (Hval Hbound).
  assert (Hoh : (h - bh + sh) / sh = (h - bh) / sh + 1).
  { replace (h - bh + sh) with (h - bh + 1 * sh) by lia. by rewrite Z.div_add by lia. }
  assert (How : (w - bw + sw) / sw = (w - bw) / sw + 1).
  { replace (w - bw + sw) with (w - bw + 1 * sw) by lia. by rewrite Z.div_add by lia. }
  rewrite Hoh, How in *. fold N in Hshape, Hval.
  set (oh := (h - bh) / sh + 1) in *. set (ow := (w - bw) / sw + 1) in *.
  pose proof (Z.mul_div_le (h - bh) sh Hsh) as Hle1.
  pose proof (Z.mul_div_le (w - bw) sw Hsw) as Hle2.
  assert (Hoh0 : 0 < oh) by (unfold oh; pose proof (Z.div_pos (h - bh) sh); lia).
  assert (How0 : 0 < ow) by (unfold ow; pose proof (Z.div_pos (w - bw) sw); lia).
  exists t. split_and!; [done|done|unfold N; nia|].
  intros n k Hn Hk. rewrite Hval by done.
  destruct (divmod_range n oh ow How0 Hn) as (Hq & Hr & _).
  destruct (divmod_range k bh bw ltac:(lia) Hk) as (Hq' & Hr' & _).
  unfold block_entry.
  generalize dependent (n / ow). generalize dependent (n mod ow).
  generalize dependent (k / bw). generalize dependent (k mod bw).
  intros j Hj i Hi bc Hbc br Hbr.
  assert (0 ≤ br * sh + i < h) by (unfold oh in Hbr; nia).
  assert (0 ≤ bc * sw + j < w) by (unfold ow in Hbc; nia).
  nia.
Qed.

Lemma pad_flange_rank5 {V : Type} `{Dtype V} (x : Tensor V) (B Hd h w D f0 f1 : Z) :
  shape x = [B; Hd; h; w; D] → 0 ≤ f0 → 0 ≤ f1 →
  ∃ px, tf.pad x [(0, 0); (0, 0); (f0, f1); (f0, f1); (0, 0)] = Ok px ∧
        shape px = [B; Hd; h + f0 + f1; w + f0 + f1; D].
Proof.
  intros Hx Hf0 Hf1. unfold tf.pad. rewrite Hx. simpl.
  assert ((0 <=? f0) = true) as -> by lia.
  assert ((0 <=? f1) = true) as -> by lia. simpl.
  eexists. split; [reflexivity|]. simpl. shape_eq.
Qed.

Lemma embedding_to_padding_shape {V : Type} `{Dtype V} (emb : Tensor V)
    (B Hd N M D : Z) :
  shape emb = [B; Hd; N; M; D] →
  ∃ mask, t2t.embedding_to_padding emb = Ok mask ∧ shape mask = [B; Hd; N; M].
Proof.
  intros Hsh. unfold t2t.embedding_to_padding, tf.reduce_sum_last, index_last.
  cbn [shape tf.abs tf.map_tensor]. rewrite Hsh. cbn [last mbind Result_bind].
  eexists. split; [reflexivity|]. done.
Qed.

Lemma padded_size (h b : Z) :
  0 < h → 0 < b →
  b ≤ h + (- h) mod b ∧ h ≤ h + (- h) mod b ∧
  (h + (- h) mod b - b) / b + 1 = (h + (- h) mod b) / b.
Proof.
  intros Hh Hb.
  destruct (round_up_least h b Hb) as ([n Hn] & Hle & _).
  rewrite Hn. assert (0 < n) by nia.
  split_and!; [nia|lia|].
  replace (n * b - b) with ((n - 1) * b) by lia.
  rewrite !Z.div_mul by lia. lia.
Qed.

(** The shapes of the tensors that [local_attention_2d] hands to the
    attention, for query, key and value of one shape. *)
Lemma local_attention_2d_blocks_shapes {V : Type} `{Dtype V}
    (q k v : Tensor V) (B Hd h w D qh qw f0 f1 : Z) :
  shape q = [B; Hd; h; w; D] → shape k = [B; Hd; h; w; D] →
  shape v = [B; Hd; h; w; D] →
  0 < B → 0 < Hd → 0 < h → 0 < w → 0 < D →
  0 < qh → 0 < qw → 0 ≤ f0 → 0 ≤ f1 →
  let hp := h + (- h) mod qh in
  let wp := w + (- w) mod qw in
  qh + 2 * f0 ≤ hp + f0 + f1 → qw + 2 * f1 ≤ wp + f0 + f1 →
  (hp + f0 + f1) * (wp + f0 + f1) ≤ 2 ^ 24 →
  let Nq := ((hp - qh) / qh + 1) * ((wp - qw) / qw + 1) in
  let Nk := ((hp + f0 + f1 - (qh + 2 * f0)) / qh + 1) *
            ((wp + f0 + f1 - (qw + 2 * f1)) / qw + 1) in
  let M := (qh + 2 * f0) * (qw + 2 * f1) in
  ∃ b, t2t.local_attention_2d_blocks q k v (qh, qw) (f0, f1) = Ok b ∧
       shape (t2t.padded_q b) = [B; Hd; hp; wp; D] ∧
       shape (t2t.q_indices b) = [Nq; qh * qw] ∧
       (∀ n c, 0 ≤ n < Nq → 0 ≤ c < qh * qw →
               0 ≤ get (t2t.q_indices b) [n; c] < hp * wp) ∧
       0 < Nq ∧ 0 < Nk ∧
       shape (t2t.q_new b) = [B; Hd; Nq; qh * qw; D] ∧
       shape (t2t.k_new b) = [B; Hd; Nk; M; D] ∧
       shape (t2t.v_new b) = [B; Hd; Nk; M; D] ∧
       shape (t2t.attention_bias b) = [B; Hd; Nk; 1; M].
Proof.
  intros Hq Hk Hv HB HHd Hh Hw HD Hqh Hqw Hf0 Hf1 hp wp Hfith Hfitw Hbound Nq Nk M.
  destruct (padded_size h qh Hh Hqh) as (Hhp & Hhle & _).
  destruct (padded_size w qw Hw Hqw) as (Hwp & Hwle & _).
  fold hp in Hhp, Hhle. fold wp in Hwp, Hwle.
  destruct (pad_to_multiple_2d_rank5 q B Hd h w D qh qw Hq Hqh Hqw) as (pq & Epq & Spq).
  destruct (pad_to_multiple_2d_rank5 k B Hd h w D qh qw Hk Hqh Hqw) as (pk & Epk & Spk).
  destruct (pad_to_multiple_2d_rank5 v B Hd h w D qh qw Hv Hqh Hqw) as (pv & Epv & Spv).
  fold hp wp in Spq, Spk, Spv.
  destruct (pad_flange_rank5 pk B Hd hp wp D f0 f1 Spk Hf0 Hf1) as (fk & Efk & Sfk).
  destruct (pad_flange_rank5 pv B Hd hp wp D f0 f1 Spv Hf0 Hf1) as (fv & Efv & Sfv).
  destruct (gather_indices_2d_range pq hp wp qh qw qh qw)
    as (qi & Eqi & Sqi & HNq & Rqi); try (by rewrite Spq); try lia.
  fold Nq in Sqi, HNq, Rqi.
  destruct (gather_blocks_2d_spec B Hd hp wp D Nq (qh * qw)
              HB HHd ltac:(lia) ltac:(lia) HD HNq ltac:(nia) pq qi Spq Sqi Rqi)
    as (qn & Eqn & Sqn & _).
  destruct (gather_indices_2d_range fk (hp + f0 + f1) (wp + f0 + f1)
              (qh + 2 * f0) (qw + 2 * f1) qh qw)
    as (ki & Eki & Ski & HNk & Rki); try (by rewrite Sfk); try lia.
  fold Nk M in Ski, HNk, Rki.
  destruct (gather_blocks_2d_spec B Hd (hp + f0 + f1) (wp + f0 + f1) D Nk M
              HB HHd ltac:(lia) ltac:(lia) HD HNk ltac:(unfold M; nia) fk ki Sfk Ski Rki)
    as (kn & Ekn & Skn & _).
  destruct (gather_blocks_2d_spec B Hd (hp + f0 + f1) (wp + f0 + f1) D Nk M
              HB HHd ltac:(lia) ltac:(lia) HD HNk ltac:(unfold M; nia) fv ki Sfv Ski Rki)
    as (vn & Evn & Svn & _).
  destruct (embedding_to_padding_shape kn B Hd Nk M D Skn) as (mask & Emask & Smask).
  unfold t2t.local_attention_2d_blocks. cbn [fst snd].
  rewrite Epq, Epk, Epv. cbn [mbind Result_bind].
  rewrite Efk, Efv. cbn [mbind Result_bind].
  rewrite Eqi. cbn [mbind Result_bind]. rewrite Eqn. cbn [mbind Result_bind].
  rewrite Eki. cbn [mbind Result_bind]. rewrite Ekn, Evn. cbn [mbind Result_bind].
  rewrite Emask. cbn [mbind Result_bind].
  unfold tf.expand_dims_m2. cbn [shape tf.scale tf.map_tensor]. rewrite Smask.
  cbn [length]. eexists. split; [reflexivity|]. cbn.
  split_and!; done.
Qed.

(** The batch axes of the operands of the attention products, innermost
    first: those of the keys and values broadcast when there is one memory
    block. *)
Lemma broadcast_batch_blocks (B Hd N N' : Z) :
  N' = N ∨ N' = 1 → tf.broadcast_batch [N; Hd; B] [N'; Hd; B] = Some [N; Hd; B].
Proof.
  intros HN. cbn [tf.broadcast_batch].
  assert ((N =? N') || (N' =? 1) = true) as -> by (destruct HN; lia).
  by rewrite !Z.eqb_refl.
Qed.

Lemma matmul_transpose_b_shape {V : Type} `{Dtype V} (a b : Tensor V)
    (B Hd N N' K M D : Z) :
  shape a = [B; Hd; N; K; D] → shape b = [B; Hd; N'; M; D] → N' = N ∨ N' = 1 →
  ∃ c, tf.matmul a b true = Ok c ∧ shape c = [B; Hd; N; K; M].
Proof.
  intros Ha Hb HN. unfold tf.matmul. rewrite Ha, Hb. cbn [reverse rev_append].
  rewrite broadcast_batch_blocks by done. rewrite Z.eqb_refl.
  eexists. split; [reflexivity|]. done.
Qed.

Lemma matmul_batch_mismatch {V : Type} `{Dtype V} (a b : Tensor V)
    (B Hd N N' K M D : Z) :
  shape a = [B; Hd; N; K; D] → shape b = [B; Hd; N'; M; D] →
  N ≠ N' → N ≠ 1 → N' ≠ 1 →
  tf.matmul a b true = Raise (InvalidArgumentError "matmul").
Proof.
  intros Ha Hb Hne HN HN'. unfold tf.matmul. rewrite Ha, Hb.
  cbn [reverse rev_append tf.broadcast_batch].
  assert ((N =? N') = false) as -> by lia.
  assert ((N' =? 1) = false) as -> by lia.
  by assert ((N =? 1) = false) as -> by lia.
Qed.

Lemma matmul_shape {V : Type} `{Dtype V} (a b : Tensor V) (B Hd N N' K M D : Z) :
  shape a = [B; Hd; N; K; M] → shape b = [B; Hd; N'; M; D] → N' = N ∨ N' = 1 →
  ∃ c, tf.matmul a b false = Ok c ∧ shape c = [B; Hd; N; K; D].
Proof.
  intros Ha Hb HN. unfold tf.matmul. rewrite Ha, Hb. cbn [reverse rev_append].
  rewrite broadcast_batch_blocks by done. rewrite Z.eqb_refl.
  eexists. split; [reflexivity|]. done.
Qed.

Lemma add_broadcast_bias_shape {V : Type} `{Dtype V} (a b : Tensor V)
    (B Hd N N' K M : Z) :
  shape a = [B; Hd; N; K; M] → shape b = [B; Hd; N'; 1; M] → N' = N ∨ N' = 1 →
  ∃ c, tf.add_broadcast a b = Ok c ∧ shape c = [B; Hd; N; K; M].
Proof.
  intros Ha Hb HN. unfold tf.add_broadcast. rewrite Ha, Hb.
  cbn [length Nat.eqb zip zip_with forallb fst snd].
  rewrite !Z.eqb_refl. cbn [orb andb]. rewrite !orb_true_r. cbn [andb].
  assert ((N =? N') || (N =? 1) || (N' =? 1) = true) as -> by (destruct HN; lia).
  eexists. split; [reflexivity|]. cbn [shape].
  assert ((if N =? 1 then N' else N) = N) as ->
    by (destruct (Z.eqb_spec N 1); destruct HN; lia).
  destruct (B =? 1), (Hd =? 1), (M =? 1); destruct (K =? 1) eqn:EK;
    try reflexivity; apply Z.eqb_eq in EK; by rewrite EK.
Qed.

Lemma slice_spatial_shape {V : Type} (t : Tensor V) (B Hd hp wp D h w : Z) :
  shape t = [B; Hd; hp; wp; D] →
  0 ≤ B → 0 ≤ Hd → 0 ≤ D → 0 ≤ h ≤ hp → 0 ≤ w ≤ wp →
  ∃ o, tf.slice t [0; 0; 0; 0; 0] [-1; -1; h; w; -1] = Ok o ∧
       shape o = [B; Hd; h; w; D].
Proof.
  intros Ht HB HHd HD Hh Hw. unfold tf.slice. rewrite Ht.
  cbn [length Nat.eqb zip zip_with forallb fst snd andb Z.eqb].
  assert ((h =? -1) = false) as -> by lia.
  assert ((w =? -1) = false) as -> by lia.
  cbn [forallb].
  cbn [Pos.eqb Z.leb Z.compare].
  match goal with |- context [if ?c then Ok _ else _] =>
    assert (c = true) as -> by (bool_to_prop; lia) end.
  eexists. split; [reflexivity|]. cbn [shape]. shape_eq.
Qed.

(** The number of query blocks and of memory blocks of
    [local_attention_2d] on a grid padded to [hp] x [wp]. *)
Lemma one_query_block (h w qh qw f0 f1 : Z) :
  0 < h → 0 < w → 0 < qh → 0 < qw →
  let hp := h + (- h) mod qh in
  let wp := w + (- w) mod qw in
  qh + f0 ≤ hp + f1 → qw + f1 ≤ wp + f0 →
  (hp / qh) * (wp / qw) = 1 → f0 = f1.
Proof.
  intros Hh Hw Hqh Hqw hp wp Hfith Hfitw HN.
  destruct (round_up_least h qh Hqh) as ([nh Hdh] & Hhle & _).
  destruct (round_up_least w qw Hqw) as ([nw Hdw] & Hwle & _).
  fold hp in Hdh, Hhle. fold wp in Hdw, Hwle.
  rewrite Hdh, Hdw, !Z.div_mul in HN by lia.
  assert (0 < nh) by nia. assert (0 < nw) by nia.
  assert (nh = 1 ∧ nw = 1) as [-> ->] by nia. lia.
Qed.

Lemma equal_flanges_blocks (h w qh qw f : Z) :
  0 < h → 0 < w → 0 < qh → 0 < qw →
  let hp := h + (- h) mod qh in
  let wp := w + (- w) mod qw in
  (hp / qh) * (wp / qw) =
    ((hp + f - f - qh) / qh + 1) * ((wp + f - f - qw) / qw + 1).
Proof.
  intros Hh Hw Hqh Hqw hp wp.
  destruct (padded_size h qh Hh Hqh) as (_ & _ & Hnh).
  destruct (padded_size w qw Hw Hqw) as (_ & _ & Hnw).
  fold hp in Hnh. fold wp in Hnw.
  replace (hp + f - f - qh) with (hp - qh) by lia.
  replace (wp + f - f - qw) with (wp - qw) by lia.
  by rewrite Hnh, Hnw.
Qed.

(** [local_attention_2d] goes through where there are as many memory
    blocks as query blocks, or one memory block. *)
Lemma local_attention_2d_runs {V : Type} `{Dtype V}
    (softmax : Tensor V → Tensor V) (q k v : Tensor V)
    (B Hd h w D qh qw f0 f1 : Z) :
  (∀ t, shape (softmax t) = shape t) →
  shape q = [B; Hd; h; w; D] → shape k = [B; Hd; h; w; D] →
  shape v = [B; Hd; h; w; D] →
  0 < B → 0 < Hd → 0 < h → 0 < w → 0 < D →
  0 < qh → 0 < qw → 0 ≤ f0 → 0 ≤ f1 →
  let hp := h + (- h) mod qh in
  let wp := w + (- w) mod qw in
  qh + f0 ≤ hp + f1 → qw + f1 ≤ wp + f0 →
  (hp + f0 + f1) * (wp + f0 + f1) ≤ 2 ^ 24 →
  let Nq := (hp / qh) * (wp / qw) in
  let Nk := ((hp + f1 - f0 - qh) / qh + 1) * ((wp + f0 - f1 - qw) / qw + 1) in
  Nq = Nk ∨ Nk = 1 →
  ∃ out, t2t.local_attention_2d softmax q k v (qh, qw) (f0, f1) = Ok out ∧
         shape out = [B; Hd; h; w; D].
Proof.
  intros Hsoft Hq Hk Hv HB HHd Hh Hw HD Hqh Hqw Hf0 Hf1 hp wp Hfith Hfitw Hbound Nq Nk HN.
  destruct (padded_size h qh Hh Hqh) as (Hhp & Hhle & Hnh).
  destruct (padded_size w qw Hw Hqw) as (Hwp & Hwle & Hnw).
  fold hp in Hhp, Hhle, Hnh. fold wp in Hwp, Hwle, Hnw.
  destruct (local_attention_2d_blocks_shapes q k v B Hd h w D qh qw f0 f1)
    as (b & Eb & Spq & Sqi & Rqi & HNq & HNk & Sqn & Skn & Svn & Sbias);
    try done; try (fold hp wp; lia).
  fold hp wp in Spq, Sqi, Rqi, HNq, HNk, Sqn, Skn, Svn, Sbias.
  rewrite Hnh, Hnw in Sqi, Rqi, HNq, Sqn. fold Nq in Sqi, Rqi, HNq, Sqn.
  replace (hp + f0 + f1 - (qh + 2 * f0)) with (hp + f1 - f0 - qh) in * by lia.
  replace (wp + f0 + f1 - (qw + 2 * f1)) with (wp + f0 - f1 - qw) in * by lia.
  fold Nk in HNk, Skn, Svn, Sbias.
  set (M := (qh + 2 * f0) * (qw + 2 * f1)) in *.
  assert (HN' : Nk = Nq ∨ Nk = 1) by (destruct HN; auto).
  destruct (matmul_transpose_b_shape (t2t.q_new b) (t2t.k_new b) B Hd Nq Nk (qh * qw) M D
              Sqn Skn HN') as (qk & Eqk & Sqk).
  destruct (add_broadcast_bias_shape qk (t2t.attention_bias b) B Hd Nq Nk (qh * qw) M
              Sqk Sbias HN') as (logits & Elogits & Slogits).
  destruct (matmul_shape (softmax logits) (t2t.v_new b) B Hd Nq Nk (qh * qw) M D)
    as (att & Eatt & Satt); [by rewrite Hsoft|done|done|].
  assert (Hsize : Nq * (qh * qw) = hp * wp).
  { destruct (round_up_least h qh Hqh) as ([nh Hdh] & _).
    destruct (round_up_least w qw Hqw) as ([nw Hdw] & _).
    fold hp in Hdh. fold wp in Hdw. unfold Nq. rewrite Hdh, Hdw.
    rewrite !Z.div_mul by lia. ring. }
  destruct (scatter_blocks_2d_spec B Hd hp wp D Nq (qh * qw)
              HB HHd ltac:(lia) ltac:(lia) HD HNq ltac:(nia)
              att (t2t.q_indices b) Satt Sqi Hsize Rqi) as (r & Er & Sr & _).
  destruct (slice_spatial_shape r B Hd hp wp D h w Sr) as (out & Eout & Sout);
    try lia.
  exists out. split; [|done].
  unfold t2t.local_attention_2d. rewrite Eb. cbn [mbind Result_bind].
  unfold t2t.dot_product_attention, t2t.attention_logits.
  rewrite Eqk. cbn [mbind Result_bind]. rewrite Elogits. cbn [mbind Result_bind].
  rewrite Eatt. cbn [mbind Result_bind].
  unfold t2t.shape_list. rewrite Spq, Er. cbn [mbind Result_bind].
  unfold index. rewrite Hv. cbn [lookup list_lookup mbind Result_bind].
  exact Eout.
Qed.

(** [local_attention_2d] on query, key and value of one shape
    [B, Hd, h, w, D], with [softmax] any function that keeps the shape.
    Both spatial axes of key and value are padded with
    [memory_flange[0]] before and [memory_flange[1]] after, while a memory
    block extends the query block by [memory_flange[0]] in height and
    [memory_flange[1]] in width on both sides.  So there are [Nq] query
    blocks and [Nk] memory blocks as below: when the two numbers agree, or
    there is one memory block, which the products broadcast to every query
    block, the call succeeds and the output has the shape of the input;
    otherwise the product of queries and keys is refused.  With equal
    flanges the numbers agree. *)
Theorem local_attention_2d_outcome {V : Type} `{Dtype V}
    (softmax : Tensor V → Tensor V) (q k v : Tensor V)
    (B Hd h w D qh qw f0 f1 : Z) :
  (∀ t, shape (softmax t) = shape t) →
  shape q = [B; Hd; h; w; D] → shape k = [B; Hd; h; w; D] →
  shape v = [B; Hd; h; w; D] →
  0 < B → 0 < Hd → 0 < h → 0 < w → 0 < D →
  0 < qh → 0 < qw → 0 ≤ f0 → 0 ≤ f1 →
  let hp := h + (- h) mod qh in
  let wp := w + (- w) mod qw in
  qh + f0 ≤ hp + f1 → qw + f1 ≤ wp + f0 →
  (hp + f0 + f1) * (wp + f0 + f1) ≤ 2 ^ 24 →
  let Nq := (hp / qh) * (wp / qw) in
  let Nk := ((hp + f1 - f0 - qh) / qh + 1) * ((wp + f0 - f1 - qw) / qw + 1) in
  (Nq = Nk ∨ Nk = 1 →
   ∃ out, t2t.local_attention_2d softmax q k v (qh, qw) (f0, f1) = Ok out ∧
          shape out = [B; Hd; h; w; D]) ∧
  (Nq ≠ Nk → Nk ≠ 1 →
   t2t.local_attention_2d softmax q k v (qh, qw) (f0, f1) =
     Raise (InvalidArgumentError "matmul")) ∧
  (f0 = f1 → Nq = Nk).
Proof.
  intros Hsoft Hq Hk Hv HB HHd Hh Hw HD Hqh Hqw Hf0 Hf1 hp wp Hfith Hfitw Hbound Nq Nk.
  assert (Hflange : f0 = f1 → Nq = Nk).
  { intros ->. by apply equal_flanges_blocks. }
  split_and!; [|
    |exact Hflange].
  - by apply local_attention_2d_runs.
  - intros HN HNk1.
    assert (HNq1 : Nq ≠ 1).
    { intros HNq1. apply HN, Hflange.
      by apply (one_query_block h w qh qw). }
    destruct (padded_size h qh Hh Hqh) as (Hhp & Hhle & Hnh).
    destruct (padded_size w qw Hw Hqw) as (Hwp & Hwle & Hnw).
    fold hp in Hhp, Hhle, Hnh. fold wp in Hwp, Hwle, Hnw.
    destruct (local_attention_2d_blocks_shapes q k v B Hd h w D qh qw f0 f1)
      as (b & Eb & _ & _ & _ & _ & _ & Sqn & Skn & _);
      try done; try (fold hp wp; lia).
    fold hp wp in Sqn, Skn.
    rewrite Hnh, Hnw in Sqn. fold Nq in Sqn.
    replace (hp + f0 + f1 - (qh + 2 * f0)) with (hp + f1 - f0 - qh) in * by lia.
    replace (wp + f0 + f1 - (qw + 2 * f1)) with (wp + f0 - f1 - qw) in * by lia.
    fold Nk in Skn.
    unfold t2t.local_attention_2d. rewrite Eb. cbn [mbind Result_bind].
    unfold t2t.dot_product_attention, t2t.attention_logits.
    by rewrite (matmul_batch_mismatch (t2t.q_new b) (t2t.k_new b)
                  B Hd Nq Nk (qh * qw) _ D Sqn Skn HN HNq1 HNk1).
Qed.

Lemma local_attention_2d_outcome_witness :
  ∃ out, t2t.local_attention_2d (fun t => t) Examples.fmap_2x4 Examples.fmap_2x4
           Examples.fmap_2x4 (2, 2) (0, 1) = Ok out ∧
         shape out = [1; 1; 2; 4; 1].
Proof.
  refine (proj1 (local_attention_2d_outcome (fun t => t) Examples.fmap_2x4
                   Examples.fmap_2x4 Examples.fmap_2x4 1 1 2 4 1 2 2 0 1
                   _ _ _ _ _ _ _ _ _ _ _ _ _ _ _ _) _).
  - reflexivity.
  - reflexivity.
  - reflexivity.
  - reflexivity.
  - lia.
  - lia.
  - lia.
  - lia.
  - lia.
  - lia.
  - lia.
  - lia.
  - lia.
  - vm_compute. discriminate.
  - vm_compute. discriminate.
  - vm_compute. discriminate.
  - right. vm_compute. reflexivity.
Defined.

(** ** The padding mask and the attention bias *)




(** ** Scattering, then gathering *)

(** Scattering blocks with an index tensor that holds every offset of the
    grid exactly once, and gathering them again with the same indices,
    gives the blocks back: [scatter_blocks_2d] and [gather_blocks_2d] are
    inverse to each other in this order too.  The element type is any one
    in which adding a value to zero returns that value. *)
Theorem scatter_gather_roundtrip {V : Type} `{Dtype V}
    (g : Tensor V) (indices : Tensor Z) (B Hd h w D N K : Z) :
  (∀ v : V, add zero v = v) →
  shape g = [B; Hd; N; K; D] →
  0 < B → 0 < Hd → 0 < h → 0 < w → 0 < D →
  shape indices = [N; K] → 0 < N → 0 < K →
  flatten indices ≡ₚ seqZ 0 (h * w) →
  ∃ r g', t2t.scatter_blocks_2d g indices [B; Hd; h; w; D] = Ok r ∧
          shape r = [B; Hd; h; w; D] ∧
          t2t.gather_blocks_2d r indices = Ok g' ∧
          tensor_eq g' g.
Proof.
  intros Hid Hg HB HHd Hh Hw HD Hidx HN HK Hperm.
  assert (Hsize : N * K = h * w).
  { apply Permutation_length in Hperm. unfold flatten in Hperm.
    rewrite length_fmap, length_seqZ in Hperm.
    pose proof (length_all_indices [N; K] ltac:(repeat constructor; lia)) as Hlen.
    rewrite Hidx in Hperm. rewrite Hperm, Z2Nat.id in Hlen by nia.
    rewrite Hlen. simpl. ring. }
  assert (Hnd : NoDup (flatten indices)).
  { rewrite Hperm. apply NoDup_seqZ. }
  assert (Hmem : ∀ n k, 0 ≤ n < N → 0 ≤ k < K → [n; k] ∈ all_indices (shape indices)).
  { intros n k Hn Hk. rewrite Hidx. apply elem_of_all_indices.
    repeat constructor; lia. }
  assert (Hrange : ∀ n k, 0 ≤ n < N → 0 ≤ k < K → 0 ≤ get indices [n; k] < h * w).
  { intros n k Hn Hk.
    assert (Hin : get indices [n; k] ∈ seqZ 0 (h * w)).
    { rewrite <- Hperm. apply list_elem_of_fmap_2. by apply Hmem. }
    apply elem_of_seqZ in Hin. lia. }
  destruct (scatter_blocks_2d_spec B Hd h w D N K HB HHd Hh Hw HD HN HK g indices
              Hg Hidx Hsize Hrange) as (r & Hr & Hrsh & Hrval).
  destruct (gather_blocks_2d_spec B Hd h w D N K HB HHd Hh Hw HD HN HK r indices
              Hrsh Hidx Hrange) as (g' & Hg' & Hgsh & Hgval).
  exists r, g'. split_and!; [done|done|done|].
  split; [congruence|].
  intros idx Hb. rewrite Hgsh in Hb. inv_bounds Hb.
  rename i into b, i0 into hd, i1 into n0, i2 into k0, i3 into d.
  rewrite Hgval by done.
  destruct (Hrange n0 k0 ltac:(done) ltac:(done)) as [Hlo Hhi].
  destruct (divmod_range (get indices [n0; k0]) h w Hw ltac:(lia)) as (Hy & Hx & Hdm).
  rewrite Hrval by done. rewrite <- Hdm.
  rewrite (filter_unique _ _ (n0 * K + k0)).
  - cbn [fmap list_fmap].
    destruct (divmod_pos n0 k0 K ltac:(lia)) as [-> ->].
    by rewrite vsum_singleton.
  - apply NoDup_seqZ.
  - apply elem_of_seqZ. nia.
  - by destruct (divmod_pos n0 k0 K ltac:(lia)) as [-> ->].
  - intros j Hj%elem_of_seqZ Hjv.
    destruct (divmod_range j N K HK ltac:(lia)) as (Hq & Hm & Hdm').
    assert (Heq : [j / K; j mod K] = [n0; k0]).
    { apply (NoDup_fmap_inj_on (get indices) (all_indices (shape indices)));
        [done|by apply Hmem|by apply Hmem|congruence]. }
    injection Heq as <- <-. lia.
Qed.

Lemma scatter_gather_roundtrip_witness :
  ∃ r g', t2t.scatter_blocks_2d Examples.blocks_4x6 Examples.indices_4x6
            [1; 1; 4; 6; 2] = Ok r ∧
          shape r = [1; 1; 4; 6; 2] ∧
          t2t.gather_blocks_2d r Examples.indices_4x6 = Ok g' ∧
          tensor_eq g' Examples.blocks_4x6.
Proof.
  apply (scatter_gather_roundtrip Examples.blocks_4x6 Examples.indices_4x6
           1 1 4 6 2 4 6).
  - intros [a b]. unfold add, zero, Dtype_Q, Qplus. simpl. by rewrite Z.mul_1_r.
  - reflexivity.
  - lia.
  - lia.
  - lia.
  - lia.
  - lia.
  - reflexivity.
  - lia.
  - lia.
  - apply (bool_decide_unpack _). vm_compute. exact I.
Defined.

(** * Properties of [utils.py] *)

(** ** Loggers *)

Lemma stream_indices_none (hs : list logging.Handler) (k : nat) :
  Forall (fun h => logging.is_stream_handler h = false) hs →
  stream_indices hs k = [].
Proof.
  intros Hhs. revert k. induction Hhs as [|h hs Hh _ IH]; intros k; [done|].
  simpl. rewrite Hh. apply IH.
Qed.

Lemma stream_indices_app (pre post : list logging.Handler) (k : nat) :
  stream_indices (pre ++ post) k =
    stream_indices pre k ++ stream_indices post (k + length pre).
Proof.
  revert k. induction pre as [|h pre IH]; intros k; simpl.
  - by rewrite Nat.add_0_r.
  - rewrite IH. replace (S k + length pre)%nat with (k + S (length pre))%nat by lia.
    by destruct (logging.is_stream_handler h).
Qed.

Lemma stream_indices_all (hs : list logging.Handler) (k : nat) :
  Forall (fun h => logging.is_stream_handler h = true) hs →
  stream_indices hs k = seq k (length hs).
Proof.
  intros Hhs. revert k. induction Hhs as [|h hs Hh _ IH]; intros k; [done|].
  simpl. rewrite Hh. by rewrite IH.
Qed.

Lemma del_each_seq_fails (j : nat) (hs : list logging.Handler) (k : nat) :
  (1 ≤ j)%nat → (length hs < k + 2 * j - 1)%nat →
  del_each hs (seq k j) = Raise IndexError.
Proof.
  revert hs k. induction j as [|j IH]; intros hs k Hj Hlen; [lia|].
  simpl. unfold del_item.
  destruct (k <? length hs)%nat eqn:Hk; [|done].
  apply Nat.ltb_lt in Hk. cbn [mbind Result_bind].
  apply IH; [lia|]. rewrite length_delete; [lia|].
  by apply lookup_lt_is_Some_2.
Qed.

Lemma level_known (l : string) (fmt : string) :
  msg_formats !! l = Some fmt → ∃ lvl, level_mapping !! l = Some lvl.
Proof.
  intros Hfmt.
  assert (Hdom : dom msg_formats = dom level_mapping).
  { apply (bool_decide_unpack _). vm_compute. exact I. }
  apply elem_of_dom. rewrite <- Hdom. apply elem_of_dom. eauto.
Qed.

(** A successful [get_logger]: when the logger has at most one stream
    handler, that handler is removed, the other handlers stay in their
    order, and the new stream handler, with the format of the level, is
    added last; the level is set from the table.  The level is the value of
    the environment variable [LOG_LEVEL] when it is set, whatever the
    argument, and only the named logger changes. *)
Theorem get_logger_replaces_stream_handler
    (environ : gmap string string) (uuid8 : string) (name : option string)
    (level fmt : string) (m : logging.Manager)
    (pre old post : list logging.Handler) :
  let logger_name := match name with None => uuid8 | Some n => n end in
  let level' := lower (default level (environ !! "LOG_LEVEL")) in
  msg_formats !! level' = Some fmt →
  logging.handlers (logging.getLogger logger_name m) = pre ++ old ++ post →
  Forall (fun h => logging.is_stream_handler h = false) (pre ++ post) →
  old = [] ∨ (∃ f, old = [logging.StreamHandler f]) →
  ∃ lvl,
    level_mapping !! level' = Some lvl ∧
    get_logger environ uuid8 name level m =
      Ok (logger_name,
          <[logger_name :=
              {| logging.handlers :=
                   pre ++ post ++ [logging.StreamHandler (Some (fmt, date_format))];
                 logging.level := lvl |}]> m).
Proof.
  intros logger_name level' Hfmt Hhs Hothers Hold.
  destruct (level_known level' fmt Hfmt) as (lvl & Hlvl).
  exists lvl. split; [done|].
  apply Forall_app in Hothers as [Hpre Hpost].
  unfold get_logger, dict_get. fold logger_name level'.
  rewrite Hfmt, Hlvl. cbn [mbind Result_bind]. rewrite Hhs.
  assert (Hdel : del_each (pre ++ old ++ post) (stream_indices (pre ++ old ++ post) 0)
                 = Ok (pre ++ post)).
  { rewrite stream_indices_app, (stream_indices_none pre) by done.
    destruct Hold as [->|[f ->]]; simpl.
    - by rewrite (stream_indices_none post).
    - rewrite (stream_indices_none post) by done. simpl. unfold del_item.
      rewrite length_app. simpl.
      assert ((length pre <? length pre + S (length post))%nat = true) as ->
        by (apply Nat.ltb_lt; lia).
      cbn [mbind Result_bind].
      by rewrite delete_middle. }
  destruct (0 <? length (pre ++ old ++ post))%nat eqn:Hlen.
  - rewrite Hdel. cbn [mbind Result_bind]. by rewrite <- app_assoc.
  - apply Nat.ltb_ge in Hlen. rewrite !length_app in Hlen.
    destruct pre, old, post; simpl in Hlen; try lia. done.
Qed.

Lemma get_logger_replaces_stream_handler_witness :
  ∃ lvl,
    level_mapping !! lower (default "WARN" ((∅ : gmap string string) !! "LOG_LEVEL"))
      = Some lvl ∧
    get_logger ∅ "0a1b2c3d" (Some "Callbacks") "WARN" Examples.manager_one_stream =
      Ok ("Callbacks",
          <["Callbacks" :=
              {| logging.handlers :=
                   [logging.OtherHandler "file"] ++ [] ++
                   [logging.StreamHandler (Some ("%(asctime)s %(message)s", date_format))];
                 logging.level := lvl |}]> Examples.manager_one_stream).
Proof.
  apply (get_logger_replaces_stream_handler ∅ "0a1b2c3d" (Some "Callbacks") "WARN"
           "%(asctime)s %(message)s" Examples.manager_one_stream
           [logging.OtherHandler "file"]
           [logging.StreamHandler (Some ("%(message)s", date_format))] []).
  - vm_compute. reflexivity.
  - vm_compute. reflexivity.
  - repeat constructor.
  - right. eexists. reflexivity.
Defined.

Lemma get_logger_one (environ : gmap string string) (name level fmt : string)
    (lvl : Z) (m : logging.Manager) :
  msg_formats !! lower (default level (environ !! "LOG_LEVEL")) = Some fmt →
  level_mapping !! lower (default level (environ !! "LOG_LEVEL")) = Some lvl →
  (logging.handlers (logging.getLogger name m) = [] ∨
   ∃ f, logging.handlers (logging.getLogger name m) = [logging.StreamHandler f]) →
  get_logger environ "" (Some name) level m =
    Ok (name, <[name := {| logging.handlers :=
                             [logging.StreamHandler (Some (fmt, date_format))];
                           logging.level := lvl |}]> m).
Proof.
  intros Hfmt Hlvl Hhs. unfold get_logger, dict_get.
  rewrite Hfmt, Hlvl. cbn [mbind Result_bind].
  by destruct Hhs as [-> | [f ->]].
Qed.

(** Calling [get_logger] again and again for one name does not pile up
    handlers: starting from a logger without handlers, after any number of
    calls with levels of the table the logger holds exactly one handler,
    the stream handler of the last call, and has the level of the last
    call. *)
Theorem get_logger_keeps_one_handler
    (environ : gmap string string) (name : string)
    (levels : list string) (last_level : string) (m : logging.Manager) :
  logging.handlers (logging.getLogger name m) = [] →
  Forall (fun l => is_Some (msg_formats !! lower (default l (environ !! "LOG_LEVEL"))))
    (levels ++ [last_level]) →
  ∃ m' fmt lvl,
    get_logger_calls environ name (levels ++ [last_level]) m = Ok m' ∧
    msg_formats !! lower (default last_level (environ !! "LOG_LEVEL")) = Some fmt ∧
    level_mapping !! lower (default last_level (environ !! "LOG_LEVEL")) = Some lvl ∧
    m' !! name = Some {| logging.handlers :=
                           [logging.StreamHandler (Some (fmt, date_format))];
                         logging.level := lvl |}.
Proof.
  intros Hfresh Hlevels.
  assert (Hhs : logging.handlers (logging.getLogger name m) = [] ∨
                ∃ f, logging.handlers (logging.getLogger name m)
                     = [logging.StreamHandler f]) by (by left).
  clear Hfresh. revert m Hhs.
  induction levels as [|l levels IH]; intros m Hhs.
  - simpl in *. apply Forall_singleton in Hlevels as [fmt Hfmt].
    destruct (level_known _ _ Hfmt) as (lvl & Hlvl).
    rewrite (get_logger_one environ name last_level fmt lvl m Hfmt Hlvl Hhs).
    cbn [mbind Result_bind]. eexists _, fmt, lvl. split_and!; try done.
    apply lookup_insert_eq.
  - rewrite <- app_comm_cons in *. apply Forall_cons in Hlevels as [[fmt Hfmt] Hrest].
    destruct (level_known _ _ Hfmt) as (lvl & Hlvl).
    cbn [get_logger_calls].
    rewrite (get_logger_one environ name l fmt lvl m Hfmt Hlvl Hhs).
    cbn [mbind Result_bind]. apply IH; [done|].
    right. unfold logging.getLogger.
    match goal with |- context [default _ ?o] =>
      replace o with
        (Some {| logging.handlers := [logging.StreamHandler (Some (fmt, date_format))];
                 logging.level := lvl |})
        by (symmetry; apply lookup_insert_eq) end.
    simpl. eauto.
Qed.

Lemma get_logger_keeps_one_handler_witness :
  ∃ m' fmt lvl,
    get_logger_calls ∅ "Callbacks" (["warn"; "DEBUG"] ++ ["info"]) ∅ = Ok m' ∧
    msg_formats !! lower (default "info" ((∅ : gmap string string) !! "LOG_LEVEL"))
      = Some fmt ∧
    level_mapping !! lower (default "info" ((∅ : gmap string string) !! "LOG_LEVEL"))
      = Some lvl ∧
    m' !! "Callbacks" = Some {| logging.handlers :=
                                  [logging.StreamHandler (Some (fmt, date_format))];
                                logging.level := lvl |}.
Proof.
  apply (get_logger_keeps_one_handler ∅ "Callbacks" ["warn"; "DEBUG"] "info" ∅).
  - reflexivity.
  - repeat constructor; vm_compute; eauto.
Defined.

(** How [get_logger] fails.  A level that is not in the table once
    lower-cased, be it the argument or the value of [LOG_LEVEL], raises
    KeyError.  A logger that holds two or more handlers, all of them stream
    handlers, makes the removal loop delete past the end of the list,
    because the indices were taken before the first deletion: IndexError. *)
Theorem get_logger_errors
    (environ : gmap string string) (uuid8 : string) (name : option string)
    (level : string) (m : logging.Manager) :
  let logger_name := match name with None => uuid8 | Some n => n end in
  let level' := lower (default level (environ !! "LOG_LEVEL")) in
  let hs := logging.handlers (logging.getLogger logger_name m) in
  (msg_formats !! level' = None →
   get_logger environ uuid8 name level m = Raise (KeyError level')) ∧
  (is_Some (msg_formats !! level') →
   Forall (fun h => logging.is_stream_handler h = true) hs →
   (2 ≤ length hs)%nat →
   get_logger environ uuid8 name level m = Raise IndexError).
Proof.
  intros logger_name level' hs. split.
  - intros Hnone. unfold get_logger, dict_get. fold level'. by rewrite Hnone.
  - intros [fmt Hfmt] Hall Hlen. unfold get_logger, dict_get.
    fold logger_name level' hs. rewrite Hfmt. cbn [mbind Result_bind].
    assert ((0 <? length hs)%nat = true) as -> by (apply Nat.ltb_lt; lia).
    rewrite stream_indices_all by done.
    rewrite del_each_seq_fails; [done|lia|lia].
Qed.

Lemma get_logger_errors_witness :
  get_logger ∅ "0a1b2c3d" (Some "Callbacks") "warn" Examples.manager_two_streams =
    Raise IndexError.
Proof.
  refine (proj2 (get_logger_errors ∅ "0a1b2c3d" (Some "Callbacks") "warn"
                   Examples.manager_two_streams) _ _ _).
  - vm_compute. eauto.
  - vm_compute. repeat constructor.
  - vm_compute. lia.
Defined.

(** ** Aggregation of an F0 contour *)

Section AggregateF0Facts.
Context {F : Type} `{Float F}.

Lemma f0_loop_segments (pitch : F → F) (t_unit : F) (rest : list F)
    (cur start : Z) (last : F) (results : list (pydict F)) :
  f0_loop pitch t_unit rest cur start last results =
    results ++ (segment_row pitch t_unit <$> f0_segments rest cur start last).
Proof.
  revert cur start last results.
  induction rest as [|x rest IH]; intros cur start last results; simpl.
  - by rewrite app_nil_r.
  - destruct (f_ltb (f_abs (f_sub x last)) f_eps); [apply IH|].
    destruct (f_ltb last f_eps); [apply IH|].
    rewrite IH. by rewrite <- app_assoc.
Qed.

Lemma chain_weaken (lo lo' : Z) (segs : list (Z * Z * F)) :
  lo ≤ lo' → chain lo' segs → chain lo segs.
Proof.
  intros Hle. destruct segs as [|[[s e] f] segs]; [done|].
  simpl. intros (? & ? & ?). split_and!; [lia|done|done].
Qed.

Lemma f0_segments_spec (L rest : list F) (cur start : Z) (last : F) :
  0 ≤ start < cur →
  drop (Z.to_nat cur) L = rest →
  L !! Z.to_nat (cur - 1) = Some last →
  (∀ (i : nat) a b, start ≤ Z.of_nat i → Z.of_nat i + 1 < cur →
                    L !! i = Some a → L !! S i = Some b → f_close b a = true) →
  chain start (f0_segments rest cur start last) ∧
  Forall (segment_of L) (f0_segments rest cur start last).
Proof.
  revert cur start last.
  induction rest as [|x rest IH]; intros cur start last Hcur Hdrop Hlast Hclose.
  - simpl. split; [done|constructor].
  - assert (Hx : L !! Z.to_nat cur = Some x).
    { pose proof (lookup_drop L (Z.to_nat cur) 0) as Hl.
      rewrite Hdrop, Nat.add_0_r in Hl. by rewrite <- Hl. }
    assert (Hrest : drop (Z.to_nat (cur + 1)) L = rest).
    { rewrite (drop_S _ _ _ Hx) in Hdrop. injection Hdrop as Hd.
      by replace (Z.to_nat (cur + 1)) with (S (Z.to_nat cur)) by lia. }
    assert (Hlast' : L !! Z.to_nat (cur + 1 - 1) = Some x).
    { by replace (cur + 1 - 1) with cur by lia. }
    pose proof (lookup_lt_Some _ _ _ Hx) as Hlt.
    simpl. destruct (f_ltb (f_abs (f_sub x last)) f_eps) eqn:Ecl.
    + apply IH; [lia|done|done|].
      intros i a b Hi Hi' Ha Hb.
      destruct (decide (Z.of_nat i + 1 < cur)) as [Hin|Hout]; [by eapply Hclose|].
      assert (S i = Z.to_nat cur) as Hsi by lia.
      assert (i = Z.to_nat (cur - 1)) as Hii by lia.
      rewrite Hsi, Hx in Hb. rewrite Hii, Hlast in Ha.
      injection Ha as <-. injection Hb as <-. exact Ecl.
    + assert (Hnew : ∀ (i : nat) a b, cur ≤ Z.of_nat i → Z.of_nat i + 1 < cur + 1 →
                       L !! i = Some a → L !! S i = Some b → f_close b a = true)
        by (intros; lia).
      destruct (IH (cur + 1) cur x ltac:(lia) Hrest Hlast' Hnew) as [Hch Hall].
      destruct (f_ltb last f_eps) eqn:Esm.
      * split; [|done]. apply (chain_weaken start cur); [lia|done].
      * split.
        -- simpl. split_and!; [lia|lia|done].
        -- constructor; [|done].
           unfold segment_of. simpl. split_and!; [lia|done|done|done].
Qed.

End AggregateF0Facts.

(** [aggregate_f0_info] cuts a contour into segments.  On a contour that
    is not empty, over floats for which a value is taken for the same
    frequency as itself (every finite float), the rows returned are those
    of segments [(start, end, frequency)] such that: the segments follow
    each other, each not empty and starting no earlier than the one before
    ends; a segment ends within the contour; its frequency is the last
    value of the segment, not the first or a mean, and is not below the
    threshold; and any two consecutive values in a segment are within the
    threshold of each other. *)
Theorem aggregate_f0_info_segments {F : Type} `{Float F}
    (hz_to_note_number : F → F) (pred : list F) (t_unit : F) :
  pred ≠ [] →
  (∀ x : F, f_close x x = true) →
  ∃ segs,
    aggregate_f0_info hz_to_note_number pred t_unit =
      Ok (segment_row hz_to_note_number t_unit <$> segs) ∧
    chain 0 segs ∧
    Forall (fun seg =>
      seg.1.2 ≤ Z.of_nat (length pred) ∧
      pred !! Z.to_nat (seg.1.2 - 1) = Some seg.2 ∧
      f_ltb seg.2 f_eps = false ∧
      ∀ (i : nat) a b, seg.1.1 ≤ Z.of_nat i → Z.of_nat i + 1 < seg.1.2 →
                       pred !! i = Some a → pred !! S i = Some b →
                       f_close b a = true) segs.
Proof.
  intros Hne Hrefl. destruct pred as [|x0 pred]; [done|]. clear Hne.
  unfold aggregate_f0_info, index. cbn [lookup list_lookup mbind Result_bind].
  rewrite f0_loop_segments. cbn [app].
  set (L := (x0 :: pred) ++ [f_of_Z 0]).
  change ((x0 :: pred) ++ [f_of_Z 0]) with (x0 :: (pred ++ [f_of_Z 0])) in L.
  cbn [f0_segments]. fold (f_close x0 x0). rewrite Hrefl.
  destruct (f0_segments_spec L (pred ++ [f_of_Z 0]) (0 + 1) 0 x0) as [Hch Hall];
    [lia|done|done|intros; lia|].
  eexists. split; [reflexivity|]. split; [done|].
  eapply Forall_impl; [exact Hall|].
  intros [[s e] f] (He & Hf & Hsm & Hcl). cbn [fst snd] in *.
  assert (HL : L = (x0 :: pred) ++ [f_of_Z 0]) by done.
  assert (Hlen : length L = S (S (length pred))).
  { rewrite HL, length_app. simpl. lia. }
  rewrite Hlen in He.
  split_and!.
  - cbn [length]. lia.
  - rewrite HL in Hf. rewrite lookup_app_l in Hf; [done|].
    cbn [length]. lia.
  - done.
  - intros i a b Hi Hi' Ha Hb. apply (Hcl i a b Hi Hi').
    + rewrite HL. by apply lookup_app_l_Some.
    + rewrite HL. by apply lookup_app_l_Some.
Qed.

Lemma Q_close_refl (x : Q) : f_close x x = true.
Proof.
  unfold f_close. simpl.
  by replace (Qnum x * QDen x + - Qnum x * QDen x) with 0 by lia.
Qed.

Lemma aggregate_f0_info_segments_witness :
  ∃ segs,
    aggregate_f0_info (fun f => f) Examples.contour (1 # 100) =
      Ok (segment_row (fun f => f) (1 # 100) <$> segs) ∧
    chain 0 segs ∧
    Forall (fun seg =>
      seg.1.2 ≤ Z.of_nat (length Examples.contour) ∧
      Examples.contour !! Z.to_nat (seg.1.2 - 1) = Some seg.2 ∧
      f_ltb seg.2 f_eps = false ∧
      ∀ (i : nat) a b, seg.1.1 ≤ Z.of_nat i → Z.of_nat i + 1 < seg.1.2 →
                       Examples.contour !! i = Some a →
                       Examples.contour !! S i = Some b →
                       f_close b a = true) segs.
Proof.
  apply (aggregate_f0_info_segments (fun f => f) Examples.contour (1 # 100)).
  - discriminate.
  - apply Q_close_refl.
Defined.

Section AggregateF0Simple.
Context {F : Type} `{Float F}.

Lemma f0_segments_silent (rest : list F) (cur start : Z) (last : F) :
  f_ltb last f_eps = true →
  Forall (fun x => f_ltb x f_eps = true) rest →
  f0_segments rest cur start last = [].
Proof.
  intros Hlast Hrest. revert cur start last Hlast.
  induction Hrest as [|x rest Hx _ IH]; intros cur start last Hlast; [done|].
  simpl. destruct (f_ltb (f_abs (f_sub x last)) f_eps); [by apply IH|].
  rewrite Hlast. by apply IH.
Qed.

Lemma f0_segments_constant (x : F) (rest : list F) (cur start : Z) :
  f_close x x = true → f_ltb x f_eps = false → f_close (f_of_Z 0) x = false →
  f_ltb (f_of_Z 0) f_eps = true →
  Forall (fun y => y = x) rest →
  f0_segments (rest ++ [f_of_Z 0]) cur start x =
    [(start, cur + Z.of_nat (length rest), x)].
Proof.
  intros Hrefl Hvoiced Hzero Hsmall Hrest. revert cur.
  induction Hrest as [|y rest -> _ IH]; intros cur.
  - simpl. fold (f_close (f_of_Z 0) x). rewrite Hzero, Hvoiced.
    by rewrite Z.add_0_r.
  - cbn [app f0_segments]. fold (f_close x x). rewrite Hrefl, IH.
    do 3 f_equal. cbn [length]. lia.
Qed.

End AggregateF0Simple.

(** [aggregate_f0_info] on simple contours.  The empty contour raises
    IndexError.  A contour whose values are all below the threshold gives
    no row, however they differ.  A contour of [n] frames of one frequency
    not below the threshold gives exactly one row, from frame [0] to the
    end at [n]. *)
Theorem aggregate_f0_info_simple_contours {F : Type} `{Float F}
    (hz_to_note_number : F → F) (t_unit : F) :
  f_ltb (f_of_Z 0) f_eps = true →
  aggregate_f0_info hz_to_note_number [] t_unit = Raise IndexError ∧
  (∀ pred, pred ≠ [] → Forall (fun x => f_ltb x f_eps = true) pred →
           aggregate_f0_info hz_to_note_number pred t_unit = Ok []) ∧
  (∀ x pred, pred ≠ [] → Forall (fun y => y = x) pred →
             f_close x x = true → f_ltb x f_eps = false →
             f_close (f_of_Z 0) x = false →
             aggregate_f0_info hz_to_note_number pred t_unit =
               Ok [f0_row hz_to_note_number t_unit 0 (Z.of_nat (length pred)) x]).
Proof.
  intros Hsmall. split_and!.
  - done.
  - intros pred Hne Hall. destruct pred as [|x0 pred]; [done|].
    unfold aggregate_f0_info, index. cbn [lookup list_lookup mbind Result_bind].
    rewrite f0_loop_segments, f0_segments_silent; [done| |].
    + by apply Forall_cons in Hall as [? _].
    + apply Forall_app. split; [done|]. by constructor.
  - intros x pred Hne Hall Hrefl Hvoiced Hzero. destruct pred as [|x0 pred]; [done|].
    apply Forall_cons in Hall as [-> Hall].
    unfold aggregate_f0_info, index. cbn [lookup list_lookup mbind Result_bind].
    rewrite f0_loop_segments. cbn [app f0_segments]. fold (f_close x x).
    rewrite Hrefl, f0_segments_constant by done.
    cbn [fmap list_fmap app]. unfold segment_row. cbn [fst snd length].
    do 3 f_equal. lia.
Qed.

Lemma aggregate_f0_info_simple_contours_witness :
  aggregate_f0_info (fun f : Q => f) [] (1 # 100) = Raise IndexError ∧
  (∀ pred, pred ≠ [] → Forall (fun x => f_ltb x f_eps = true) pred →
           aggregate_f0_info (fun f : Q => f) pred (1 # 100) = Ok []) ∧
  (∀ x pred, pred ≠ [] → Forall (fun y => y = x) pred →
             f_close x x = true → f_ltb x f_eps = false →
             f_close (f_of_Z 0) x = false →
             aggregate_f0_info (fun f : Q => f) pred (1 # 100) =
               Ok [f0_row (fun f : Q => f) (1 # 100) 0 (Z.of_nat (length pred)) x]).
Proof.
  apply (aggregate_f0_info_simple_contours (fun f : Q => f) (1 # 100)).
  vm_compute. reflexivity.
Defined.

(** ** Writing the aggregated contour *)

Lemma existsb_false_Forall {A : Type} (p : A → bool) (l : list A) :
  Forall (fun x => p x = false) l → existsb p l = false.
Proof. induction 1 as [|x l Hx _ IH]; [done|]. simpl. by rewrite Hx, IH. Qed.

Lemma existsb_true_elem {A : Type} (p : A → bool) (l : list A) (x : A) :
  x ∈ l → p x = true → existsb p l = true.
Proof.
  intros Hin Hp. apply existsb_exists. exists x. split; [|done].
  by apply list_elem_of_In.
Qed.

(** [write_agg_f0_results] accepts whatever [aggregate_f0_info] returns:
    the field check passes, and, where the output path can be opened for
    writing, the file gets the header and one record per row, with the four
    values of the row in the order of the header; where it cannot, the
    error of [open] is raised, FileNotFoundError for the empty path.  The
    check compares the key lists, so rows are rejected with ValueError as
    soon as one of them has other keys, or the same keys in another order,
    before the file is opened. *)
Theorem write_agg_f0_results_after_aggregate {F : Type} `{Float F}
    (hz_to_note_number : F → F) (pred : list F) (t_unit : F)
    (rows : list (pydict F)) (path : string) (w : World) :
  aggregate_f0_info hz_to_note_number pred t_unit = Ok rows →
  (open_error path w = None →
   ∃ file, write_agg_f0_results rows path w = PyOk file ∧
           csv_path file = path ∧
           csv_header file = ["start_time"; "end_time"; "frequency"; "pitch"] ∧
           csv_records file =
             (fun row : list (string * F) => Some <$> (snd <$> row)) <$> rows) ∧
  (∀ e, open_error path w = Some e →
        write_agg_f0_results rows path w = PyRaise (Std e)) ∧
  write_agg_f0_results rows "" w = PyRaise (Std (FileNotFoundError "")) ∧
  (∀ row : pydict F, keys row ≠ fieldnames →
     write_agg_f0_results (rows ++ [row]) path w =
       PyRaise (ValueError
         "Fields inconsistent! Expected: ['start_time', 'end_time', 'frequency', 'pitch']")).
Proof.
  intros Hagg.
  assert (Hchk : existsb (fun row : pydict F => negb (bool_decide (keys row = fieldnames)))
                   rows = false).
  { assert (Hrows : ∃ segs, rows = segment_row hz_to_note_number t_unit <$> segs).
    { unfold aggregate_f0_info, index in Hagg.
      destruct (pred !! 0%nat); [|done]. cbn [mbind Result_bind] in Hagg.
      rewrite f0_loop_segments in Hagg. injection Hagg as <-. eauto. }
    destruct Hrows as [segs ->].
    apply existsb_false_Forall, Forall_fmap, Forall_forall. by intros [[s e] f] _. }
  split_and!.
  - intros Hopen. unfold write_agg_f0_results. rewrite Hchk, Hopen.
    eexists. split; [reflexivity|]. cbn [csv_path csv_header csv_records].
    split_and!; [done|done|].
    assert (Hrows : ∃ segs, rows = segment_row hz_to_note_number t_unit <$> segs).
    { unfold aggregate_f0_info, index in Hagg.
      destruct (pred !! 0%nat); [|done]. cbn [mbind Result_bind] in Hagg.
      rewrite f0_loop_segments in Hagg. injection Hagg as <-. eauto. }
    destruct Hrows as [segs ->].
    rewrite <- !list_fmap_compose. apply list_fmap_ext. by intros i [[s e] f] _.
  - intros e Hopen. unfold write_agg_f0_results. by rewrite Hchk, Hopen.
  - unfold write_agg_f0_results. by rewrite Hchk.
  - intros row Hkeys. unfold write_agg_f0_results.
    rewrite (existsb_true_elem _ _ row); [done| |].
    + apply elem_of_app. right. by left.
    + by rewrite bool_decide_eq_false_2.
Qed.

Lemma write_agg_f0_results_after_aggregate_witness :
  ∃ file, write_agg_f0_results
            [f0_row (fun f : Q => f) (1 # 100) 0 (Z.of_nat (length [440%Q; 440%Q])) 440%Q]
            "f0.csv" Examples.world0 = PyOk file ∧
          csv_path file = "f0.csv" ∧
          csv_header file = ["start_time"; "end_time"; "frequency"; "pitch"] ∧
          csv_records file =
            (fun row : list (string * Q) => Some <$> (snd <$> row)) <$>
            [f0_row (fun f : Q => f) (1 # 100) 0 (Z.of_nat (length [440%Q; 440%Q])) 440%Q].
Proof.
  refine (proj1 (write_agg_f0_results_after_aggregate (fun f : Q => f)
                   [440%Q; 440%Q] (1 # 100) _ "f0.csv" Examples.world0 _) _).
  - vm_compute. reflexivity.
  - vm_compute. reflexivity.
Defined.

(** ** Camel case and snake case *)

Lemma upper_facts (c : ascii) :
  is_upper c = true →
  is_lower c = false ∧ is_lower (lower_ascii c) = true ∧
  upper_ascii (lower_ascii c) = c ∧ Ascii.eqb c "_" = false.
Proof. destruct c as [[] [] [] [] [] [] [] []]; vm_compute; done. Qed.

Lemma lower_facts (c : ascii) :
  is_lower c = true →
  is_upper c = false ∧ is_upper (upper_ascii c) = true ∧
  lower_ascii (upper_ascii c) = c ∧ lower_ascii c = c ∧ Ascii.eqb c "_" = false.
Proof. destruct c as [[] [] [] [] [] [] [] []]; vm_compute; done. Qed.

Lemma concat_empty_cons (x : string) (xs : list string) :
  String.concat "" (x :: xs) = x +:+ String.concat "" xs.
Proof.
  destruct xs as [|y xs]; [|done].
  cbn [String.concat]. by rewrite append_empty_r.
Qed.

Lemma concat_underscore_cons (x : string) (xs : list string) :
  String.concat "_" (x :: xs) =
    x +:+ String.concat "" ((fun w => String "_" w) <$> xs).
Proof.
  revert x. induction xs as [|y xs IH]; intros x.
  - cbn [String.concat fmap list_fmap]. by rewrite append_empty_r.
  - change (String.concat "_" (x :: y :: xs))
      with (x +:+ String "_" (String.concat "_" (y :: xs))).
    rewrite IH, fmap_cons, concat_empty_cons. done.
Qed.

Lemma lower_all_lower (t : string) : all_lower t = true → lower t = t.
Proof.
  induction t as [|c t IH]; simpl; [done|].
  intros [Hc Ht]%andb_true_iff.
  destruct (lower_facts c Hc) as (_ & _ & _ & -> & _). by rewrite IH.
Qed.

Lemma lower_app (a b : string) : lower (a +:+ b) = lower a +:+ lower b.
Proof. induction a as [|c a IH]; simpl; [done|]. by rewrite IH. Qed.

Lemma underscore_capitals_lower (t rest : string) :
  all_lower t = true →
  underscore_capitals (t +:+ rest) = t +:+ underscore_capitals rest.
Proof.
  induction t as [|c t IH]; simpl; [done|].
  intros [Hc Ht]%andb_true_iff.
  destruct (lower_facts c Hc) as (-> & _). by rewrite IH.
Qed.

Lemma underscore_capitals_words (ws : list string) :
  Forall (fun w => camel_word w = true) ws →
  underscore_capitals (String.concat "" ws) =
    String.concat "" ((fun w => String "_" w) <$> ws).
Proof.
  induction 1 as [|w ws Hw _ IH]; [done|].
  rewrite fmap_cons, !concat_empty_cons.
  destruct w as [|c t]; [done|]. simpl in Hw.
  apply andb_true_iff in Hw as [Hc Ht]. simpl. rewrite Hc.
  by rewrite underscore_capitals_lower, IH.
Qed.

Lemma replace_double_underscore_other (c : ascii) (s : string) :
  Ascii.eqb c "_" = false →
  replace_double_underscore (String c s) = String c (replace_double_underscore s).
Proof. intros Hc. destruct s; cbn [replace_double_underscore]; by rewrite ?Hc. Qed.

Lemma replace_double_underscore_lower (t rest : string) :
  all_lower t = true →
  replace_double_underscore (t +:+ rest) = t +:+ replace_double_underscore rest.
Proof.
  induction t as [|c t IH]; [done|].
  intros [Hc Ht]%andb_true_iff.
  destruct (lower_facts c Hc) as (_ & _ & _ & _ & Hne).
  rewrite !append_cons, replace_double_underscore_other by done.
  by rewrite IH.
Qed.

Lemma replace_double_underscore_snake (ls : list string) :
  Forall (fun w => snake_word w = true) ls →
  replace_double_underscore (String.concat "" ((fun w => String "_" w) <$> ls)) =
    String.concat "" ((fun w => String "_" w) <$> ls).
Proof.
  induction 1 as [|w ls Hw _ IH]; [done|].
  rewrite fmap_cons, concat_empty_cons.
  destruct w as [|c t]; [done|]. simpl in Hw.
  apply andb_true_iff in Hw as [Hc Ht].
  destruct (lower_facts c Hc) as (_ & _ & _ & _ & Hne).
  rewrite !append_cons.
  assert (Hsep : ∀ s, replace_double_underscore (String "_" (String c s)) =
                      String "_" (replace_double_underscore (String c s))).
  { intros s. change (replace_double_underscore (String "_" (String c s)))
      with (if Ascii.eqb "_" "_" && Ascii.eqb c "_"
            then String "_" (replace_double_underscore s)
            else String "_" (replace_double_underscore (String c s))).
    by rewrite Hne, andb_false_r. }
  rewrite Hsep, replace_double_underscore_other by done.
  by rewrite replace_double_underscore_lower, IH.
Qed.

Lemma lower_camel_word (w : string) :
  camel_word w = true → snake_word (lower w) = true ∧ title (lower w) = w.
Proof.
  destruct w as [|c t]; [done|]. simpl.
  intros [Hc Ht]%andb_true_iff.
  destruct (upper_facts c Hc) as (_ & Hl & Hu & _).
  rewrite lower_all_lower by done. rewrite Hl, Ht. split; [done|].
  unfold title. simpl. rewrite Hl, orb_true_r, Hu. f_equal.
  clear -Ht. induction t as [|d t IH]; simpl; [done|].
  simpl in Ht. apply andb_true_iff in Ht as [Hd Ht].
  destruct (lower_facts d Hd) as (_ & _ & _ & -> & _).
  rewrite Hd, orb_true_r. by rewrite IH.
Qed.

Lemma title_snake_word (w : string) :
  snake_word w = true →
  title w = capitalize w ∧ camel_word (capitalize w) = true ∧
  lower (capitalize w) = w.
Proof.
  destruct w as [|c t]; [done|]. simpl.
  intros [Hc Ht]%andb_true_iff.
  destruct (lower_facts c Hc) as (_ & Hu & Hlu & _).
  rewrite Hu, Ht, Hlu, lower_all_lower by done. split_and!; try done.
  unfold title. simpl. rewrite Hc, orb_true_r. f_equal.
  clear -Ht. induction t as [|d t IH]; simpl; [done|].
  simpl in Ht. apply andb_true_iff in Ht as [Hd Ht].
  destruct (lower_facts d Hd) as (_ & _ & _ & -> & _).
  rewrite Hd, orb_true_r. by rewrite IH.
Qed.

Lemma str_split_lower (t : string) :
  all_lower t = true → str_split "_" t = [t].
Proof.
  induction t as [|c t IH]; simpl; [done|].
  intros [Hc Ht]%andb_true_iff.
  destruct (lower_facts c Hc) as (_ & _ & _ & _ & ->). by rewrite IH.
Qed.

Lemma str_split_lower_app (t rest : string) :
  all_lower t = true →
  str_split "_" (t +:+ String "_" rest) = t :: str_split "_" rest.
Proof.
  induction t as [|c t IH]; simpl; [done|].
  intros [Hc Ht]%andb_true_iff.
  destruct (lower_facts c Hc) as (_ & _ & _ & _ & ->). by rewrite IH.
Qed.

Lemma snake_word_lower (w : string) : snake_word w = true → all_lower w = true.
Proof. by destruct w. Qed.

Lemma str_split_snake (w : string) (ws : list string) :
  Forall (fun w => snake_word w = true) (w :: ws) →
  str_split "_" (String.concat "_" (w :: ws)) = w :: ws.
Proof.
  revert w. induction ws as [|y ws IH]; intros w Hall.
  - apply Forall_cons in Hall as [Hw _]. simpl.
    by apply str_split_lower, snake_word_lower.
  - apply Forall_cons in Hall as [Hw Hall].
    change (String.concat "_" (w :: y :: ws))
      with (w +:+ String "_" (String.concat "_" (y :: ws))).
    rewrite str_split_lower_app by (by apply snake_word_lower).
    by rewrite IH.
Qed.

(** The snake case of a camel-case identifier, word by word. *)
Lemma camel_to_snake_words (ws : list string) :
  Forall (fun w => camel_word w = true) ws →
  camel_to_snake (String.concat "" ws) = String.concat "_" (lower <$> ws).
Proof.
  intros Hws. destruct Hws as [|w ws Hw Hws]; [done|].
  rewrite fmap_cons, concat_underscore_cons, concat_empty_cons.
  destruct w as [|c t]; [done|].
  pose proof Hw as Hw'. simpl in Hw'. apply andb_true_iff in Hw' as [Hc Ht].
  unfold camel_to_snake.
  change (re_sub_capitals (String c t +:+ ?r))
    with (String c (underscore_capitals (t +:+ r))).
  rewrite underscore_capitals_lower, underscore_capitals_words by done.
  change (lower (String c ?r)) with (String (lower_ascii c) (lower r)).
  rewrite lower_app, lower_all_lower by done.
  assert (Hlow : lower (String.concat "" ((fun w => String "_" w) <$> ws)) =
                 String.concat "" ((fun w => String "_" w) <$> (lower <$> ws))).
  { clear -Hws. induction Hws as [|y ws Hy _ IH]; [done|].
    rewrite !fmap_cons, !concat_empty_cons. simpl. by rewrite lower_app, IH. }
  rewrite Hlow.
  destruct (upper_facts c Hc) as (_ & Hl & _).
  change (String (lower_ascii c) (t +:+ ?r)) with (String (lower_ascii c) t +:+ r).
  rewrite replace_double_underscore_lower by (simpl; by rewrite Hl, Ht).
  rewrite replace_double_underscore_snake.
  - done.
  - apply Forall_fmap. eapply Forall_impl; [exact Hws|].
    intros y Hy. by apply lower_camel_word.
Qed.

Lemma title_lower_words (ws : list string) :
  Forall (fun w => camel_word w = true) ws →
  title <$> (lower <$> ws) = ws ∧
  Forall (fun w => snake_word w = true) (lower <$> ws).
Proof.
  induction 1 as [|w ws Hw _ [IH1 IH2]]; [done|].
  destruct (lower_camel_word w Hw) as [Hs Ht].
  rewrite !fmap_cons, Ht, IH1. split; [done|]. by constructor.
Qed.

Lemma capitalize_words (ws : list string) :
  Forall (fun w => snake_word w = true) ws →
  title <$> ws = capitalize <$> ws ∧
  Forall (fun w => camel_word w = true) (capitalize <$> ws) ∧
  lower <$> (capitalize <$> ws) = ws.
Proof.
  induction 1 as [|w ws Hw _ (IH1 & IH2 & IH3)]; [done|].
  destruct (title_snake_word w Hw) as (Ht & Hc & Hl).
  rewrite !fmap_cons, Ht, IH1, Hl, IH3. split_and!; [done| |done]. by constructor.
Qed.

(** An identifier in camel case, that is a sequence of words each made of
    a capital and small letters, becomes in snake case its words in small
    letters joined by underscores, and [snake_to_camel] takes that back to
    the identifier. *)
Theorem camel_to_snake_and_back (ws : list string) :
  Forall (fun w => camel_word w = true) ws →
  camel_to_snake (String.concat "" ws) = String.concat "_" (lower <$> ws) ∧
  snake_to_camel (camel_to_snake (String.concat "" ws)) = String.concat "" ws.
Proof.
  intros Hws. rewrite camel_to_snake_words by done. split; [done|].
  destruct (title_lower_words ws Hws) as [Htitle Hsnake].
  unfold snake_to_camel. destruct ws as [|w ws]; [done|].
  rewrite fmap_cons in *. by rewrite str_split_snake, Htitle.
Qed.

Lemma camel_to_snake_and_back_witness :
  camel_to_snake (String.concat "" ["Model"; "Checkpoint"]) =
    String.concat "_" (lower <$> ["Model"; "Checkpoint"]) ∧
  snake_to_camel (camel_to_snake (String.concat "" ["Model"; "Checkpoint"])) =
    String.concat "" ["Model"; "Checkpoint"].
Proof.
  apply (camel_to_snake_and_back ["Model"; "Checkpoint"]).
  repeat constructor.
Defined.

(** A name in snake case, that is words of small letters joined by single
    underscores, becomes in camel case its words capitalised and put
    together, and [camel_to_snake] takes that back to the name. *)
Theorem snake_to_camel_and_back (w : string) (ws : list string) :
  Forall (fun w => snake_word w = true) (w :: ws) →
  snake_to_camel (String.concat "_" (w :: ws)) =
    String.concat "" (capitalize <$> (w :: ws)) ∧
  camel_to_snake (snake_to_camel (String.concat "_" (w :: ws))) =
    String.concat "_" (w :: ws).
Proof.
  intros Hws.
  destruct (capitalize_words (w :: ws) Hws) as (Htitle & Hcamel & Hlower).
  assert (Hcamel_form : snake_to_camel (String.concat "_" (w :: ws)) =
                        String.concat "" (capitalize <$> (w :: ws))).
  { unfold snake_to_camel. by rewrite str_split_snake, Htitle. }
  split; [done|].
  by rewrite Hcamel_form, camel_to_snake_words, Hlower.
Qed.

Lemma snake_to_camel_and_back_witness :
  snake_to_camel (String.concat "_" ["key"; "path"]) =
    String.concat "" (capitalize <$> ["key"; "path"]) ∧
  camel_to_snake (snake_to_camel (String.concat "_" ["key"; "path"])) =
    String.concat "_" ["key"; "path"].
Proof.
  apply (snake_to_camel_and_back "key" ["path"]).
  repeat constructor.
Defined.

(** ** Dataset types *)

Lemma prefix_has_upper (sub s : string) :
  String.prefix sub s = true → has_upper sub = true → has_upper s = true.
Proof.
  revert s. induction sub as [|a sub IH]; intros s; [done|].
  destruct s as [|b s]; [done|]. simpl.
  destruct (ascii_dec a b) as [->|]; [|done].
  intros Hp [Ha|Hs]%orb_true_iff; apply orb_true_iff; [by left|right; by apply IH].
Qed.

Lemma contains_has_upper (sub s : string) :
  contains sub s = true → has_upper sub = true → has_upper s = true.
Proof.
  induction s as [|c s IH]; cbn [contains].
  - by destruct sub.
  - intros [Hp|Hc]%orb_true_iff Hu.
    + by apply (prefix_has_upper sub (String c s)).
    + apply orb_true_iff. right. by apply IH.
Qed.

Lemma lower_no_upper (s : string) : has_upper (lower s) = false.
Proof.
  induction s as [|c s IH]; [done|]. simpl. rewrite IH, orb_false_r.
  clear. destruct c as [[] [] [] [] [] [] [] []]; by vm_compute.
Qed.

Lemma remove_dups_singleton {A : Type} `{EqDecision A} (l : list A) (y : A) :
  remove_dups l = [y] → ∀ x, x ∈ l → x = y.
Proof.
  intros Hrd x Hx. apply elem_of_remove_dups in Hx. rewrite Hrd in Hx.
  by apply list_elem_of_singleton in Hx.
Qed.

(** [resolve_dataset_type] on the lower-cased base name of the path.  When
    no keyword occurs in it the result is [None].  A result [v] is the
    value of a keyword that occurs, and of every keyword that occurs; two
    keywords that occur with different values make the assertion fail.
    And since the name is lower-cased but the keywords are not, a keyword
    with a capital letter never matches: such entries can be removed
    without changing the result. *)
Theorem resolve_dataset_type_spec {A : Type} `{EqDecision A}
    (basename : string) (keywords : pydict A) :
  (Forall (fun kv => contains kv.1 (lower basename) = false) keywords →
   resolve_dataset_type basename keywords = Ok None) ∧
  (∀ v, resolve_dataset_type basename keywords = Ok (Some v) →
        (∃ k, (k, v) ∈ keywords ∧ contains k (lower basename) = true) ∧
        ∀ k' v', (k', v') ∈ keywords → contains k' (lower basename) = true → v' = v) ∧
  (∀ k1 v1 k2 v2,
     (k1, v1) ∈ keywords → contains k1 (lower basename) = true →
     (k2, v2) ∈ keywords → contains k2 (lower basename) = true →
     v1 ≠ v2 →
     resolve_dataset_type basename keywords = Raise AssertionError) ∧
  resolve_dataset_type basename
    (filter (fun kv => has_upper kv.1 = false) keywords) =
  resolve_dataset_type basename keywords.
Proof.
  set (low := lower basename).
  set (P := fun kv : string * A => contains kv.1 low = true).
  assert (Hmem : ∀ k v, (k, v) ∈ keywords → contains k low = true →
                        v ∈ snd <$> filter P keywords).
  { intros k v Hin Hc. apply list_elem_of_fmap. exists (k, v). split; [done|].
    by apply list_elem_of_filter. }
  split_and!.
  - intros Hnone. unfold resolve_dataset_type. fold low P.
    rewrite (filter_none P); [done|].
    intros kv Hin. rewrite Forall_forall in Hnone. unfold P.
    by rewrite (Hnone kv Hin).
  - intros v. unfold resolve_dataset_type. fold low P.
    destruct (snd <$> filter P keywords) as [|v0 l] eqn:El; [done|].
    destruct (bool_decide _) eqn:Hd; [|done]. intros [= <-].
    apply bool_decide_eq_true in Hd.
    assert (Hone : ∃ y, remove_dups (v0 :: l) = [y]).
    { destruct (remove_dups (v0 :: l)) as [|y [|z r]]; simpl in Hd; try lia. eauto. }
    destruct Hone as [y Hy].
    assert (Hv0 : v0 = y) by (apply (remove_dups_singleton _ _ Hy); by left).
    subst y. split.
    + assert (Hin : v0 ∈ snd <$> filter P keywords) by (rewrite El; by left).
      apply list_elem_of_fmap in Hin as ([k v] & -> & Hin).
      apply list_elem_of_filter in Hin as [Hc Hin]. by exists k.
    + intros k' v' Hin Hc. apply (remove_dups_singleton _ _ Hy).
      by apply (Hmem k').
  - intros k1 v1 k2 v2 Hin1 Hc1 Hin2 Hc2 Hne.
    unfold resolve_dataset_type. fold low P.
    pose proof (Hmem k1 v1 Hin1 Hc1) as H1. pose proof (Hmem k2 v2 Hin2 Hc2) as H2.
    destruct (snd <$> filter P keywords) as [|v0 l] eqn:El.
    + by apply elem_of_nil in H1.
    + rewrite bool_decide_eq_false_2; [done|]. intros Hlen.
      assert (Hone : ∃ y, remove_dups (v0 :: l) = [y]).
      { destruct (remove_dups (v0 :: l)) as [|y [|z r]]; simpl in Hlen; try lia. eauto. }
      destruct Hone as [y Hy]. apply Hne.
      by rewrite (remove_dups_singleton _ _ Hy v1 H1),
                 (remove_dups_singleton _ _ Hy v2 H2).
  - unfold resolve_dataset_type. fold low P.
    assert (Hf : filter P (filter (fun kv : string * A => has_upper kv.1 = false) keywords)
                 = filter P keywords).
    { clear Hmem. induction keywords as [|kv l IH]; [done|].
      rewrite !filter_cons.
      destruct (decide (has_upper kv.1 = false)) as [Hu|Hu].
      - rewrite filter_cons. by rewrite IH.
      - rewrite IH. destruct (decide (P kv)) as [Hp|]; [|done].
        exfalso. apply Hu. apply not_true_iff_false. intros Hup.
        pose proof (contains_has_upper _ _ Hp Hup) as Hlow.
        unfold low in Hlow. by rewrite lower_no_upper in Hlow. }
    by rewrite Hf.
Qed.

Lemma resolve_dataset_type_spec_witness :
  resolve_dataset_type "MIR-1K_train" [("mir-1k", "MIR-1K"); ("train", "Other")] =
    Raise AssertionError.
Proof.
  refine (proj1 (proj2 (proj2 (resolve_dataset_type_spec "MIR-1K_train"
                                 [("mir-1k", "MIR-1K"); ("train", "Other")])))
            "mir-1k" "MIR-1K" "train" "Other" _ _ _ _ _).
  - by left.
  - vm_compute. reflexivity.
  - right. by left.
  - vm_compute. reflexivity.
  - discriminate.
Defined.
